(** * DynamoDB point-in-time restore orchestrator
    (scripts/restore-dynamodb-pitr/restore_dynamodb_pitr.py, with the older
    scripts/restore_dynamodb_pitr.py where it differs).

    A shallow embedding of [DynamoDBPITRRestore]: datetimes as records of
    integer fields, table names as strings, and the calls made against the
    DynamoDB client recorded as a trace of [event]s.  The provider's answers
    (describe_table, list_tables, scan, ...) come from an [env] record. *)

From Stdlib Require Import ZArith String List Bool Lia Ascii.
Import ListNotations.
Open Scope string_scope.
Open Scope Z_scope.

(** ** Datetimes *)

(** A Python [datetime]: wall-clock fields and an optional UTC offset in
    seconds ([None] for a naive datetime). *)
Record datetime := mkdt {
  year : Z; month : Z; day : Z;
  hour : Z; minute : Z; second : Z; microsecond : Z;
  tzinfo : option Z
}.

(** [pytz.timezone('Europe/Berlin').localize(dt)]: a naive datetime gets the
    Berlin UTC offset of its wall time (given by the tz database [berlin]);
    an aware datetime is left alone (the source only localizes naive ones). *)
Definition localize (berlin : datetime -> Z) (dt : datetime) : datetime :=
  match tzinfo dt with
  | Some _ => dt
  | None =>
      mkdt (year dt) (month dt) (day dt) (hour dt) (minute dt) (second dt)
           (microsecond dt) (Some (berlin dt))
  end.

(** Days since 1970-01-01 of a proleptic Gregorian date. *)
Definition days_from_civil (y m d : Z) : Z :=
  let y' := if m <=? 2 then y - 1 else y in
  let era := y' / 400 in
  let yoe := y' - era * 400 in
  let mp := if m >? 2 then m - 3 else m + 9 in
  let doy := (153 * mp + 2) / 5 + d - 1 in
  let doe := yoe * 365 + yoe / 4 - yoe / 100 + doy in
  era * 146097 + doe - 719468.

(** [dt.astimezone(pytz.UTC)] as microseconds since the epoch (aware [dt]). *)
Definition utc_micros (dt : datetime) : Z :=
  let off := match tzinfo dt with Some o => o | None => 0 end in
  ((days_from_civil (year dt) (month dt) (day dt)) * 86400
     + hour dt * 3600 + minute dt * 60 + second dt - off) * 1000000
  + microsecond dt.

(** [timedelta(days=35)] in microseconds. *)
Definition max_age : Z := 35 * 86400 * 1000000.

(** ** Recovery point validation ([_validate_restore_point]) *)

(** The three ways [_validate_restore_point] ends after parsing, one per
    log line: within the limit, "max is 35 days", "in the future". *)
Inductive validation := VOk | VTooOld | VFuture.

Definition validation_ok (v : validation) : bool :=
  match v with VOk => true | _ => false end.

(** [age = now_utc - restore_dt_utc] in microseconds. *)
Definition restore_age (berlin : datetime -> Z) (now_utc : Z) (rp : datetime) : Z :=
  now_utc - utc_micros (localize berlin rp).

Definition _validate_restore_point (berlin : datetime -> Z) (now_utc : Z)
    (rp : datetime) : validation :=
  let age := restore_age berlin now_utc rp in
  if max_age <? age then VTooOld
  else if age <? 0 then VFuture
  else VOk.

(** ** Restore table names *)

Definition digit (n : nat) : ascii := ascii_of_nat (48 + n)%nat.

(** Zero-padded decimal rendering on [k] digits, as strftime's [%m], [%d],
    ... (and [%Y] for years 1000-9999). *)
Fixpoint pad (k n : nat) : string :=
  match k with
  | O => EmptyString
  | S k' => pad k' (Nat.div n 10) ++ String (digit (Nat.modulo n 10)) EmptyString
  end.

(** [dt.strftime('%Y%m%d%H%M%S')]. *)
Definition strftime_token (dt : datetime) : string :=
  pad 4 (Z.to_nat (year dt)) ++ pad 2 (Z.to_nat (month dt))
  ++ pad 2 (Z.to_nat (day dt)) ++ pad 2 (Z.to_nat (hour dt))
  ++ pad 2 (Z.to_nat (minute dt)) ++ pad 2 (Z.to_nat (second dt)).

(** The table set ([self.tables]): logical key and table name, in the
    insertion order of [base_names]. *)
Definition base_names : list (string * string) :=
  [("quotes", "quote-lambda-tf-quotes");
   ("user_likes", "quote-lambda-tf-user-likes");
   ("user_views", "quote-lambda-tf-user-views")].

Definition _configure_table_names (environment : string) : list (string * string) :=
  map (fun '(key, base_name) =>
         (key, if String.eqb environment "dev" then base_name ++ "-dev"
               else base_name)) base_names.

Definition restore_table_name (original timestamp : string) : string :=
  original ++ "-restore-" ++ timestamp.

(** [_get_restore_table_names]: [restore_point_timestamp] when set, else
    the token of the current time [now_local] (the fallback). *)
Definition _get_restore_table_names (tables : list (string * string))
    (restore_point_timestamp : option string) (now_local : datetime)
    : list (string * string) :=
  let timestamp := match restore_point_timestamp with
                   | Some ts => ts
                   | None => strftime_token now_local
                   end in
  map (fun '(key, original) => (key, restore_table_name original timestamp)) tables.

(** The older script's [_get_restore_table_names]: always the current time. *)
Definition old_get_restore_table_names (tables : list (string * string))
    (now_local : datetime) : list (string * string) :=
  map (fun '(key, original) =>
         (key, restore_table_name original (strftime_token now_local))) tables.

(** The token [run] stores in [restore_point_timestamp]. *)
Definition restore_point_timestamp (berlin : datetime -> Z) (rp : datetime) : string :=
  strftime_token (localize berlin rp).

(** ** Provider calls, logs and status records *)

(** Lifecycle state written by [_update_status]; [FAILED] carries the
    error message. *)
Inductive status := INITIALIZING | FAILED (reason : string) | COMPLETED.

Inductive level := INFO | WARNING | ERROR.

(** What a run does, in order: DynamoDB client calls, log lines, status
    file writes, the lock file, and the point where the recovery point is
    validated ([Validate], a local computation). *)
Inductive event :=
  | Log (lvl : level) (msg : string)
  | Status (s : status)
  | Validate
  | LockAcquire
  | LockRelease
  | DescribeTable (table : string)
  | DescribeContinuousBackups (table : string)
  | ListTables
  | DeleteTable (table : string)
  | RestoreTableToPointInTime (source target : string)
  | ScanCount (table : string)
  | Scan (table : string)
  | BatchDelete (table : string) (keys : list nat)
  | BatchPut (table : string) (items : list nat).

(** Calls issued to the DynamoDB client. *)
Definition is_provider_call (ev : event) : bool :=
  match ev with
  | DescribeTable _ | DescribeContinuousBackups _ | ListTables | DeleteTable _
  | RestoreTableToPointInTime _ _ | ScanCount _ | Scan _ | BatchDelete _ _ | BatchPut _ _ => true
  | _ => false
  end.

(** Calls that change tables or their contents. *)
Definition is_mutating (ev : event) : bool :=
  match ev with
  | DeleteTable _ | RestoreTableToPointInTime _ _ | BatchDelete _ _ | BatchPut _ _ => true
  | _ => false
  end.

Definition is_restore_initiation (ev : event) : bool :=
  match ev with RestoreTableToPointInTime _ _ => true | _ => false end.

(** The status record left in the status file: the last one written. *)
Fixpoint final_status (tr : list event) : option status :=
  match tr with
  | [] => None
  | Status s :: rest =>
      match final_status rest with Some s' => Some s' | None => Some s end
  | _ :: rest => final_status rest
  end.

(** Answer of [describe_table]: the table's [TableStatus], a
    [ResourceNotFoundException], or another [ClientError]. *)
Inductive describe_result := Found (table_status : string) | NotFound | OtherError.

(** What the lookup of the valid restore window after an
    [InvalidRestoreTimeException] finds: describe_table raises, or its
    [RestoreSummary] has an [EarliestRestorableDateTime], or it has none (and
    describe_continuous_backups is asked next). *)
Inductive window_lookup := DescribeRaises | EarliestInDescription | NoEarliestInDescription.

(** The [ClientError] a rejected restore_table_to_point_in_time raises. *)
Inductive restore_failure := InvalidRestoreTime (lookup : window_lookup) | OtherRestoreError.

(** The world a run sees.  Items are identified by their key ([nat]); a
    table's rows are listed in scan order. *)
Record env := mkenv {
  berlin : datetime -> Z;                  (** pytz Europe/Berlin offset *)
  now_utc : Z;                             (** [datetime.now(pytz.UTC)], microseconds *)
  now_local : datetime;                    (** [datetime.now()] *)
  describe : string -> describe_result;    (** describe_table before the restores *)
  list_tables : list string;               (** all pages of list_tables *)
  lock_acquired : bool;                    (** result of [RestoreLock.acquire] *)
  restore_accepted : string -> bool;       (** restore_table_to_point_in_time per source *)
  restore_error : string -> restore_failure;  (** its [ClientError] when rejected *)
  poll_observations : list (string -> describe_result);
      (** describe_table answers of each poll round that starts before the
          timeout; empty when [timeout_minutes <= 0] *)
  item_count : string -> option nat;       (** Scan Select=COUNT; [None] = ClientError *)
  rows : string -> list nat;               (** table contents at scan time *)
  page_size : nat;                         (** rows per scan page *)
  swap_budget : option nat
      (** how many calls of the swap (describe_table, scan,
          batch_write_item) succeed before one raises; [None]: none raises *)
}.

Record config := mkconfig {
  environment : string;
  dry_run : bool
}.

(** ** Existing and stale restore tables *)

Fixpoint _check_existing_restore_tables (describe : string -> describe_result)
    (restore_tables : list (string * string)) : list event * list (string * string) :=
  match restore_tables with
  | [] => ([], [])
  | (_, table_name) :: rest =>
      let '(evs, existing) := _check_existing_restore_tables describe rest in
      match describe table_name with
      | Found st => (DescribeTable table_name :: evs, (table_name, st) :: existing)
      | NotFound => (DescribeTable table_name :: evs, existing)
      | OtherError =>
          (DescribeTable table_name
             :: Log WARNING ("Error checking table " ++ table_name) :: evs, existing)
      end
  end.

(** The inner loop of [_find_old_restore_tables]: does [table_name] start
    with [original + "-restore-"] for some configured table (loop ends at the
    first match, [break]). *)
Fixpoint matches_restore_pattern (tables : list (string * string)) (table_name : string) : bool :=
  match tables with
  | [] => false
  | (_, original_table) :: rest =>
      if String.prefix (original_table ++ "-restore-") table_name then true
      else matches_restore_pattern rest table_name
  end.

Definition mem_name (n : string) (names : list string) : bool :=
  existsb (String.eqb n) names.

Fixpoint _find_old_restore_tables (tables : list (string * string))
    (current_table_names : list string) (listed : list string) : list string :=
  match listed with
  | [] => []
  | table_name :: rest =>
      let old := _find_old_restore_tables tables current_table_names rest in
      if matches_restore_pattern tables table_name then
        if mem_name table_name current_table_names then old else table_name :: old
      else old
  end.

(** [_cleanup_existing_restore_tables]: one delete_table per name; a failure
    is logged and the loop goes on. *)
Definition _cleanup_existing_restore_tables (table_names : list string) : list event :=
  map DeleteTable table_names.

(** [restore_tables[table_key]]. *)
Fixpoint lookup_key (key : string) (m : list (string * string)) : string :=
  match m with
  | [] => ""
  | (k, v) :: rest => if String.eqb k key then v else lookup_key key rest
  end.

(** ** Restore initiation *)

(** The calls and log lines of the [except ClientError] branch of
    [_initiate_pitr_restores] for a rejected [original_table]: on an
    [InvalidRestoreTimeException] the valid restore window is looked up with
    describe_table and, when its description has no earliest restorable
    time, describe_continuous_backups (a failure of the lookup is passed
    over); then the error is raised again. *)
Definition window_diagnostics (original_table : string) (failure : restore_failure)
    : list event :=
  match failure with
  | OtherRestoreError => []
  | InvalidRestoreTime lookup =>
      Log ERROR ("Invalid restore time for " ++ original_table)
        :: DescribeTable original_table
        :: match lookup with
           | NoEarliestInDescription => [DescribeContinuousBackups original_table]
           | _ => []
           end
  end.

(** The loop of [_initiate_pitr_restores]; a rejected request raises out of
    the loop and the method returns [False]. *)
Fixpoint _initiate_pitr_restores (dry_run : bool) (accepted : string -> bool)
    (failure : string -> restore_failure)
    (tables restore_tables : list (string * string)) : list event * bool :=
  match tables with
  | [] => ([], true)
  | (table_key, original_table) :: rest =>
      let restore_table := lookup_key table_key restore_tables in
      if dry_run then
        let '(evs, ok) := _initiate_pitr_restores dry_run accepted failure rest restore_tables in
        (Log INFO ("[DRY RUN] Would restore " ++ original_table ++ " to " ++ restore_table)
           :: evs, ok)
      else if accepted original_table then
        let '(evs, ok) := _initiate_pitr_restores dry_run accepted failure rest restore_tables in
        (RestoreTableToPointInTime original_table restore_table :: evs, ok)
      else
        ((RestoreTableToPointInTime original_table restore_table
            :: window_diagnostics original_table (failure original_table)
            ++ [Log ERROR "Failed to initiate PITR restore"])%list, false)
  end.

(** ** Polling *)

Inductive round_result := AllActive | NotAllActive | Raised.

(** One pass of the [for] loop of [_poll_restore_completion] (not dry run). *)
Fixpoint poll_round (obs : string -> describe_result)
    (restore_tables : list (string * string)) : list event * round_result :=
  match restore_tables with
  | [] => ([], AllActive)
  | (table_key, restore_table) :: rest =>
      match obs restore_table with
      | OtherError => ([DescribeTable restore_table], Raised)
      | r =>
          let '(evs, res) := poll_round obs rest in
          let res' := match r, res with
                      | _, Raised => Raised
                      | Found "ACTIVE", x => x
                      | _, _ => NotAllActive
                      end in
          (DescribeTable restore_table :: evs, res')
      end
  end.

(** [_poll_restore_completion]: one element of [rounds] per iteration of
    the [while] loop that starts before the timeout. *)
Fixpoint _poll_restore_completion (dry_run : bool)
    (restore_tables : list (string * string))
    (rounds : list (string -> describe_result)) : list event * bool :=
  match rounds with
  | [] => ([Log ERROR "Restore operation timed out"], false)
  | obs :: rest =>
      if dry_run then ([Log INFO "All restore tables are ACTIVE"], true)
      else
        let '(evs, res) := poll_round obs restore_tables in
        match res with
        | AllActive => ((evs ++ [Log INFO "All restore tables are ACTIVE"])%list, true)
        | Raised => ((evs ++ [Log ERROR "Error polling restore status"])%list, false)
        | NotAllActive =>
            let '(evs', ok) := _poll_restore_completion dry_run restore_tables rest in
            ((evs ++ evs')%list, ok)
        end
  end.

(** ** Item counts *)

(** The three outcomes [_verify_item_counts] logs for one table. *)
Definition classify_counts (original_count restore_count : nat) : level * string :=
  if Nat.ltb original_count restore_count then
    (WARNING, "Unexpected: restore table has MORE items than original")
  else if Nat.ltb restore_count original_count then
    (INFO, "restore has fewer items - expected for past restore point")
  else (INFO, "counts match").

Fixpoint _verify_item_counts (dry_run : bool) (count : string -> option nat)
    (tables restore_tables : list (string * string)) : list event * bool :=
  match tables with
  | [] => ([], true)
  | (table_key, original_table) :: rest =>
      let restore_table := lookup_key table_key restore_tables in
      if dry_run then
        let '(evs, ok) := _verify_item_counts dry_run count rest restore_tables in
        (Log INFO ("[DRY RUN] Would check counts for " ++ original_table) :: evs, ok)
      else
        match count original_table with
        | None => ([ScanCount original_table; Log ERROR "Error checking item counts"], false)
        | Some original_count =>
            match count restore_table with
            | None => ([ScanCount original_table; ScanCount restore_table;
                        Log ERROR "Error checking item counts"], false)
            | Some restore_count =>
                let '(lvl, msg) := classify_counts original_count restore_count in
                let '(evs, ok) := _verify_item_counts dry_run count rest restore_tables in
                (ScanCount original_table :: ScanCount restore_table :: Log lvl msg :: evs, ok)
            end
        end
  end.

(** ** Swap *)

Definition batch_size : nat := 25.

(** [for i in range(0, len(items), batch_size): batch = items[i:i+batch_size]]
    ([fuel] counts the remaining iterations; [len(items)] is enough). *)
Fixpoint batches_from {A} (fuel : nat) (items : list A) : list (list A) :=
  match fuel with
  | O => []
  | S fuel' =>
      match items with
      | [] => []
      | _ => firstn batch_size items :: batches_from fuel' (skipn batch_size items)
      end
  end.

Definition batches {A} (items : list A) : list (list A) :=
  batches_from (length items) items.

(** One [scan] call starting at row [start] ([ExclusiveStartKey]): the page's
    items and the [LastEvaluatedKey], present while rows remain. *)
Definition scan_page (table_rows : list nat) (page_size start : nat)
    : list nat * option nat :=
  (firstn page_size (skipn start table_rows),
   if Nat.ltb (start + page_size) (length table_rows)
   then Some (start + page_size)%nat else None).

(** The calls of the swap can raise.  A [SwapM] computation runs with the
    number of provider calls that still succeed ([None]: none raises,
    [Some 0]: the next one raises) and gives back the calls and log lines
    it made, the number left, and [Some] of its result or [None] when an
    exception propagates out of it. *)
Definition SwapM (A : Type) : Type := option nat -> list event * option nat * option A.

Definition sret {A} (a : A) : SwapM A := fun b => ([], b, Some a).

Definition sbind {A B} (m : SwapM A) (f : A -> SwapM B) : SwapM B :=
  fun b =>
    match m b with
    | (evs, b1, Some a) => let '(evs2, b2, r) := f a b1 in ((evs ++ evs2)%list, b2, r)
    | (evs, b1, None) => (evs, b1, None)
    end.

Declare Scope swap_scope.
Delimit Scope swap_scope with swap.
Notation "x <- m ;; k" := (sbind m (fun x => k))
  (at level 61, m at next level, right associativity) : swap_scope.
Notation "m ;; k" := (sbind m (fun _ : unit => k))
  (at level 61, right associativity) : swap_scope.
Open Scope swap_scope.

(** A provider call: recorded, and raising when no call is left. *)
Definition scall (ev : event) : SwapM unit :=
  fun b =>
    match b with
    | None => ([ev], None, Some tt)
    | Some O => ([ev], Some O, None)
    | Some (S n) => ([ev], Some n, Some tt)
    end.

Definition slog (lvl : level) (msg : string) : SwapM unit :=
  fun b => ([Log lvl msg], b, Some tt).

(** [raise]. *)
Definition sraise {A} : SwapM A := fun b => ([], b, None).

(** [try: m / except Exception: h]. *)
Definition stry {A} (m h : SwapM A) : SwapM A :=
  fun b =>
    match m b with
    | (evs, b1, None) => let '(evs2, b2, r) := h b1 in ((evs ++ evs2)%list, b2, r)
    | res => res
    end.

(** One batch_write_item per batch ([if delete_requests:] holds: batches
    are never empty). *)
Fixpoint batch_writes (mk : list nat -> event) (bs : list (list nat)) : SwapM unit :=
  match bs with
  | [] => sret tt
  | batch :: rest => scall (mk batch);; batch_writes mk rest
  end.

(** The first [scan] and the [while 'LastEvaluatedKey' in scan_response]
    loop: for each page, the [Scan] call and what is done with its items. *)
Fixpoint scan_loop (fuel : nat) (table : string) (table_rows : list nat)
    (page_size start : nat) (on_page : list nat -> SwapM unit) : SwapM unit :=
  match fuel with
  | O => sret tt
  | S fuel' =>
      let '(items, last_key) := scan_page table_rows page_size start in
      scall (Scan table);;
      on_page items;;
      match last_key with
      | None => sret tt
      | Some k => scan_loop fuel' table table_rows page_size k on_page
      end
  end.

(** The pages of a full scan (the [Items] of each response). *)
Fixpoint scan_pages (fuel : nat) (table_rows : list nat) (page_size start : nat)
    : list (list nat) :=
  match fuel with
  | O => []
  | S fuel' =>
      let '(items, last_key) := scan_page table_rows page_size start in
      items :: match last_key with
               | None => []
               | Some k => scan_pages fuel' table_rows page_size k
               end
  end.

Definition scan_fuel (table_rows : list nat) : nat := S (length table_rows).

(** [_clear_table]: describe_table for the key schema, then one
    batch_write_item of [DeleteRequest]s per batch of each page; an
    exception is logged and raised again. *)
Definition _clear_table (table_name : string) (table_rows : list nat) (page_size : nat)
    : SwapM unit :=
  stry (scall (DescribeTable table_name);;
        scan_loop (scan_fuel table_rows) table_name table_rows page_size 0
          (fun items => batch_writes (BatchDelete table_name) (batches items)))
       (slog ERROR ("Error clearing table " ++ table_name);; sraise).

(** [_copy_table_data]: one batch_write_item of [PutRequest]s per batch of
    each page of the source; an exception is logged and raised again. *)
Definition _copy_table_data (source_table target_table : string) (source_rows : list nat)
    (page_size : nat) : SwapM unit :=
  stry (scan_loop (scan_fuel source_rows) source_table source_rows page_size 0
          (fun items => batch_writes (BatchPut target_table) (batches items)))
       (slog ERROR "Error copying table data";; sraise).

(** [_swap_table_data]: clear, then copy; any exception gives [False]. *)
Definition _swap_table_data (e : env) (original_table restore_table : string) : SwapM bool :=
  stry (_clear_table original_table (rows e original_table) (page_size e);;
        _copy_table_data restore_table original_table (rows e restore_table) (page_size e);;
        sret true)
       (slog ERROR "Error swapping table data";; sret false).

(** The [for] loop of [_swap_data]: it stops at the first table whose swap
    fails. *)
Fixpoint swap_tables (dry_run : bool) (e : env) (tables restore_tables : list (string * string))
    : SwapM bool :=
  match tables with
  | [] => sret true
  | (table_key, original_table) :: rest =>
      let restore_table := lookup_key table_key restore_tables in
      if dry_run then
        slog INFO ("[DRY RUN] Would swap data for " ++ original_table);;
        swap_tables dry_run e rest restore_tables
      else
        ok <- _swap_table_data e original_table restore_table;;
        if ok then swap_tables dry_run e rest restore_tables
        else (slog ERROR ("Failed to swap data for " ++ table_key);; sret false)
  end.

Definition _swap_data (dry_run : bool) (e : env) (tables restore_tables : list (string * string))
    : SwapM bool :=
  stry (swap_tables dry_run e tables restore_tables)
       (slog ERROR "Error swapping data";; sret false).

(** [if not self._swap_data(...)]: [_swap_data] catches every exception, so
    its result is never [None]. *)
Definition returned_true (r : option bool) : bool :=
  match r with Some true => true | _ => false end.

(** The calls of the swap when none of them raises. *)
Fixpoint scan_calls (fuel : nat) (table : string) (table_rows : list nat)
    (page_size start : nat) (on_page : list nat -> list event) : list event :=
  match fuel with
  | O => []
  | S fuel' =>
      let '(items, last_key) := scan_page table_rows page_size start in
      Scan table :: (on_page items
        ++ match last_key with
           | None => []
           | Some k => scan_calls fuel' table table_rows page_size k on_page
           end)%list
  end.

Definition clear_table_calls (table_name : string) (table_rows : list nat)
    (page_size : nat) : list event :=
  DescribeTable table_name
    :: scan_calls (scan_fuel table_rows) table_name table_rows page_size 0
         (fun items => map (BatchDelete table_name) (batches items)).

Definition copy_table_calls (source_table target_table : string)
    (source_rows : list nat) (page_size : nat) : list event :=
  scan_calls (scan_fuel source_rows) source_table source_rows page_size 0
    (fun items => map (BatchPut target_table) (batches items)).

Definition swap_table_calls (e : env) (original_table restore_table : string) : list event :=
  (clear_table_calls original_table (rows e original_table) (page_size e)
   ++ copy_table_calls restore_table original_table (rows e restore_table) (page_size e))%list.

Fixpoint swap_calls (e : env) (tables restore_tables : list (string * string)) : list event :=
  match tables with
  | [] => []
  | (table_key, original_table) :: rest =>
      (swap_table_calls e original_table (lookup_key table_key restore_tables)
       ++ swap_calls e rest restore_tables)%list
  end.

(** [_delete_restore_tables]: a failed delete_table is only a warning. *)
Fixpoint _delete_restore_tables (dry_run : bool) (restore_tables : list (string * string))
    : list event :=
  match restore_tables with
  | [] => []
  | (_, restore_table) :: rest =>
      (if dry_run then Log INFO ("[DRY RUN] Would delete " ++ restore_table)
       else DeleteTable restore_table) :: _delete_restore_tables dry_run rest
  end.

(** ** [DynamoDBPITRRestore.run] *)

Definition tables_of (cfg : config) : list (string * string) :=
  _configure_table_names (environment cfg).

(** The restore table names [run] uses for recovery point [rp]. *)
Definition restore_tables_of (cfg : config) (e : env) (rp : datetime) : list (string * string) :=
  _get_restore_table_names (tables_of cfg) (Some (restore_point_timestamp (berlin e) rp))
    (now_local e).

(** The part of [run] before [_validate_restore_point]: the existence check
    of this recovery point's restore tables and, when none exists, the
    search for (and deletion of) stale ones.  Returns the events and
    [skip_restore]. *)
Definition check_restore_tables (cfg : config) (e : env) (rp : datetime) : list event * bool :=
  let tables := tables_of cfg in
  let restore_tables := restore_tables_of cfg e rp in
  let '(evs, existing) := _check_existing_restore_tables (describe e) restore_tables in
  match existing with
  | _ :: _ => (evs, true)
  | [] =>
      let old := _find_old_restore_tables tables (map snd restore_tables) (list_tables e) in
      let cleanup := if dry_run cfg then []
                     else match old with
                          | [] => []
                          | _ => _cleanup_existing_restore_tables old
                          end in
      ((evs ++ ListTables :: cleanup)%list, false)
  end.

(** The body of [with RestoreLock(...)]: the events and whether it ran to
    the end; on a [return False] the [FAILED] record is written before the
    lock is released. *)
Definition locked_pipeline (cfg : config) (e : env) (rp : datetime) (skip_restore : bool)
    : list event * bool :=
  let dry := dry_run cfg in
  let tables := tables_of cfg in
  let restore_tables := restore_tables_of cfg e rp in
  let '(ev_init, init_ok) :=
    if skip_restore then ([], true)
    else _initiate_pitr_restores dry (restore_accepted e) (restore_error e) tables restore_tables in
  if negb init_ok then
    ((ev_init ++ [Status (FAILED "Failed to initiate PITR restores")])%list, false)
  else
  let '(ev_poll, poll_ok) := _poll_restore_completion dry restore_tables (poll_observations e) in
  if negb poll_ok then
    ((ev_init ++ ev_poll ++ [Status (FAILED "Restore operation timed out")])%list, false)
  else
  let '(ev_count, count_ok) := _verify_item_counts dry (item_count e) tables restore_tables in
  if negb count_ok then
    ((ev_init ++ ev_poll ++ ev_count ++ [Status (FAILED "Item count mismatch")])%list, false)
  else
  let '(ev_swap, _, swapped) := _swap_data dry e tables restore_tables (swap_budget e) in
  if negb (returned_true swapped) then
    ((ev_init ++ ev_poll ++ ev_count ++ ev_swap ++ [Status (FAILED "Data swap failed")])%list,
     false)
  else
  let ev_delete := _delete_restore_tables dry restore_tables in
  ((ev_init ++ ev_poll ++ ev_count ++ ev_swap ++ ev_delete)%list, true).

(** [run(restore_point_in_time)]: the trace and the returned boolean (the
    exit code is 0 exactly when it is [true]).  A lock that cannot be
    acquired raises [RuntimeError("Could not acquire restore lock")] from
    [__enter__], which the outer [except] turns into [FAILED]. *)
Definition run (cfg : config) (e : env) (rp : datetime) : list event * bool :=
  let start :=
    (Log INFO "Starting DynamoDB PITR restore"
       :: (if dry_run cfg then [Log INFO "DRY RUN MODE - No changes will be made"] else [])
       ++ [Status INITIALIZING])%list in
  let '(ev_check, skip_restore) := check_restore_tables cfg e rp in
  let pre := (start ++ ev_check ++ [Validate])%list in
  if negb (validation_ok (_validate_restore_point (berlin e) (now_utc e) rp)) then
    ((pre ++ [Log ERROR "Restore point validation failed";
              Status (FAILED "Invalid restore point")])%list, false)
  else if negb (lock_acquired e) then
    ((pre ++ [Log ERROR "Failed to acquire lock - restore already in progress";
              Status (FAILED "Could not acquire restore lock")])%list, false)
  else
    let '(ev_body, ok) := locked_pipeline cfg e rp skip_restore in
    if ok then
      ((pre ++ LockAcquire :: ev_body
            ++ [LockRelease; Log INFO "Restore completed successfully"; Status COMPLETED])%list,
       true)
    else ((pre ++ LockAcquire :: ev_body ++ [LockRelease])%list, false).

Definition run_trace (cfg : config) (e : env) (rp : datetime) : list event := fst (run cfg e rp).

(** ** Sample inputs *)

(** A winter-time Berlin offset (CET, +01:00), right for the dates below. *)
Definition cet (_ : datetime) : Z := 3600.

Definition utc_dt (y mo d h mi s : Z) : datetime := mkdt y mo d h mi s 0 (Some 0).
Definition naive_dt (y mo d h mi s : Z) : datetime := mkdt y mo d h mi s 0 None.

(** 2026-01-10T12:00:00Z. *)
Definition sample_now : Z := utc_micros (utc_dt 2026 1 10 12 0 0).

Definition dev_config : config := mkconfig "dev" false.
Definition dev_dry_config : config := mkconfig "dev" true.

(** A fresh run: no restore table exists yet, every restore is accepted and
    ready at the first poll, each table has three rows read in pages of two. *)
Definition fresh_env (listed : list string) (lock : bool)
    (obs : list (string -> describe_result)) : env :=
  mkenv cet sample_now (utc_dt 2026 1 10 13 0 0) (fun _ => NotFound) listed lock
    (fun _ => true) (fun _ => InvalidRestoreTime EarliestInDescription) obs
    (fun _ => Some 3%nat) (fun _ => [1; 2; 3]%nat) 2 None.

Definition all_active : string -> describe_result := fun _ => Found "ACTIVE".
Definition creating : string -> describe_result := fun _ => Found "CREATING".

(** A second run for the same recovery point: its restore tables already
    exist and are [ACTIVE]. *)
Definition reused_env : env :=
  mkenv cet sample_now (utc_dt 2026 1 10 13 0 0) all_active [] true
    (fun _ => true) (fun _ => InvalidRestoreTime EarliestInDescription) [all_active]
    (fun _ => Some 3%nat) (fun _ => [1; 2; 3]%nat) 2 None.


(** A restore table left over by an earlier run for another recovery point. *)
Definition stale_restore_table : string := "quote-lambda-tf-quotes-dev-restore-20251201120000".

(** ** Predicates used in the statements *)

(** The wall-clock second [strftime('%Y%m%d%H%M%S')] renders. *)
Definition wall_second (dt : datetime) : Z * Z * Z * Z * Z * Z :=
  (year dt, month dt, day dt, hour dt, minute dt, second dt).

(** Field ranges of a Python [datetime], with a four-digit year (for which
    [%Y] is zero-padded to four characters). *)
Definition fields_in_range (dt : datetime) : Prop :=
  1000 <= year dt <= 9999 /\ 1 <= month dt <= 12 /\ 1 <= day dt <= 31 /\
  0 <= hour dt <= 23 /\ 0 <= minute dt <= 59 /\ 0 <= second dt <= 59.

(** The events of a trace before its [Validate] step. *)
Fixpoint before_validate (tr : list event) : list event :=
  match tr with
  | [] => []
  | Validate :: _ => []
  | ev :: rest => ev :: before_validate rest
  end.

(** No event of the trace satisfies [p]. *)
Definition none_of (p : event -> bool) (tr : list event) : bool :=
  forallb (fun ev => negb (p ev)) tr.

(** [run] reached the validation, the lock and the restore stage: the
    recovery point is valid and the lock was acquired. *)
Definition validated_and_locked (e : env) (rp : datetime) : bool :=
  validation_ok (_validate_restore_point (berlin e) (now_utc e) rp) && lock_acquired e.

(** The production tables of both environments. *)
Definition production_table_names : list string :=
  (map snd (_configure_table_names "dev") ++ map snd (_configure_table_names "prod"))%list.

(** [run] got past the initiation step: restores reused ([skip_restore]) or
    all accepted. *)
Definition initiation_ok (cfg : config) (e : env) (rp : datetime) : bool :=
  snd (check_restore_tables cfg e rp)
  || snd (_initiate_pitr_restores (dry_run cfg) (restore_accepted e) (restore_error e)
            (tables_of cfg) (restore_tables_of cfg e rp)).

(** A call that deletes one of [restore_names] or a production table, or
    deletes or writes items. *)
Definition touches_restore_or_production (restore_names : list string) (ev : event) : bool :=
  match ev with
  | DeleteTable t => mem_name t restore_names || mem_name t production_table_names
  | BatchDelete _ _ | BatchPut _ _ => true
  | _ => false
  end.

(** The item lists of the batch_write_item calls of a trace. *)
Definition batches_in (tr : list event) : list (list nat) :=
  flat_map (fun ev => match ev with
                      | BatchDelete _ ks | BatchPut _ ks => [ks]
                      | _ => []
                      end) tr.

(** ** [RestoreLock] *)

(** Times in milliseconds of [time.time()]. *)
Definition acquire_timeout_ms : Z := 5000.
Definition stale_after_ms : Z := 3600000.
Definition lock_sleep_ms : Z := 500.

(** The lock file: [None] when absent, [Some mtime] when present. *)
Definition _is_stale (lock_file : option Z) (now : Z) : bool :=
  match lock_file with
  | None => false
  | Some mtime => stale_after_ms <? now - mtime
  end.

(** The [while time.time() - start_time < timeout_seconds] loop: [now] is
    the clock, the [os.open(..., O_CREAT | O_EXCL)] succeeds when no file
    exists and writes one stamped [now]; an existing stale file is unlinked
    ([unlink_ok]) and the loop continues without sleeping; when the unlink
    fails the file stays stale and the loop spins until the timeout, which
    is the [(false, lock_file)] result; a fresh file costs a 0.5 s sleep.
    [fuel] bounds the iterations. *)
Fixpoint acquire_loop (fuel : nat) (timeout start now : Z) (unlink_ok : bool)
    (lock_file : option Z) : bool * option Z :=
  match fuel with
  | O => (false, lock_file)
  | S fuel' =>
      if now - start <? timeout then
        match lock_file with
        | None => (true, Some now)
        | Some _ =>
            if _is_stale lock_file now then
              if unlink_ok then acquire_loop fuel' timeout start now unlink_ok None
              else (false, lock_file)
            else acquire_loop fuel' timeout start (now + lock_sleep_ms) unlink_ok lock_file
        end
      else (false, lock_file)
  end.

(** [acquire(timeout_seconds)]: [2 + timeout / 0.5 s] iterations cover the
    loop (at most one stale unlink and one sleep per 0.5 s). *)
Definition acquire (timeout now : Z) (unlink_ok : bool) (lock_file : option Z) : bool * option Z :=
  acquire_loop (S (S (Z.to_nat (timeout / lock_sleep_ms)))) timeout now now unlink_ok lock_file.

(** [self.lock_file.exists()]. *)
Definition lock_file_exists (lock_file : option Z) : bool :=
  match lock_file with Some _ => true | None => false end.

(** ** Restore id and status file ([__init__]) *)

(** [self.restore_id]: ["restore-" + datetime.now().strftime('%Y-%m-%dT%H-%M-%SZ')],
    taken when the object is built. *)
Definition restore_id (now_local : datetime) : string :=
  "restore-" ++ pad 4 (Z.to_nat (year now_local)) ++ "-" ++ pad 2 (Z.to_nat (month now_local))
  ++ "-" ++ pad 2 (Z.to_nat (day now_local)) ++ "T" ++ pad 2 (Z.to_nat (hour now_local))
  ++ "-" ++ pad 2 (Z.to_nat (minute now_local)) ++ "-" ++ pad 2 (Z.to_nat (second now_local))
  ++ "Z".

(** [self.status_file]. *)
Definition status_file (restore_id : string) : string :=
  "restore_status_" ++ restore_id ++ ".json".

(** ** Tables named by a run *)

(** The tables a call names. *)
Definition event_tables (ev : event) : list string :=
  match ev with
  | DescribeTable t | DescribeContinuousBackups t | DeleteTable t | ScanCount t | Scan t
  | BatchDelete t _ | BatchPut t _ => [t]
  | RestoreTableToPointInTime s t => [s; t]
  | _ => []
  end.

(** A configured table, or a name starting with one followed by "-restore-". *)
Definition in_table_scope (tables : list (string * string)) (t : string) : bool :=
  existsb (fun '(_, original) =>
             String.eqb t original || String.prefix (original ++ "-restore-") t) tables.

Definition in_environment (environment t : string) : bool :=
  in_table_scope (_configure_table_names environment) t.

(** Every table named in [tr] satisfies [sc]. *)
Definition names_in (sc : string -> bool) (tr : list event) : Prop :=
  forall ev t, In ev tr -> In t (event_tables ev) -> sc t = true.

(** The separation of two table sets that keeps their scopes apart. *)
Definition scopes_apart (A B : list (string * string)) : bool :=
  forallb (fun '(_, a) => forallb (fun '(_, b) =>
     negb (String.eqb a b) && negb (String.prefix (b ++ "-restore-") a)
     && negb (String.prefix (a ++ "-restore-") b)
     && negb (String.prefix (b ++ "-restore-") (a ++ "-restore-"))
     && negb (String.prefix (a ++ "-restore-") (b ++ "-restore-"))) B) A.

(** ** Poll rounds, restore requests and item counts *)

(** [status == 'ACTIVE'] for a described table. *)
Definition table_active (r : describe_result) : bool :=
  match r with Found s => String.eqb s "ACTIVE" | _ => false end.

(** A describe error other than [ResourceNotFoundException], re-raised by
    the poll loop. *)
Definition describe_raises (r : describe_result) : bool :=
  match r with OtherError => true | _ => false end.

(** The outcome of one poll round read off the tables' answers. *)
Definition round_outcome (obs : string -> describe_result) (rts : list (string * string))
    : round_result :=
  if existsb (fun '(_, t) => describe_raises (obs t)) rts then Raised
  else if forallb (fun '(_, t) => table_active (obs t)) rts then AllActive
  else NotAllActive.

(** The [restore_table_to_point_in_time] call for one configured table. *)
Definition restore_request (rts : list (string * string)) (kt : string * string) : event :=
  let '(k, o) := kt in RestoreTableToPointInTime o (lookup_key k rts).

(** [describe_table] returned the table. *)
Definition described (r : describe_result) : bool :=
  match r with Found _ => true | _ => false end.

(** Both item counts of one table can be read. *)
Definition counts_readable (count : string -> option nat) (rts : list (string * string))
    (kt : string * string) : bool :=
  let '(k, o) := kt in
  match count o, count (lookup_key k rts) with Some _, Some _ => true | _, _ => false end.

(** ** Table contents *)

(** Item keys held by each table. *)
Definition store := string -> list nat.

Definition mem_nat (x : nat) (l : list nat) : bool := existsb (Nat.eqb x) l.

(** The requests of a batch DynamoDB carries out: those not returned in
    the response's [UnprocessedItems] ([unprocessed], which the code never
    reads or retries). *)
Definition processed (unprocessed : list nat) (ks : list nat) : list nat :=
  filter (fun x => negb (mem_nat x unprocessed)) ks.

(** DynamoDB's effect of a call on the tables' items: a [DeleteRequest]
    batch removes its processed keys, a [PutRequest] batch writes its
    processed items (a put replaces the item with the same key),
    [delete_table] drops the table. *)
Definition apply_event (unprocessed : event -> list nat) (st : store) (ev : event) : store :=
  match ev with
  | BatchDelete t ks =>
      let done_ := processed (unprocessed ev) ks in
      fun u => if String.eqb u t then filter (fun x => negb (mem_nat x done_)) (st u) else st u
  | BatchPut t items =>
      let done_ := processed (unprocessed ev) items in
      fun u => if String.eqb u t
               then (filter (fun x => negb (mem_nat x done_)) (st u) ++ done_)%list
               else st u
  | DeleteTable t => fun u => if String.eqb u t then [] else st u
  | _ => st
  end.

Definition apply_trace (unprocessed : event -> list nat) (st : store) (tr : list event) : store :=
  fold_left (apply_event unprocessed) tr st.

(** A call that changes no item except by deleting items of [t]. *)
Definition deletes_only (t : string) (ev : event) : Prop :=
  match ev with
  | BatchDelete t' _ => t' = t
  | BatchPut _ _ | DeleteTable _ => False
  | _ => True
  end.

(** A call that changes no item except by writing items into [t]. *)
Definition puts_only (t : string) (ev : event) : Prop :=
  match ev with
  | BatchPut t' _ => t' = t
  | BatchDelete _ _ | DeleteTable _ => False
  | _ => True
  end.

(** ** The older script (src/scripts/restore_dynamodb_pitr.py) *)

(** Microseconds of a datetime's wall-clock reading, its offset ignored
    (how Python subtracts two naive datetimes). *)
Definition wall_micros (dt : datetime) : Z :=
  utc_micros (mkdt (year dt) (month dt) (day dt) (hour dt) (minute dt) (second dt)
                   (microsecond dt) None).

(** The older script's [_validate_restore_point]: an aware recovery point
    is compared with [datetime.now(restore_dt.tzinfo)], a naive one with the
    naive [datetime.now()] (the machine's local wall clock). *)
Definition old_restore_age (e : env) (rp : datetime) : Z :=
  match tzinfo rp with
  | Some _ => now_utc e - utc_micros rp
  | None => wall_micros (now_local e) - wall_micros rp
  end.

Definition old_validate_restore_point (e : env) (rp : datetime) : validation :=
  let age := old_restore_age e rp in
  if max_age <? age then VTooOld
  else if age <? 0 then VFuture
  else VOk.

(** The older [_verify_item_counts]: a count that differs returns [False];
    [_count_items] logs and re-raises a [ClientError], which the method's
    [except] turns into [False]. *)
Fixpoint old_verify_item_counts (dry_run : bool) (count : string -> option nat)
    (tables restore_tables : list (string * string)) : list event * bool :=
  match tables with
  | [] => ([], true)
  | (table_key, original_table) :: rest =>
      let restore_table := lookup_key table_key restore_tables in
      if dry_run then
        let '(evs, ok) := old_verify_item_counts dry_run count rest restore_tables in
        (Log INFO ("[DRY RUN] Would verify counts for " ++ original_table) :: evs, ok)
      else
        match count original_table with
        | None => ([ScanCount original_table;
                    Log ERROR ("Failed to count items in " ++ original_table);
                    Log ERROR "Error verifying item counts"], false)
        | Some original_count =>
            match count restore_table with
            | None => ([ScanCount original_table; ScanCount restore_table;
                        Log ERROR ("Failed to count items in " ++ restore_table);
                        Log ERROR "Error verifying item counts"], false)
            | Some restore_count =>
                if Nat.eqb original_count restore_count then
                  let '(evs, ok) := old_verify_item_counts dry_run count rest restore_tables in
                  (ScanCount original_table :: ScanCount restore_table
                     :: Log INFO table_key :: evs, ok)
                else ([ScanCount original_table; ScanCount restore_table;
                       Log ERROR ("Item count mismatch for " ++ table_key)], false)
            end
        end
  end.

(** The older [_swap_data].  Its [_clear_table] opens
    [with self.dynamodb.batch_write_item() as batch:] after the first scan;
    the client method is called without its required [RequestItems] and
    raises (and its result is no context manager either), so
    [_clear_table] logs and re-raises, [_swap_table_data] returns [False]
    and [_swap_data] stops at the first table. *)
Fixpoint old_swap_data (dry_run : bool) (tables restore_tables : list (string * string))
    : list event * bool :=
  match tables with
  | [] => ([], true)
  | (table_key, original_table) :: rest =>
      if dry_run then
        let '(evs, ok) := old_swap_data dry_run rest restore_tables in
        (Log INFO ("[DRY RUN] Would swap data for " ++ original_table) :: evs, ok)
      else
        ([DescribeTable original_table; Scan original_table;
          Log ERROR ("Error clearing table " ++ original_table);
          Log ERROR "Error swapping table data";
          Log ERROR ("Failed to swap data for " ++ table_key)], false)
  end.

(** The older [_initiate_pitr_restores]: a rejected request raises a
    [ClientError] out of the loop, caught at once by the method's [except]
    (no lookup of the restore window). *)
Fixpoint old_initiate_pitr_restores (dry_run : bool) (accepted : string -> bool)
    (tables restore_tables : list (string * string)) : list event * bool :=
  match tables with
  | [] => ([], true)
  | (table_key, original_table) :: rest =>
      let restore_table := lookup_key table_key restore_tables in
      if dry_run then
        let '(evs, ok) := old_initiate_pitr_restores dry_run accepted rest restore_tables in
        (Log INFO ("[DRY RUN] Would restore " ++ original_table ++ " to " ++ restore_table)
           :: evs, ok)
      else if accepted original_table then
        let '(evs, ok) := old_initiate_pitr_restores dry_run accepted rest restore_tables in
        (RestoreTableToPointInTime original_table restore_table :: evs, ok)
      else
        ([RestoreTableToPointInTime original_table restore_table;
          Log ERROR "Failed to initiate PITR restore"], false)
  end.

(** The body of [with RestoreLock(...)] in the older [run]: the restores
    are named by [_get_restore_table_names] inside
    [_initiate_pitr_restores] ([init_names]) and again, with a new
    [datetime.now()], for polling, counting, swapping and deleting
    ([poll_names]). *)
Definition old_locked_pipeline (cfg : config) (e : env)
    (init_names poll_names : list (string * string)) : list event * bool :=
  let dry := dry_run cfg in
  let tables := tables_of cfg in
  let '(ev_init, init_ok) := old_initiate_pitr_restores dry (restore_accepted e) tables init_names in
  if negb init_ok then
    ((ev_init ++ [Status (FAILED "Failed to initiate PITR restores")])%list, false)
  else
  let '(ev_poll, poll_ok) := _poll_restore_completion dry poll_names (poll_observations e) in
  if negb poll_ok then
    ((ev_init ++ ev_poll ++ [Status (FAILED "Restore operation timed out")])%list, false)
  else
  let '(ev_count, count_ok) := old_verify_item_counts dry (item_count e) tables poll_names in
  if negb count_ok then
    ((ev_init ++ ev_poll ++ ev_count ++ [Status (FAILED "Item count mismatch")])%list, false)
  else
  let '(ev_swap, swap_ok) := old_swap_data dry tables poll_names in
  if negb swap_ok then
    ((ev_init ++ ev_poll ++ ev_count ++ ev_swap ++ [Status (FAILED "Data swap failed")])%list,
     false)
  else
  let ev_delete := _delete_restore_tables dry poll_names in
  ((ev_init ++ ev_poll ++ ev_count ++ ev_swap ++ ev_delete)%list, true).

(** The older [run]: validation first, then the lock and the pipeline;
    [clock_init] and [clock_poll] are the two [datetime.now()] readings
    that name the restore tables. *)
Definition old_run (cfg : config) (e : env) (rp : datetime) (clock_init clock_poll : datetime)
    : list event * bool :=
  let pre :=
    (Log INFO "Starting DynamoDB PITR restore"
       :: (if dry_run cfg then [Log INFO "DRY RUN MODE - No changes will be made"] else [])
       ++ [Status INITIALIZING; Validate])%list in
  if negb (validation_ok (old_validate_restore_point e rp)) then
    ((pre ++ [Log ERROR "Restore point validation failed";
              Status (FAILED "Invalid restore point")])%list, false)
  else if negb (lock_acquired e) then
    ((pre ++ [Log ERROR "Failed to acquire lock - restore already in progress";
              Status (FAILED "Could not acquire restore lock")])%list, false)
  else
    let '(ev_body, ok) :=
      old_locked_pipeline cfg e (old_get_restore_table_names (tables_of cfg) clock_init)
        (old_get_restore_table_names (tables_of cfg) clock_poll) in
    if ok then
      ((pre ++ LockAcquire :: ev_body
            ++ [LockRelease; Log INFO "Restore completed successfully"; Status COMPLETED])%list,
       true)
    else ((pre ++ LockAcquire :: ev_body ++ [LockRelease])%list, false).

(** The trace of the older [run]. *)
Definition old_run_trace (cfg : config) (e : env) (rp : datetime) (clock_init clock_poll : datetime)
    : list event :=
  fst (old_run cfg e rp clock_init clock_poll).

(** A [batch_write_item] call. *)
Definition is_item_write (ev : event) : bool :=
  match ev with BatchDelete _ _ | BatchPut _ _ => true | _ => false end.

(** Both item counts of one table can be read and are equal. *)
Definition counts_equal (count : string -> option nat) (rts : list (string * string))
    (kt : string * string) : bool :=
  let '(k, o) := kt in
  match count o, count (lookup_key k rts) with
  | Some a, Some b => Nat.eqb a b
  | _, _ => false
  end.

(** ** Sample input for the swap *)

(** Restore table rows that differ from the production rows. *)
Definition swap_env : env :=
  let e := fresh_env [] true [all_active] in
  mkenv (berlin e) (now_utc e) (now_local e) (describe e) (list_tables e)
    (lock_acquired e) (restore_accepted e) (restore_error e) (poll_observations e)
    (item_count e)
    (fun t => if String.prefix "quote-lambda-tf-quotes-dev-restore-" t then [7; 8; 9]%nat
              else [1; 2; 3]%nat) 2 (swap_budget e).

(** Item counts that differ: the quotes restore table has more items than
    its original, the user-likes one fewer, the user-views one as many. *)
Definition counts_env : env :=
  let e := fresh_env [] true [all_active] in
  mkenv (berlin e) (now_utc e) (now_local e) (describe e) (list_tables e)
    (lock_acquired e) (restore_accepted e) (restore_error e) (poll_observations e)
    (fun t => if String.prefix "quote-lambda-tf-quotes-dev-restore-" t then Some 5%nat
              else if String.prefix "quote-lambda-tf-user-likes-dev-restore-" t then Some 1%nat
              else Some 3%nat)
    (rows e) (page_size e) (swap_budget e).

(** As [swap_env], with the swap's eighth call raising: the quotes table
    has been cleared and two of its three restored items written when the
    second scan of its restore table fails. *)
Definition swap_fail_env : env :=
  let e := swap_env in
  mkenv (berlin e) (now_utc e) (now_local e) (describe e) (list_tables e)
    (lock_acquired e) (restore_accepted e) (restore_error e) (poll_observations e)
    (item_count e) (rows e) (page_size e) (Some 7%nat).

(** ** Swap computations: predicates for the proofs *)

(** Every event [m] records satisfies [P], whichever call raises. *)
Definition all_events {A} (P : event -> Prop) (m : SwapM A) : Prop :=
  forall b, Forall P (fst (fst (m b))).

(** [m] makes the calls [p] when it returns, and a prefix of them when an
    exception propagates out of it. *)
Definition refines (m : SwapM unit) (p : list event) : Prop :=
  forall b, match m b with
            | (evs, _, Some _) => evs = p
            | (evs, _, None) => exists rest, p = (evs ++ rest)%list
            end.


(** ** Restore table names: lemmas *)

Lemma string_append_assoc (a b c : string) : (a ++ b) ++ c = a ++ (b ++ c).
Proof. induction a as [|ch a IH]; simpl; [reflexivity | now rewrite IH]. Qed.

Lemma string_length_append (a b : string) :
  String.length (a ++ b) = (String.length a + String.length b)%nat.
Proof. induction a as [|ch a IH]; simpl; [reflexivity | now rewrite IH]. Qed.

Lemma string_append_inj (a1 b1 a2 b2 : string) :
  String.length a1 = String.length a2 -> a1 ++ b1 = a2 ++ b2 -> a1 = a2 /\ b1 = b2.
Proof.
  revert a2. induction a1 as [|c1 a1 IH]; intros [|c2 a2] Hlen Heq; simpl in *;
    try discriminate; [easy|].
  injection Heq as -> Heq. injection Hlen as Hlen.
  destruct (IH a2 Hlen Heq) as [-> ->]. easy.
Qed.

Lemma string_append_cancel_l (p a b : string) : p ++ a = p ++ b -> a = b.
Proof. induction p as [|c p IH]; simpl; [easy|]. intros H; injection H; auto. Qed.

Lemma pad_length (k n : nat) : String.length (pad k n) = k.
Proof.
  revert n. induction k as [|k IH]; intros n; simpl; [reflexivity|].
  rewrite string_length_append, IH. simpl. lia.
Qed.

Lemma digit_inj (n m : nat) : (n < 10)%nat -> (m < 10)%nat -> digit n = digit m -> n = m.
Proof.
  intros Hn Hm H. unfold digit in H.
  apply (f_equal nat_of_ascii) in H.
  rewrite !nat_ascii_embedding in H by lia. lia.
Qed.

Lemma pad_inj (k n m : nat) : (n < 10 ^ k)%nat -> (m < 10 ^ k)%nat -> pad k n = pad k m -> n = m.
Proof.
  revert n m. induction k as [|k IH]; intros n m Hn Hm H.
  - simpl in *. lia.
  - cbn [pad] in H.
    apply string_append_inj in H; [|now rewrite !pad_length].
    destruct H as [Hdiv Hd].
    assert (Hdig : digit (Nat.modulo n 10) = digit (Nat.modulo m 10))
      by (injection Hd; intro X; exact X).
    apply digit_inj in Hdig; try (apply Nat.mod_upper_bound; lia).
    assert (Nat.div n 10 = Nat.div m 10) as Hq.
    { apply IH; try assumption.
      - apply Nat.Div0.div_lt_upper_bound. simpl in Hn. lia.
      - apply Nat.Div0.div_lt_upper_bound. simpl in Hm. lia. }
    pose proof (Nat.div_mod_eq n 10). pose proof (Nat.div_mod_eq m 10). lia.
Qed.

Lemma pad_Z_inj (k : nat) (x y : Z) :
  0 <= x < Z.of_nat (10 ^ k) -> 0 <= y < Z.of_nat (10 ^ k) ->
  pad k (Z.to_nat x) = pad k (Z.to_nat y) -> x = y.
Proof.
  intros Hx Hy H. apply pad_inj in H; lia.
Qed.

Lemma strftime_token_inj (d1 d2 : datetime) :
  fields_in_range d1 -> fields_in_range d2 ->
  strftime_token d1 = strftime_token d2 -> wall_second d1 = wall_second d2.
Proof.
  unfold fields_in_range, strftime_token, wall_second.
  intros R1 R2 H.
  assert (E4 : Z.of_nat (10 ^ 4) = 10000) by reflexivity.
  assert (E2 : Z.of_nat (10 ^ 2) = 100) by reflexivity.
  apply string_append_inj in H as [Hy H]; [|now rewrite !pad_length].
  apply string_append_inj in H as [Hmo H]; [|now rewrite !pad_length].
  apply string_append_inj in H as [Hd H]; [|now rewrite !pad_length].
  apply string_append_inj in H as [Hh H]; [|now rewrite !pad_length].
  apply string_append_inj in H as [Hmi Hs]; [|now rewrite !pad_length].
  apply pad_Z_inj in Hy; [|lia|lia]. apply pad_Z_inj in Hmo; [|lia|lia].
  apply pad_Z_inj in Hd; [|lia|lia]. apply pad_Z_inj in Hh; [|lia|lia].
  apply pad_Z_inj in Hmi; [|lia|lia]. apply pad_Z_inj in Hs; [|lia|lia].
  now rewrite Hy, Hmo, Hd, Hh, Hmi, Hs.
Qed.

Lemma strftime_token_wall (d1 d2 : datetime) :
  wall_second d1 = wall_second d2 -> strftime_token d1 = strftime_token d2.
Proof.
  unfold wall_second, strftime_token. intros H. injection H as -> -> -> -> -> ->.
  reflexivity.
Qed.

Lemma localize_wall (b : datetime -> Z) (dt : datetime) :
  wall_second (localize b dt) = wall_second dt.
Proof. unfold localize. destruct (tzinfo dt); reflexivity. Qed.

Lemma localize_fields (b : datetime -> Z) (dt : datetime) :
  fields_in_range dt -> fields_in_range (localize b dt).
Proof. unfold localize. destruct (tzinfo dt); easy. Qed.

(** In the older script the token is the time of the call: two calls a
    second apart name different tables for the same recovery point. *)
Lemma old_restore_table_names_follow_clock :
  old_get_restore_table_names (_configure_table_names "dev") (utc_dt 2026 1 10 13 0 0)
  <> old_get_restore_table_names (_configure_table_names "dev") (utc_dt 2026 1 10 13 0 1).
Proof. vm_compute. discriminate. Qed.

(** ** Claim C1 *)

(** C1 (counterexample): two different recovery points, 2025-12-19T18:00:00Z
    and 2025-12-19T18:00:00+01:00, get the same restore table name, since the
    token is the wall-clock second of the point in its own zone. *)
Lemma restore_table_name_offset_collision :
  utc_micros (localize cet (utc_dt 2025 12 19 18 0 0))
    <> utc_micros (localize cet (mkdt 2025 12 19 18 0 0 0 (Some 3600)))
  /\ restore_table_name "quote-lambda-tf-quotes"
       (restore_point_timestamp cet (utc_dt 2025 12 19 18 0 0))
     = restore_table_name "quote-lambda-tf-quotes"
       (restore_point_timestamp cet (mkdt 2025 12 19 18 0 0 0 (Some 3600))).
Proof. split; [vm_compute; discriminate | reflexivity]. Qed.

(** C1 (amended): the restore table name of [t] for recovery point [p] is
    [t-restore-YYYYmmddHHMMSS] of [p]'s wall clock (Europe/Berlin attached
    to a naive [p]).  It does not depend on the time of the call, and two
    recovery points give the same name exactly when their wall-clock
    seconds agree. *)
Theorem restore_table_name_wall_second (t : string) (b : datetime -> Z)
    (rp1 rp2 : datetime) (R1 : fields_in_range rp1) (R2 : fields_in_range rp2) :
  (forall tables now1 now2,
      _get_restore_table_names tables (Some (restore_point_timestamp b rp1)) now1
      = _get_restore_table_names tables (Some (restore_point_timestamp b rp1)) now2)
  /\ (restore_table_name t (restore_point_timestamp b rp1)
        = restore_table_name t (restore_point_timestamp b rp2)
      <-> wall_second rp1 = wall_second rp2).
Proof.
  split; [reflexivity|].
  unfold restore_table_name, restore_point_timestamp. split.
  - intros H. rewrite <- !string_append_assoc in H.
    apply string_append_cancel_l in H.
    apply strftime_token_inj in H; try now apply localize_fields.
    now rewrite !localize_wall in H.
  - intros H. f_equal. f_equal. apply strftime_token_wall.
    now rewrite !localize_wall.
Qed.

Lemma restore_table_name_wall_second_witness :
  fields_in_range (naive_dt 2026 1 8 12 0 0) /\ fields_in_range (utc_dt 2026 1 8 12 0 0) /\
  ((forall tables now1 now2,
      _get_restore_table_names tables
        (Some (restore_point_timestamp cet (naive_dt 2026 1 8 12 0 0))) now1
      = _get_restore_table_names tables
        (Some (restore_point_timestamp cet (naive_dt 2026 1 8 12 0 0))) now2)
   /\ (restore_table_name "quote-lambda-tf-quotes"
         (restore_point_timestamp cet (naive_dt 2026 1 8 12 0 0))
       = restore_table_name "quote-lambda-tf-quotes"
         (restore_point_timestamp cet (utc_dt 2026 1 8 12 0 0))
       <-> wall_second (naive_dt 2026 1 8 12 0 0) = wall_second (utc_dt 2026 1 8 12 0 0))).
Proof.
  assert (R1 : fields_in_range (naive_dt 2026 1 8 12 0 0))
    by (unfold fields_in_range; simpl; lia).
  assert (R2 : fields_in_range (utc_dt 2026 1 8 12 0 0))
    by (unfold fields_in_range; simpl; lia).
  split; [exact R1|]. split; [exact R2|].
  exact (restore_table_name_wall_second "quote-lambda-tf-quotes" cet _ _ R1 R2).
Defined.

(** ** Traces: lemmas *)

Lemma none_of_app (p : event -> bool) (l1 l2 : list event) :
  none_of p (l1 ++ l2) = none_of p l1 && none_of p l2.
Proof. unfold none_of. apply forallb_app. Qed.

Lemma none_of_cons (p : event -> bool) (ev : event) (l : list event) :
  none_of p (ev :: l) = negb (p ev) && none_of p l.
Proof. reflexivity. Qed.

Lemma final_status_app (l1 l2 : list event) :
  final_status (l1 ++ l2) =
  match final_status l2 with Some s => Some s | None => final_status l1 end.
Proof.
  induction l1 as [|ev l1 IH]; simpl.
  - destruct (final_status l2); reflexivity.
  - destruct ev; try exact IH. rewrite IH. destruct (final_status l2); reflexivity.
Qed.

(** What happens before the validation never initiates a restore. *)
(** Compute the last status record of a trace built with [++]. *)
Ltac final_status_simpl :=
  repeat (rewrite final_status_app; simpl).

(** Split [none_of] over a trace built with [++] and [::]. *)
Ltac split_none_of :=
  repeat first [rewrite none_of_app | rewrite none_of_cons].

Lemma check_existing_no_mutation (d : string -> describe_result) (rts : list (string * string)) :
  none_of is_mutating (fst (_check_existing_restore_tables d rts)) = true.
Proof.
  induction rts as [|[k n] rts IH]; [reflexivity|]. simpl.
  destruct (_check_existing_restore_tables d rts) as [evs ex]. simpl in IH.
  destruct (d n); simpl; exact IH.
Qed.

Lemma check_restore_tables_no_initiation (cfg : config) (e : env) (rp : datetime) :
  none_of is_restore_initiation (fst (check_restore_tables cfg e rp)) = true.
Proof.
  unfold check_restore_tables.
  pose proof (check_existing_no_mutation (describe e) (restore_tables_of cfg e rp)) as H.
  destruct (_check_existing_restore_tables _ _) as [evs ex]. simpl in H.
  assert (Hevs : none_of is_restore_initiation evs = true).
  { clear ex. induction evs as [|ev evs IH]; [reflexivity|].
    simpl in *. destruct ev; simpl in *; auto; discriminate. }
  destruct ex; simpl; [|exact Hevs].
  rewrite none_of_app, Hevs. simpl.
  destruct (dry_run cfg); [reflexivity|].
  destruct (_find_old_restore_tables _ _ _) as [|n ns]; [reflexivity|].
  unfold _cleanup_existing_restore_tables. simpl.
  induction ns; simpl; auto.
Qed.

Lemma check_restore_tables_dry (cfg : config) (e : env) (rp : datetime) :
  dry_run cfg = true -> none_of is_mutating (fst (check_restore_tables cfg e rp)) = true.
Proof.
  intros Hdry. unfold check_restore_tables. rewrite Hdry.
  pose proof (check_existing_no_mutation (describe e) (restore_tables_of cfg e rp)) as H.
  destruct (_check_existing_restore_tables _ _) as [evs ex]. simpl in H.
  destruct ex; simpl; [|exact H].
  rewrite none_of_app, H. reflexivity.
Qed.

(** ** Claim C6 *)

(** C6: with [age = now - p] (UTC), a recovery point older than 35 days is
    rejected as too old, one in the future is rejected as future, one aged
    between zero and 35 days inclusive passes; a rejected point makes [run]
    record [FAILED "Invalid restore point"], return [False], and initiate no
    restore. *)
Theorem validate_restore_point_window (cfg : config) (e : env) (rp : datetime) :
  let age := restore_age (berlin e) (now_utc e) rp in
  (max_age < age -> _validate_restore_point (berlin e) (now_utc e) rp = VTooOld) /\
  (age < 0 -> _validate_restore_point (berlin e) (now_utc e) rp = VFuture) /\
  (0 <= age <= max_age -> _validate_restore_point (berlin e) (now_utc e) rp = VOk) /\
  (_validate_restore_point (berlin e) (now_utc e) rp <> VOk ->
     final_status (run_trace cfg e rp) = Some (FAILED "Invalid restore point")
     /\ snd (run cfg e rp) = false
     /\ none_of is_restore_initiation (run_trace cfg e rp) = true).
Proof.
  intros age. unfold _validate_restore_point. fold age.
  split; [|split; [|split]].
  - intros H. apply Z.ltb_lt in H. now rewrite H.
  - intros H. destruct (Z.ltb_spec max_age age); [unfold max_age in *; lia|].
    apply Z.ltb_lt in H. now rewrite H.
  - intros H. destruct (Z.ltb_spec max_age age); [lia|].
    destruct (Z.ltb_spec age 0); [lia|reflexivity].
  - intros Hv. unfold run_trace, run.
    pose proof (check_restore_tables_no_initiation cfg e rp) as Hc.
    destruct (check_restore_tables cfg e rp) as [ev_check skip]. simpl in Hc.
    unfold _validate_restore_point. fold age.
    assert (Hb : validation_ok
                   (if max_age <? age then VTooOld else if age <? 0 then VFuture else VOk)
                 = false).
    { destruct (max_age <? age); [reflexivity|]. destruct (age <? 0); [reflexivity|].
      exfalso. apply Hv. unfold _validate_restore_point. fold age.
      destruct (Z.ltb_spec max_age age), (Z.ltb_spec age 0); auto; lia. }
    rewrite Hb. simpl. split; [|split; [reflexivity|]].
    + rewrite final_status_app. reflexivity.
    + rewrite !none_of_app, Hc. destruct (dry_run cfg); reflexivity.
Qed.

(** ** The swap monad: lemmas *)

Lemma batches_from_spec {A} (fuel : nat) (l : list A) :
  (length l <= fuel)%nat ->
  Forall (fun b => 1 <= length b <= 25)%nat (batches_from fuel l) /\
  concat (batches_from fuel l) = l.
Proof.
  revert l. induction fuel as [|fuel IH]; intros l Hl.
  - destruct l; [split; constructor|simpl in Hl; lia].
  - destruct l as [|x l']; [split; constructor|].
    cbn [batches_from].
    destruct (IH (skipn batch_size (x :: l'))) as [Hf Hc].
    { rewrite length_skipn. simpl in *. lia. }
    split.
    + constructor; [|exact Hf].
      rewrite length_firstn. cbn [length]. unfold batch_size. lia.
    + cbn [concat]. rewrite Hc. apply firstn_skipn.
Qed.

Lemma batches_spec {A} (l : list A) :
  Forall (fun b => 1 <= length b <= 25)%nat (batches l) /\ concat (batches l) = l.
Proof. apply batches_from_spec. lia. Qed.

Lemma all_sret {A} (P : event -> Prop) (a : A) : all_events P (sret a).
Proof. intros b. constructor. Qed.

Lemma all_sbind {A B} (P : event -> Prop) (m : SwapM A) (f : A -> SwapM B) :
  all_events P m -> (forall a, all_events P (f a)) -> all_events P (sbind m f).
Proof.
  intros Hm Hf b. unfold sbind. specialize (Hm b).
  destruct (m b) as [[evs b1] [a|]]; cbn [fst] in *; [|exact Hm].
  specialize (Hf a b1). destruct (f a b1) as [[evs2 b2] r]. cbn [fst] in *.
  apply Forall_app. split; assumption.
Qed.

Lemma all_scall (P : event -> Prop) (ev : event) : P ev -> all_events P (scall ev).
Proof. intros H b. destruct b as [[|n]|]; cbn; constructor; [exact H|constructor|exact H|constructor|exact H|constructor]. Qed.

Lemma all_slog (P : event -> Prop) (l : level) (m : string) :
  P (Log l m) -> all_events P (slog l m).
Proof. intros H b. constructor; [exact H|constructor]. Qed.

Lemma all_sraise {A} (P : event -> Prop) : all_events P (@sraise A).
Proof. intros b. constructor. Qed.

Lemma all_stry {A} (P : event -> Prop) (m h : SwapM A) :
  all_events P m -> all_events P h -> all_events P (stry m h).
Proof.
  intros Hm Hh b. unfold stry. specialize (Hm b).
  destruct (m b) as [[evs b1] [a|]]; cbn [fst] in *; [exact Hm|].
  specialize (Hh b1). destruct (h b1) as [[evs2 b2] r]. cbn [fst] in *.
  apply Forall_app. split; assumption.
Qed.

Lemma all_batch_writes (P : event -> Prop) (mk : list nat -> event) (bs : list (list nat)) :
  (forall ks, In ks bs -> P (mk ks)) -> all_events P (batch_writes mk bs).
Proof.
  induction bs as [|ks bs IH]; intros H; cbn [batch_writes]; [apply all_sret|].
  apply all_sbind; [apply all_scall, H; left; reflexivity|intros _].
  apply IH. intros ks' Hin. apply H. right. exact Hin.
Qed.

Lemma all_scan_loop (P : event -> Prop) (fuel : nat) (t : string) (table_rows : list nat)
    (pg start : nat) (on_page : list nat -> SwapM unit) :
  P (Scan t) -> (forall items, all_events P (on_page items)) ->
  all_events P (scan_loop fuel t table_rows pg start on_page).
Proof.
  intros Hs Hp. revert start. induction fuel as [|fuel IH]; intros start; [apply all_sret|].
  cbn [scan_loop]. destruct (scan_page table_rows pg start) as [items last].
  apply all_sbind; [apply all_scall, Hs|intros _].
  apply all_sbind; [apply Hp|intros _].
  destruct last; [apply IH|apply all_sret].
Qed.

(** Whatever call raises, every event of the swap is a log line or one of
    its calls on a configured table or its restore table, with batches of
    1 to 25 requests. *)
Lemma all_swap_data (P : event -> Prop) (dry : bool) (e : env) (tables rts : list (string * string)) :
  (forall l m, P (Log l m)) ->
  (forall k o, In (k, o) tables ->
     P (DescribeTable o) /\ P (Scan o) /\ P (Scan (lookup_key k rts)) /\
     (forall ks, (1 <= length ks <= 25)%nat -> P (BatchDelete o ks) /\ P (BatchPut o ks))) ->
  all_events P (_swap_data dry e tables rts).
Proof.
  intros Hl Ht. unfold _swap_data.
  apply all_stry; [|apply all_sbind; [apply all_slog, Hl|intros _; apply all_sret]].
  induction tables as [|[k o] rest IH]; cbn [swap_tables]; [apply all_sret|].
  destruct (Ht k o (or_introl eq_refl)) as [Hd [Hs [Hs' Hb]]].
  assert (IH' : all_events P (swap_tables dry e rest rts))
    by (apply IH; intros k' o' Hin; apply Ht; right; exact Hin).
  assert (Hbs : forall (items ks : list nat), In ks (batches items) -> (1 <= length ks <= 25)%nat).
  { intros items ks Hin. destruct (batches_spec items) as [Hf _].
    rewrite Forall_forall in Hf. exact (Hf ks Hin). }
  destruct dry.
  - apply all_sbind; [apply all_slog, Hl|intros _; exact IH'].
  - apply all_sbind.
    + unfold _swap_table_data.
      apply all_stry; [|apply all_sbind; [apply all_slog, Hl|intros _; apply all_sret]].
      apply all_sbind; [|intros _; apply all_sbind; [|intros _; apply all_sret]].
      * unfold _clear_table.
        apply all_stry; [|apply all_sbind; [apply all_slog, Hl|intros _; apply all_sraise]].
        apply all_sbind; [apply all_scall, Hd|intros _].
        apply all_scan_loop; [exact Hs|]. intros items. apply all_batch_writes.
        intros ks Hin. exact (proj1 (Hb ks (Hbs items ks Hin))).
      * unfold _copy_table_data.
        apply all_stry; [|apply all_sbind; [apply all_slog, Hl|intros _; apply all_sraise]].
        apply all_scan_loop; [exact Hs'|]. intros items. apply all_batch_writes.
        intros ks Hin. exact (proj2 (Hb ks (Hbs items ks Hin))).
    + intros [|]; [exact IH'|]. apply all_sbind; [apply all_slog, Hl|intros _; apply all_sret].
Qed.

Lemma refines_sret : refines (sret tt) [].
Proof. intros b. reflexivity. Qed.

Lemma refines_scall (ev : event) : refines (scall ev) [ev].
Proof. intros [[|n]|]; cbn; [exists []; reflexivity|reflexivity|reflexivity]. Qed.

Lemma refines_seq (m k : SwapM unit) (p q : list event) :
  refines m p -> refines k q -> refines (sbind m (fun _ => k)) (p ++ q).
Proof.
  intros Hm Hk b. unfold sbind. specialize (Hm b).
  destruct (m b) as [[evs b1] [u|]].
  - subst evs. specialize (Hk b1). destruct (k b1) as [[evs2 b2] [u2|]].
    + subst evs2. reflexivity.
    + destruct Hk as [rest ->]. exists rest. apply app_assoc.
  - destruct Hm as [rest ->]. exists (rest ++ q)%list. rewrite app_assoc. reflexivity.
Qed.

Lemma refines_batch_writes (mk : list nat -> event) (bs : list (list nat)) :
  refines (batch_writes mk bs) (map mk bs).
Proof.
  induction bs as [|ks bs IH]; [apply refines_sret|]. cbn [batch_writes map].
  change (mk ks :: map mk bs) with ([mk ks] ++ map mk bs)%list.
  apply refines_seq; [apply refines_scall|exact IH].
Qed.

Lemma refines_scan_loop (fuel : nat) (t : string) (table_rows : list nat) (pg start : nat)
    (on_page : list nat -> SwapM unit) (calls : list nat -> list event) :
  (forall items, refines (on_page items) (calls items)) ->
  refines (scan_loop fuel t table_rows pg start on_page) (scan_calls fuel t table_rows pg start calls).
Proof.
  intros Hp. revert start. induction fuel as [|fuel IH]; intros start; [apply refines_sret|].
  cbn [scan_loop scan_calls]. destruct (scan_page table_rows pg start) as [items last].
  change (Scan t :: ?r) with ([Scan t] ++ r)%list.
  apply refines_seq; [apply refines_scall|]. apply refines_seq; [apply Hp|].
  destruct last; [apply IH|apply refines_sret].
Qed.

(** [_clear_table] makes the calls of a full clear when it returns; when a
    call raises, it has made a prefix of them and logs the error. *)
Lemma clear_table_result (t : string) (table_rows : list nat) (pg : nat) (b : option nat) :
  match _clear_table t table_rows pg b with
  | (evs, _, Some _) => evs = clear_table_calls t table_rows pg
  | (evs, _, None) =>
      exists evs0 rest, clear_table_calls t table_rows pg = (evs0 ++ rest)%list /\
        evs = (evs0 ++ [Log ERROR ("Error clearing table " ++ t)])%list
  end.
Proof.
  assert (H : refines
    (scall (DescribeTable t);;
     scan_loop (scan_fuel table_rows) t table_rows pg 0
       (fun items => batch_writes (BatchDelete t) (batches items)))
    (clear_table_calls t table_rows pg)).
  { unfold clear_table_calls. change (DescribeTable t :: ?r) with ([DescribeTable t] ++ r)%list.
    apply refines_seq; [apply refines_scall|].
    apply refines_scan_loop. intros items. apply refines_batch_writes. }
  specialize (H b). unfold _clear_table, stry.
  destruct (sbind _ _ b) as [[evs b1] [u|]]; [exact H|].
  destruct H as [rest Hr]. exists evs, rest. split; [exact Hr|reflexivity].
Qed.

Lemma copy_table_result (src tgt : string) (table_rows : list nat) (pg : nat) (b : option nat) :
  match _copy_table_data src tgt table_rows pg b with
  | (evs, _, Some _) => evs = copy_table_calls src tgt table_rows pg
  | (evs, _, None) =>
      exists evs0 rest, copy_table_calls src tgt table_rows pg = (evs0 ++ rest)%list /\
        evs = (evs0 ++ [Log ERROR "Error copying table data"])%list
  end.
Proof.
  assert (H : refines
    (scan_loop (scan_fuel table_rows) src table_rows pg 0
       (fun items => batch_writes (BatchPut tgt) (batches items)))
    (copy_table_calls src tgt table_rows pg)).
  { unfold copy_table_calls. apply refines_scan_loop. intros items. apply refines_batch_writes. }
  specialize (H b). unfold _copy_table_data, stry.
  destruct (scan_loop _ _ _ _ _ _ b) as [[evs b1] [u|]]; [exact H|].
  destruct H as [rest Hr]. exists evs, rest. split; [exact Hr|reflexivity].
Qed.

(** A table's swap that returns [True] made exactly the calls of a full
    clear and a full copy. *)
Lemma swap_table_result (e : env) (o r : string) (b : option nat) :
  snd (_swap_table_data e o r b) = Some true ->
  fst (fst (_swap_table_data e o r b)) = swap_table_calls e o r.
Proof.
  unfold _swap_table_data, stry, sbind.
  pose proof (clear_table_result o (rows e o) (page_size e) b) as Hc.
  destruct (_clear_table o (rows e o) (page_size e) b) as [[evs1 b1] [u|]];
    [|cbn; discriminate].
  pose proof (copy_table_result r o (rows e r) (page_size e) b1) as Hp.
  destruct (_copy_table_data r o (rows e r) (page_size e) b1) as [[evs2 b2] [u2|]];
    [|cbn; discriminate].
  intros _. cbn. subst evs1 evs2. unfold swap_table_calls. rewrite ?app_nil_r. reflexivity.
Qed.

(** A swap that returns [True] made exactly the calls of a full swap of
    every table. *)
Lemma swap_data_result (e : env) (tables rts : list (string * string)) (b : option nat) :
  snd (_swap_data false e tables rts b) = Some true ->
  fst (fst (_swap_data false e tables rts b)) = swap_calls e tables rts.
Proof.
  assert (Hl : forall b, snd (swap_tables false e tables rts b) = Some true ->
                 fst (fst (swap_tables false e tables rts b)) = swap_calls e tables rts).
  { induction tables as [|[k o] rest IH]; intros b0; [reflexivity|].
    cbn [swap_tables swap_calls]. unfold sbind.
    pose proof (swap_table_result e o (lookup_key k rts) b0) as Ht.
    destruct (_swap_table_data e o (lookup_key k rts) b0) as [[evs1 b1] [[|]|]];
      cbn [fst snd] in *; [|cbn; discriminate|discriminate].
    specialize (IH b1).
    destruct (swap_tables false e rest rts b1) as [[evs2 b2] r]. cbn [fst snd] in *.
    intros Hr. rewrite (Ht eq_refl), (IH Hr). reflexivity. }
  unfold _swap_data, stry. specialize (Hl b).
  destruct (swap_tables false e tables rts b) as [[evs b1] [ok|]]; [exact Hl|cbn; discriminate].
Qed.

(** [_swap_data] always returns a boolean: every exception is caught. *)
Lemma swap_data_returns (dry : bool) (e : env) (tables rts : list (string * string)) (b : option nat) :
  snd (_swap_data dry e tables rts b) <> None.
Proof.
  unfold _swap_data, stry.
  destruct (swap_tables dry e tables rts b) as [[evs b1] [ok|]]; cbn; discriminate.
Qed.

(** A dry swap calls nothing and returns [True]. *)
Lemma swap_dry (e : env) (tables rts : list (string * string)) (b : option nat) :
  snd (_swap_data true e tables rts b) = Some true /\
  none_of is_mutating (fst (fst (_swap_data true e tables rts b))) = true.
Proof.
  assert (Hl : forall b, snd (swap_tables true e tables rts b) = Some true /\
                 none_of is_mutating (fst (fst (swap_tables true e tables rts b))) = true).
  { induction tables as [|[k o] rest IH]; intros b0; [split; reflexivity|].
    cbn [swap_tables]. unfold sbind, slog. specialize (IH b0).
    destruct (swap_tables true e rest rts b0) as [[evs b1] r]. exact IH. }
  unfold _swap_data, stry. specialize (Hl b).
  destruct (swap_tables true e tables rts b) as [[evs b1] [ok|]]; [exact Hl|].
  destruct Hl as [Hl _]. discriminate.
Qed.

(** ** Dry run: lemmas *)

Lemma initiate_dry (acc : string -> bool) (fail : string -> restore_failure)
    (tables rts : list (string * string)) :
  snd (_initiate_pitr_restores true acc fail tables rts) = true /\
  none_of is_mutating (fst (_initiate_pitr_restores true acc fail tables rts)) = true.
Proof.
  induction tables as [|[k o] tables IH]; [split; reflexivity|]. simpl.
  destruct (_initiate_pitr_restores true acc fail tables rts) as [evs ok]. exact IH.
Qed.

Lemma poll_dry (rts : list (string * string)) (obs : list (string -> describe_result)) :
  _poll_restore_completion true rts obs =
  match obs with
  | [] => ([Log ERROR "Restore operation timed out"], false)
  | _ :: _ => ([Log INFO "All restore tables are ACTIVE"], true)
  end.
Proof. destruct obs; reflexivity. Qed.

Lemma verify_dry (count : string -> option nat) (tables rts : list (string * string)) :
  snd (_verify_item_counts true count tables rts) = true /\
  none_of is_mutating (fst (_verify_item_counts true count tables rts)) = true.
Proof.
  induction tables as [|[k o] tables IH]; [split; reflexivity|]. simpl.
  destruct (_verify_item_counts true count tables rts) as [evs ok]. exact IH.
Qed.

Lemma delete_dry (rts : list (string * string)) :
  none_of is_mutating (_delete_restore_tables true rts) = true.
Proof. induction rts as [|[k o] rts IH]; [reflexivity|]. exact IH. Qed.

Lemma locked_pipeline_dry (cfg : config) (e : env) (rp : datetime) (skip : bool) :
  dry_run cfg = true ->
  none_of is_mutating (fst (locked_pipeline cfg e rp skip)) = true /\
  (snd (locked_pipeline cfg e rp skip) = true <-> poll_observations e <> []) /\
  (snd (locked_pipeline cfg e rp skip) = false ->
     final_status (fst (locked_pipeline cfg e rp skip))
     = Some (FAILED "Restore operation timed out")).
Proof.
  intros Hdry. unfold locked_pipeline. rewrite Hdry.
  assert (Hi : exists ev_init, (if skip then ([], true)
            else _initiate_pitr_restores true (restore_accepted e) (restore_error e) (tables_of cfg)
                   (restore_tables_of cfg e rp)) = (ev_init, true)
            /\ none_of is_mutating ev_init = true).
  { destruct skip; [exists []; split; reflexivity|].
    destruct (initiate_dry (restore_accepted e) (restore_error e) (tables_of cfg)
                (restore_tables_of cfg e rp)) as [Hok Hm].
    destruct (_initiate_pitr_restores _ _ _ _ _) as [evs ok]. simpl in *. subst ok.
    exists evs. split; [reflexivity|exact Hm]. }
  destruct Hi as [ev_init [-> Hm]]. cbv beta iota zeta delta [negb].
  rewrite poll_dry.
  destruct (verify_dry (item_count e) (tables_of cfg) (restore_tables_of cfg e rp)) as [Hok Hv].
  destruct (_verify_item_counts _ _ _ _) as [ev_count ok]. simpl in Hok, Hv. subst ok.
  destruct (swap_dry e (tables_of cfg) (restore_tables_of cfg e rp) (swap_budget e)) as [Hsok Hsm].
  destruct (_swap_data true _ _ _ _) as [[ev_swap b1] sw]. simpl in Hsok, Hsm. subst sw.
  destruct (poll_observations e) as [|o os]; cbv beta iota zeta delta [negb fst snd returned_true].
  - split; [|split].
    + rewrite !none_of_app, Hm. reflexivity.
    + split; [discriminate|]. intros H; exfalso; apply H; reflexivity.
    + intros _. rewrite !final_status_app. reflexivity.
  - split; [|split].
    + rewrite !none_of_app, Hm, Hv, Hsm, delete_dry. reflexivity.
    + split; [discriminate|reflexivity].
    + discriminate.
Qed.

(** ** Claim C9 *)

(** C9 (counterexample): a dry run for a recovery point 40 days old
    (2025-12-01 against 2026-01-10) ends [FAILED], not [COMPLETED]. *)
Lemma dry_run_invalid_point_fails :
  dry_run dev_dry_config = true /\
  final_status (run_trace dev_dry_config (fresh_env [] true [all_active])
                  (naive_dt 2025 12 1 12 0 0))
  = Some (FAILED "Invalid restore point").
Proof. split; vm_compute; reflexivity. Qed.

(** C9 (amended): in dry-run mode no mutating call is issued (no restore
    initiation, table deletion, item write or delete), an [INITIALIZING]
    status record and the dry-run log line are written, and the run ends
    [COMPLETED] (returning [True]) exactly when the recovery point is valid,
    the lock is acquired and at least one poll round fits in the timeout;
    otherwise it ends [FAILED]. *)
Theorem dry_run_no_mutation (cfg : config) (e : env) (rp : datetime)
    (Hdry : dry_run cfg = true) :
  none_of is_mutating (run_trace cfg e rp) = true /\
  In (Status INITIALIZING) (run_trace cfg e rp) /\
  In (Log INFO "DRY RUN MODE - No changes will be made") (run_trace cfg e rp) /\
  (final_status (run_trace cfg e rp) = Some COMPLETED
   <-> validated_and_locked e rp = true /\ poll_observations e <> []) /\
  (snd (run cfg e rp) = true
   <-> validated_and_locked e rp = true /\ poll_observations e <> []) /\
  (snd (run cfg e rp) = false -> exists reason, final_status (run_trace cfg e rp) = Some (FAILED reason)).
Proof.
  unfold run_trace, run, validated_and_locked. rewrite Hdry.
  pose proof (check_restore_tables_dry cfg e rp Hdry) as Hc.
  destruct (check_restore_tables cfg e rp) as [ev_check skip]. simpl in Hc.
  assert (Hstart : forall tail,
     In (Status INITIALIZING)
       ([Log INFO "Starting DynamoDB PITR restore";
         Log INFO "DRY RUN MODE - No changes will be made"; Status INITIALIZING]
        ++ ev_check ++ tail)%list /\
     In (Log INFO "DRY RUN MODE - No changes will be made")
       ([Log INFO "Starting DynamoDB PITR restore";
         Log INFO "DRY RUN MODE - No changes will be made"; Status INITIALIZING]
        ++ ev_check ++ tail)%list).
  { intros tail. split; simpl; auto. }
  destruct (validation_ok _) eqn:Hv; cbv beta iota delta [negb andb fst snd].
  - destruct (lock_acquired e) eqn:Hl; cbv beta iota delta [fst snd].
    + destruct (locked_pipeline_dry cfg e rp skip Hdry) as [Hm [Hok Hfail]].
      destruct (locked_pipeline cfg e rp skip) as [ev_body ok]. simpl in Hm, Hok, Hfail.
      destruct ok.
      * assert (Hp : poll_observations e <> []) by (apply Hok; reflexivity).
        split; [|split; [|split; [|split]]].
        -- split_none_of. rewrite Hc, Hm. reflexivity.
        -- rewrite <- !app_assoc. apply Hstart.
        -- rewrite <- !app_assoc. apply Hstart.
        -- final_status_simpl. tauto.
        -- split; [tauto|discriminate].
      * assert (Hp : ~ poll_observations e <> []) by (rewrite <- Hok; discriminate).
        split; [|split; [|split; [|split]]].
        -- split_none_of. rewrite Hc, Hm. reflexivity.
        -- rewrite <- !app_assoc. apply Hstart.
        -- rewrite <- !app_assoc. apply Hstart.
        -- final_status_simpl. rewrite Hfail by reflexivity. split; [discriminate|tauto].
        -- split; [split; [discriminate|tauto]|].
           intros _. exists "Restore operation timed out".
           final_status_simpl. rewrite Hfail by reflexivity. reflexivity.
    + split; [|split; [|split; [|split]]].
      * rewrite !none_of_app, Hc. reflexivity.
      * rewrite <- !app_assoc. apply Hstart.
      * rewrite <- !app_assoc. apply Hstart.
      * final_status_simpl. split; [discriminate|intros [H _]; discriminate].
      * split; [split; [discriminate|intros [H _]; discriminate]|].
        intros _. eexists. final_status_simpl. reflexivity.
  - split; [|split; [|split; [|split]]].
    + rewrite !none_of_app, Hc. reflexivity.
    + rewrite <- !app_assoc. apply Hstart.
    + rewrite <- !app_assoc. apply Hstart.
    + final_status_simpl. split; [discriminate|intros [H _]; discriminate].
    + split; [split; [discriminate|intros [H _]; discriminate]|].
      intros _. eexists. final_status_simpl. reflexivity.
Qed.

Lemma dry_run_no_mutation_witness :
  dry_run dev_dry_config = true /\
  none_of is_mutating
    (run_trace dev_dry_config (fresh_env [] true [all_active]) (naive_dt 2026 1 8 12 0 0)) = true.
Proof.
  split; [reflexivity|].
  exact (proj1 (dry_run_no_mutation dev_dry_config (fresh_env [] true [all_active])
                  (naive_dt 2026 1 8 12 0 0) eq_refl)).
Defined.

(** ** Shape of the traces of each step *)

Lemma none_of_spec (p : event -> bool) (l : list event) :
  none_of p l = true <-> (forall ev, In ev l -> p ev = false).
Proof.
  unfold none_of. rewrite forallb_forall. split; intros H ev Hin; specialize (H ev Hin);
    destruct (p ev); simpl in *; congruence.
Qed.

Definition is_log_or_describe (ev : event) : Prop :=
  (exists l m, ev = Log l m) \/ (exists t, ev = DescribeTable t).

Lemma check_existing_shape (d : string -> describe_result) (rts : list (string * string)) ev :
  In ev (fst (_check_existing_restore_tables d rts)) -> is_log_or_describe ev.
Proof.
  unfold is_log_or_describe.
  induction rts as [|[k n] rts IH]; simpl; [tauto|].
  destruct (_check_existing_restore_tables d rts) as [evs ex]. simpl in IH.
  destruct (d n); simpl; intros [H|H]; subst; eauto;
    destruct H as [H|H]; subst; eauto.
Qed.

Lemma check_restore_tables_shape (cfg : config) (e : env) (rp : datetime) ev :
  In ev (fst (check_restore_tables cfg e rp)) ->
  is_log_or_describe ev \/ ev = ListTables \/
  exists n, ev = DeleteTable n /\
    In n (_find_old_restore_tables (tables_of cfg)
            (map snd (restore_tables_of cfg e rp)) (list_tables e)).
Proof.
  unfold check_restore_tables.
  set (old := _find_old_restore_tables (tables_of cfg)
                (map snd (restore_tables_of cfg e rp)) (list_tables e)).
  pose proof (check_existing_shape (describe e) (restore_tables_of cfg e rp)) as Hs.
  destruct (_check_existing_restore_tables _ _) as [evs ex]. cbn [fst] in Hs.
  destruct ex; cbn [fst]; [|intros H; left; now apply Hs].
  intros H. apply in_app_iff in H as [H|[H|H]]; [left; now apply Hs|now right; left|].
  right; right. destruct (dry_run cfg); [contradiction|].
  assert (Hc : In ev (_cleanup_existing_restore_tables old)) by (destruct old; easy).
  unfold _cleanup_existing_restore_tables in Hc. apply in_map_iff in Hc.
  destruct Hc as [x [<- Hx]]. exists x. split; [reflexivity|exact Hx].
Qed.

Lemma window_diagnostics_shape (o : string) (f : restore_failure) ev :
  In ev (window_diagnostics o f) ->
  (exists l m, ev = Log l m) \/ ev = DescribeTable o \/ ev = DescribeContinuousBackups o.
Proof.
  destruct f as [lk|]; [destruct lk|]; simpl; intros H;
    repeat (destruct H as [H|H]; [subst; eauto|]); contradiction.
Qed.

Lemma initiate_shape (dry : bool) (acc : string -> bool) (fail : string -> restore_failure)
    (tables rts : list (string * string)) ev :
  In ev (fst (_initiate_pitr_restores dry acc fail tables rts)) ->
  (exists l m, ev = Log l m) \/ (exists s t, ev = RestoreTableToPointInTime s t) \/
  (exists t, ev = DescribeTable t) \/ (exists t, ev = DescribeContinuousBackups t).
Proof.
  induction tables as [|[k o] tables IH]; simpl; [tauto|].
  destruct (_initiate_pitr_restores dry acc fail tables rts) as [evs ok]. simpl in IH.
  destruct dry; [|destruct (acc o)]; simpl; intros H;
    [destruct H as [H|H]; [subst; eauto|auto]
    |destruct H as [H|H]; [subst; eauto|auto]|].
  destruct H as [H|H]; [subst; eauto|].
  apply in_app_iff in H as [H|[H|H]]; [|subst; eauto|contradiction].
  destruct (window_diagnostics_shape o (fail o) ev H) as [Hl|[Hd|Hd]]; subst; eauto.
Qed.

Lemma poll_round_shape (obs : string -> describe_result) (rts : list (string * string)) ev :
  In ev (fst (poll_round obs rts)) -> exists t, ev = DescribeTable t.
Proof.
  induction rts as [|[k n] rts IH]; simpl; [tauto|].
  destruct (poll_round obs rts) as [evs res]. simpl in IH.
  destruct (obs n); simpl; intros [H|H]; subst; eauto; contradiction.
Qed.

Lemma poll_shape (dry : bool) (rts : list (string * string)) (rounds : list (string -> describe_result)) ev :
  In ev (fst (_poll_restore_completion dry rts rounds)) -> is_log_or_describe ev.
Proof.
  unfold is_log_or_describe.
  induction rounds as [|obs rounds IH]; simpl.
  - intros [H|H]; [subst; eauto|contradiction].
  - destruct dry; [simpl; intros [H|H]; [subst; eauto|contradiction]|].
    pose proof (poll_round_shape obs rts) as Hr.
    destruct (poll_round obs rts) as [evs res]. cbn [fst] in Hr.
    destruct (_poll_restore_completion false rts rounds) as [evs' ok]. cbn [fst] in IH.
    destruct res; cbn [fst]; intros H; apply in_app_iff in H as [H|H];
      try (destruct (Hr ev H); subst; eauto);
      try (destruct H as [H|H]; [subst; eauto|contradiction]); auto.
Qed.

Lemma verify_shape (dry : bool) (count : string -> option nat) (tables rts : list (string * string)) ev :
  In ev (fst (_verify_item_counts dry count tables rts)) ->
  (exists l m, ev = Log l m) \/ (exists t, ev = ScanCount t).
Proof.
  induction tables as [|[k o] tables IH]; simpl; [tauto|].
  destruct dry.
  - destruct (_verify_item_counts true count tables rts) as [evs ok]. simpl in *.
    intros [H|H]; subst; eauto.
  - destruct (count o); [|simpl; intros H; repeat (destruct H as [H|H]; [subst; eauto|]); contradiction].
    destruct (count (lookup_key k rts));
      [|simpl; intros H; repeat (destruct H as [H|H]; [subst; eauto|]); contradiction].
    destruct (classify_counts n n0) as [lvl msg].
    destruct (_verify_item_counts false count tables rts) as [evs ok]. simpl in *.
    intros H; repeat (destruct H as [H|H]; [subst; eauto|]); eauto.
Qed.

Definition is_swap_event (ev : event) : Prop :=
  (exists l m, ev = Log l m) \/ (exists t, ev = DescribeTable t) \/ (exists t, ev = Scan t) \/
  (exists t ks, ev = BatchDelete t ks) \/ (exists t ks, ev = BatchPut t ks).

Lemma swap_shape (dry : bool) (e : env) (tables rts : list (string * string)) (b : option nat) ev :
  In ev (fst (fst (_swap_data dry e tables rts b))) -> is_swap_event ev.
Proof.
  intros H.
  refine (proj1 (Forall_forall _ _) (all_swap_data is_swap_event dry e tables rts _ _ b) ev H).
  - intros l m. left. eauto.
  - intros k o _. unfold is_swap_event. split; [eauto|]. split; [eauto|]. split; [eauto|].
    intros ks _. split; eauto 10.
Qed.

Lemma delete_shape (dry : bool) (rts : list (string * string)) ev :
  In ev (_delete_restore_tables dry rts) ->
  (exists l m, ev = Log l m) \/ (exists t, ev = DeleteTable t /\ In t (map snd rts)).
Proof.
  induction rts as [|[k n] rts IH]; simpl; [tauto|].
  intros [H|H]; [|destruct (IH H) as [?|[t [? ?]]]; eauto].
  destruct dry; subst; eauto.
Qed.

(** Every event of the locked part of the run comes from one of its steps. *)
Lemma locked_pipeline_shape (cfg : config) (e : env) (rp : datetime) (skip : bool) ev :
  In ev (fst (locked_pipeline cfg e rp skip)) ->
  (exists s, ev = Status s /\
     (s = FAILED "Failed to initiate PITR restores" \/
      s = FAILED "Restore operation timed out" \/
      (s = FAILED "Item count mismatch" /\
       snd (_verify_item_counts (dry_run cfg) (item_count e) (tables_of cfg)
              (restore_tables_of cfg e rp)) = false) \/
      s = FAILED "Data swap failed")) \/
  In ev (fst (_initiate_pitr_restores (dry_run cfg) (restore_accepted e) (restore_error e)
                (tables_of cfg) (restore_tables_of cfg e rp))) \/
  In ev (fst (_poll_restore_completion (dry_run cfg) (restore_tables_of cfg e rp)
                (poll_observations e))) \/
  In ev (fst (_verify_item_counts (dry_run cfg) (item_count e) (tables_of cfg)
                (restore_tables_of cfg e rp))) \/
  In ev (fst (fst (_swap_data (dry_run cfg) e (tables_of cfg) (restore_tables_of cfg e rp)
                     (swap_budget e)))) \/
  In ev (_delete_restore_tables (dry_run cfg) (restore_tables_of cfg e rp)).
Proof.
  unfold locked_pipeline.
  set (I := _initiate_pitr_restores _ _ _ _ _).
  set (P := _poll_restore_completion _ _ _).
  set (V := _verify_item_counts _ _ _ _).
  set (W := _swap_data _ _ _ _ _). set (D := _delete_restore_tables _ _).
  assert (HI : forall evs ok,
             (if skip then ([], true) else I) = (evs, ok) -> In ev evs -> In ev (fst I)).
  { intros evs ok Heq Hin. destruct skip; [injection Heq as <- _; contradiction|].
    now rewrite Heq. }
  destruct (if skip then ([], true) else I) as [ev_init ok_init] eqn:Hi.
  specialize (HI _ _ eq_refl).
  destruct P as [ev_poll ok_poll] eqn:Hp. destruct V as [ev_count ok_count] eqn:Hv.
  destruct W as [[ev_swap b1] sw] eqn:Hw. cbn [fst].
  destruct ok_init; cbn [negb fst];
    [| intros H; apply in_app_iff in H as [H|[H|H]];
       [right; left; auto|left; subst; eexists; split; [reflexivity|left; reflexivity]
       |contradiction]].
  destruct ok_poll; cbn [negb fst];
    [| intros H; apply in_app_iff in H as [H|H]; [right; left; auto|];
       apply in_app_iff in H as [H|[H|H]];
       [right; right; left; auto
       |left; subst; eexists; split; [reflexivity|right; left; reflexivity]
       |contradiction]].
  destruct ok_count; cbn [negb fst].
  - destruct (negb (returned_true sw)); cbn [fst]; intros H.
    + apply in_app_iff in H as [H|H]; [right; left; auto|].
      apply in_app_iff in H as [H|H]; [right; right; left; auto|].
      apply in_app_iff in H as [H|H]; [right; right; right; left; auto|].
      apply in_app_iff in H as [H|[H|H]];
        [right; right; right; right; left; auto
        |left; subst; eexists; split; [reflexivity|right; right; right; reflexivity]
        |contradiction].
    + apply in_app_iff in H as [H|H]; [right; left; auto|].
      apply in_app_iff in H as [H|H]; [right; right; left; auto|].
      apply in_app_iff in H as [H|H]; [right; right; right; left; auto|].
      apply in_app_iff in H as [H|H]; [right; right; right; right; left; auto|].
      right; right; right; right; right; exact H.
  - intros H. apply in_app_iff in H as [H|H]; [right; left; auto|].
    apply in_app_iff in H as [H|H]; [right; right; left; auto|].
    apply in_app_iff in H as [H|[H|H]];
      [right; right; right; left; auto
      |left; subst; eexists; split; [reflexivity|right; right; left; split; reflexivity]
      |contradiction].
Qed.

(** Every event of a run comes from the preamble, the existence check, the
    validation and lock outcome, or the locked part. *)
Lemma run_shape (cfg : config) (e : env) (rp : datetime) ev :
  In ev (run_trace cfg e rp) ->
  (exists l m, ev = Log l m) \/ ev = Status INITIALIZING \/ ev = Validate \/
  ev = LockAcquire \/ ev = LockRelease \/
  ev = Status (FAILED "Invalid restore point") \/
  ev = Status (FAILED "Could not acquire restore lock") \/
  ev = Status COMPLETED \/
  In ev (fst (check_restore_tables cfg e rp)) \/
  In ev (fst (locked_pipeline cfg e rp (snd (check_restore_tables cfg e rp)))).
Proof.
  unfold run_trace, run.
  destruct (check_restore_tables cfg e rp) as [ev_check skip]. cbn [fst snd].
  assert (Hpre : In ev ((Log INFO "Starting DynamoDB PITR restore"
                     :: (if dry_run cfg
                         then [Log INFO "DRY RUN MODE - No changes will be made"] else [])
                     ++ [Status INITIALIZING]) ++ ev_check ++ [Validate])%list ->
                 (exists l m, ev = Log l m) \/ ev = Status INITIALIZING \/ ev = Validate \/
                 In ev ev_check).
  { intros H. apply in_app_iff in H as [[H|H]|H]; [subst; eauto| |].
    - apply in_app_iff in H as [H|[H|H]]; [|subst; auto|contradiction].
      destruct (dry_run cfg); [destruct H as [H|H]; [subst; eauto|contradiction]|contradiction].
    - apply in_app_iff in H as [H|[H|H]]; [auto|subst; auto|contradiction]. }
  destruct (negb _); cbn [fst].
  { intros H. apply in_app_iff in H as [H|H]; [destruct (Hpre H) as [?|[?|[?|?]]]; tauto|].
    destruct H as [H|[H|H]]; [subst; eauto|subst; tauto|contradiction]. }
  destruct (negb (lock_acquired e)); cbn [fst].
  { intros H. apply in_app_iff in H as [H|H]; [destruct (Hpre H) as [?|[?|[?|?]]]; tauto|].
    destruct H as [H|[H|H]]; [subst; eauto|subst; tauto|contradiction]. }
  destruct (locked_pipeline cfg e rp skip) as [ev_body ok]. cbn [fst].
  destruct ok; cbn [fst]; intros H;
    (apply in_app_iff in H as [H|[H|H]];
     [destruct (Hpre H) as [?|[?|[?|?]]]; tauto|subst; tauto|]);
    apply in_app_iff in H as [H|H]; try tauto;
    repeat (destruct H as [H|H]; [subst; eauto 10|]); contradiction.
Qed.

Lemma verify_total (dry : bool) (count : string -> option nat) (tables rts : list (string * string)) :
  (forall t, count t <> None) -> snd (_verify_item_counts dry count tables rts) = true.
Proof.
  intros Htot. induction tables as [|[k o] tables IH]; [reflexivity|]. simpl.
  destruct dry.
  - destruct (_verify_item_counts true count tables rts); exact IH.
  - destruct (count o) eqn:Ho; [|exfalso; exact (Htot o Ho)].
    destruct (count (lookup_key k rts)) eqn:Hr; [|exfalso; exact (Htot _ Hr)].
    destruct (classify_counts n n0).
    destruct (_verify_item_counts false count tables rts); exact IH.
Qed.

Lemma classify_counts_spec (oc rc : nat) :
  (fst (classify_counts oc rc) = WARNING <-> (oc < rc)%nat) /\
  (snd (classify_counts oc rc) = "Unexpected: restore table has MORE items than original"
   <-> (oc < rc)%nat) /\
  (snd (classify_counts oc rc) = "restore has fewer items - expected for past restore point"
   <-> (rc < oc)%nat) /\
  (snd (classify_counts oc rc) = "counts match" <-> oc = rc).
Proof.
  unfold classify_counts.
  destruct (Nat.ltb_spec oc rc); [|destruct (Nat.ltb_spec rc oc)]; cbn [fst snd];
    repeat split; intros Hx; first [reflexivity | discriminate Hx | exfalso; lia | lia].
Qed.

(** Each table whose two counts are read gets its two count queries and
    the log line of its classification, in one block of the trace. *)
Lemma verify_logs (count : string -> option nat) (tables rts : list (string * string))
    (Htot : forall t, count t <> None) (k o : string) (oc rc : nat) :
  In (k, o) tables -> count o = Some oc -> count (lookup_key k rts) = Some rc ->
  exists pre post,
    fst (_verify_item_counts false count tables rts)
    = (pre ++ [ScanCount o; ScanCount (lookup_key k rts);
               Log (fst (classify_counts oc rc)) (snd (classify_counts oc rc))] ++ post)%list.
Proof.
  intros Hin Ho Hr. induction tables as [|[k' o'] tables IH]; [contradiction|].
  cbn [_verify_item_counts].
  destruct (count o') as [n|] eqn:Ho'; [|exfalso; exact (Htot o' Ho')].
  destruct (count (lookup_key k' rts)) as [n0|] eqn:Hr'; [|exfalso; exact (Htot _ Hr')].
  destruct Hin as [Hin|Hin].
  - injection Hin as -> ->. rewrite Ho in Ho'. rewrite Hr in Hr'.
    injection Ho' as <-. injection Hr' as <-.
    destruct (classify_counts oc rc) as [lvl msg].
    destruct (_verify_item_counts false count tables rts) as [evs ok].
    exists [], evs. reflexivity.
  - destruct (IH Hin) as [pre [post Hp]].
    destruct (classify_counts n n0) as [lvl msg].
    destruct (_verify_item_counts false count tables rts) as [evs ok]. cbn [fst] in *.
    exists (ScanCount o' :: ScanCount (lookup_key k' rts) :: Log lvl msg :: pre), post.
    rewrite Hp. reflexivity.
Qed.

(** ** Claim C2 *)

(** C2: when every item count can be read, [_verify_item_counts] returns
    [True] whatever the counts are, so a run never records
    [FAILED "Item count mismatch"]; and, outside dry-run mode, for each
    configured table it queries both counts and logs their classification
    right after: a warning exactly when the restored count is higher, the
    "fewer items" line exactly when it is lower, "counts match" exactly
    when they are equal. *)
Theorem verify_item_counts_advisory (cfg : config) (e : env) (rp : datetime)
    (Htotal : forall t, item_count e t <> None) :
  snd (_verify_item_counts (dry_run cfg) (item_count e) (tables_of cfg)
         (restore_tables_of cfg e rp)) = true /\
  ~ In (Status (FAILED "Item count mismatch")) (run_trace cfg e rp) /\
  (dry_run cfg = false ->
   forall (table_key original_table : string) (original_count restore_count : nat),
     In (table_key, original_table) (tables_of cfg) ->
     item_count e original_table = Some original_count ->
     item_count e (lookup_key table_key (restore_tables_of cfg e rp)) = Some restore_count ->
     exists lvl msg pre post,
       fst (_verify_item_counts false (item_count e) (tables_of cfg) (restore_tables_of cfg e rp))
       = (pre ++ [ScanCount original_table;
                  ScanCount (lookup_key table_key (restore_tables_of cfg e rp));
                  Log lvl msg] ++ post)%list /\
       (lvl = WARNING <-> (original_count < restore_count)%nat) /\
       (msg = "Unexpected: restore table has MORE items than original"
        <-> (original_count < restore_count)%nat) /\
       (msg = "restore has fewer items - expected for past restore point"
        <-> (restore_count < original_count)%nat) /\
       (msg = "counts match" <-> original_count = restore_count)).
Proof.
  pose proof (verify_total (dry_run cfg) (item_count e) (tables_of cfg)
                (restore_tables_of cfg e rp) Htotal) as Hv.
  split; [exact Hv|]. split.
  - intros H. apply run_shape in H.
    destruct H as [[l [m H]]|[H|[H|[H|[H|[H|[H|[H|[H|H]]]]]]]]]; try discriminate.
    + apply check_restore_tables_shape in H.
      destruct H as [[[l [m H]]|[t H]]|[H|[n [H _]]]]; discriminate.
    + apply locked_pipeline_shape in H.
      destruct H as [[s [Hs [H|[H|[[H H']|H]]]]]|[H|[H|[H|[H|H]]]]].
      * injection Hs as Hs. rewrite <- Hs in H. discriminate.
      * injection Hs as Hs. rewrite <- Hs in H. discriminate.
      * rewrite Hv in H'. discriminate.
      * injection Hs as Hs. rewrite <- Hs in H. discriminate.
      * apply initiate_shape in H.
        destruct H as [[l [m H]]|[[a [b H]]|[[t H]|[t H]]]]; discriminate.
      * apply poll_shape in H. destruct H as [[l [m H]]|[t H]]; discriminate.
      * apply verify_shape in H. destruct H as [[l [m H]]|[t H]]; discriminate.
      * apply swap_shape in H.
        destruct H as [[l [m H]]|[[t H]|[[t H]|[[t [ks H]]|[t [ks H]]]]]]; discriminate.
      * apply delete_shape in H. destruct H as [[l [m H]]|[t [H _]]]; discriminate.
  - intros _ k o oc rc Hin Ho Hr.
    destruct (verify_logs (item_count e) (tables_of cfg) (restore_tables_of cfg e rp) Htotal
                k o oc rc Hin Ho Hr) as [pre [post Hp]].
    exists (fst (classify_counts oc rc)), (snd (classify_counts oc rc)), pre, post.
    split; [exact Hp|]. apply classify_counts_spec.
Qed.

Lemma verify_item_counts_advisory_witness :
  (forall t, item_count counts_env t <> None) /\
  exists lvl msg pre post,
    fst (_verify_item_counts false (item_count counts_env) (tables_of dev_config)
           (restore_tables_of dev_config counts_env (naive_dt 2026 1 8 12 0 0)))
    = (pre ++ [ScanCount "quote-lambda-tf-quotes-dev";
               ScanCount (lookup_key "quotes"
                            (restore_tables_of dev_config counts_env (naive_dt 2026 1 8 12 0 0)));
               Log lvl msg] ++ post)%list /\
    lvl = WARNING /\ msg = "Unexpected: restore table has MORE items than original".
Proof.
  assert (Ht : forall t, item_count counts_env t <> None).
  { intros t. simpl. destruct (String.prefix _ t); [discriminate|].
    destruct (String.prefix _ t); discriminate. }
  split; [exact Ht|].
  destruct (proj2 (proj2 (verify_item_counts_advisory dev_config counts_env
                            (naive_dt 2026 1 8 12 0 0) Ht))
              eq_refl "quotes" "quote-lambda-tf-quotes-dev" 3%nat 5%nat
              ltac:(simpl; left; reflexivity) ltac:(vm_compute; reflexivity)
              ltac:(vm_compute; reflexivity))
    as [lvl [msg [pre [post [Hp [Hl [Hm _]]]]]]].
  exists lvl, msg, pre, post. split; [exact Hp|].
  split; [apply Hl; lia|apply Hm; lia].
Defined.

(** ** Stale restore tables: lemmas *)

Lemma mem_name_spec (n : string) (names : list string) :
  mem_name n names = true <-> In n names.
Proof.
  unfold mem_name. rewrite existsb_exists. split.
  - intros [x [Hx Heq]]. apply String.eqb_eq in Heq. now subst.
  - intros H. exists n. split; [exact H|apply String.eqb_refl].
Qed.

Lemma find_old_spec (tables : list (string * string)) (current listed : list string) (n : string) :
  In n (_find_old_restore_tables tables current listed) ->
  In n listed /\ matches_restore_pattern tables n = true /\ mem_name n current = false.
Proof.
  induction listed as [|x listed IH]; simpl; [tauto|].
  destruct (matches_restore_pattern tables x) eqn:Hm; [|intros H; apply IH in H; tauto].
  destruct (mem_name x current) eqn:Hc; [intros H; apply IH in H; tauto|].
  intros [<-|H]; [auto|]. apply IH in H. tauto.
Qed.

Lemma matches_restore_pattern_spec (tables : list (string * string)) (n : string) :
  matches_restore_pattern tables n = true ->
  exists key original, In (key, original) tables /\
    String.prefix (original ++ "-restore-") n = true.
Proof.
  induction tables as [|[k o] tables IH]; simpl; [discriminate|].
  destruct (String.prefix (o ++ "-restore-") n) eqn:Hp.
  - intros _. exists k, o. auto.
  - intros H. destruct (IH H) as [k' [o' [Hin Hp']]]. exists k', o'. auto.
Qed.

Lemma tables_of_production (cfg : config) (key original : string) :
  In (key, original) (tables_of cfg) -> In original production_table_names.
Proof.
  unfold tables_of, _configure_table_names, production_table_names.
  destruct (String.eqb (environment cfg) "dev"); simpl;
    intros H; repeat (destruct H as [H|H]; [injection H as _ <-; simpl; tauto|]);
    contradiction.
Qed.

(** No production table name starts with a production table name followed
    by "-restore-". *)
Lemma production_not_restore_pattern (original p : string) :
  In original production_table_names -> In p production_table_names ->
  String.prefix (original ++ "-restore-") p = false.
Proof.
  assert (Hall : forallb (fun o => forallb (fun q => negb (String.prefix (o ++ "-restore-") q))
                                     production_table_names) production_table_names = true)
    by reflexivity.
  intros Ho Hp. rewrite forallb_forall in Hall. specialize (Hall original Ho).
  rewrite forallb_forall in Hall. specialize (Hall p Hp).
  destruct (String.prefix _ _); [discriminate|reflexivity].
Qed.

(** The tables deleted before the validation are the stale ones selected
    by [_find_old_restore_tables]. *)
Lemma check_restore_tables_deletions (cfg : config) (e : env) (rp : datetime) (n : string) :
  In (DeleteTable n) (fst (check_restore_tables cfg e rp)) ->
  In n (_find_old_restore_tables (tables_of cfg) (map snd (restore_tables_of cfg e rp))
          (list_tables e)) /\
  (exists key original, In (key, original) (tables_of cfg) /\
     String.prefix (original ++ "-restore-") n = true) /\
  ~ In n (map snd (restore_tables_of cfg e rp)) /\
  ~ In n production_table_names.
Proof.
  intros H. apply check_restore_tables_shape in H.
  destruct H as [[[l [m H]]|[t H]]|[H|[n' [H Hin]]]]; try discriminate.
  injection H as <-.
  destruct (find_old_spec _ _ _ _ Hin) as [_ [Hm Hc]].
  destruct (matches_restore_pattern_spec _ _ Hm) as [k [o [Hko Hp]]].
  split; [exact Hin|]. split; [eauto|]. split.
  - intros Hn. apply mem_name_spec in Hn. congruence.
  - intros Hn. rewrite (production_not_restore_pattern o n) in Hp; [discriminate| |exact Hn].
    eapply tables_of_production; eauto.
Qed.

(** ** Claim C10 *)

(** C10: a table deleted by the stale-table cleanup before the validation
    was selected by [_find_old_restore_tables], its name starts with a
    configured table name followed by "-restore-", and it is neither one of
    this recovery point's restore tables nor a production table (of either
    environment). *)
Theorem stale_restore_cleanup_safe (cfg : config) (e : env) (rp : datetime) (n : string)
    (Hdel : In (DeleteTable n) (fst (check_restore_tables cfg e rp))) :
  In n (_find_old_restore_tables (tables_of cfg) (map snd (restore_tables_of cfg e rp))
          (list_tables e)) /\
  (exists key original, In (key, original) (tables_of cfg) /\
     String.prefix (original ++ "-restore-") n = true) /\
  ~ In n (map snd (restore_tables_of cfg e rp)) /\
  ~ In n production_table_names.
Proof. exact (check_restore_tables_deletions cfg e rp n Hdel). Qed.

Lemma stale_restore_cleanup_safe_witness :
  In (DeleteTable "quote-lambda-tf-quotes-dev-restore-20251201120000")
     (fst (check_restore_tables dev_config
             (fresh_env ["quote-lambda-tf-quotes-dev";
                         "quote-lambda-tf-quotes-dev-restore-20251201120000"] true [all_active])
             (naive_dt 2026 1 8 12 0 0)))
  /\ ~ In "quote-lambda-tf-quotes-dev-restore-20251201120000" production_table_names.
Proof.
  assert (H : In (DeleteTable "quote-lambda-tf-quotes-dev-restore-20251201120000")
     (fst (check_restore_tables dev_config
             (fresh_env ["quote-lambda-tf-quotes-dev";
                         "quote-lambda-tf-quotes-dev-restore-20251201120000"] true [all_active])
             (naive_dt 2026 1 8 12 0 0)))) by (vm_compute; auto 10).
  split; [exact H|].
  exact (proj2 (proj2 (proj2 (stale_restore_cleanup_safe _ _ _ _ H)))).
Defined.

(** ** Claim C7 *)

(** C7: when the run gets to polling (valid recovery point, lock held,
    restores initiated or reused) and polling does not see every restore
    table [ACTIVE] before the timeout, the run records
    [FAILED "Restore operation timed out"] and returns [False]; no call of
    the run deletes one of this recovery point's restore tables or a
    production table, and no item is deleted or written. *)
Theorem poll_timeout_keeps_restore_tables (cfg : config) (e : env) (rp : datetime)
    (Hok : validated_and_locked e rp = true)
    (Hinit : initiation_ok cfg e rp = true)
    (Hpoll : snd (_poll_restore_completion (dry_run cfg) (restore_tables_of cfg e rp)
                    (poll_observations e)) = false) :
  final_status (run_trace cfg e rp) = Some (FAILED "Restore operation timed out") /\
  snd (run cfg e rp) = false /\
  none_of (touches_restore_or_production (map snd (restore_tables_of cfg e rp)))
    (run_trace cfg e rp) = true.
Proof.
  unfold validated_and_locked in Hok. apply andb_prop in Hok as [Hv Hl].
  unfold initiation_ok in Hinit.
  pose proof (check_restore_tables_deletions cfg e rp) as Hdel.
  pose proof (check_restore_tables_shape cfg e rp) as Hsh0.
  unfold run_trace, run.
  destruct (check_restore_tables cfg e rp) as [ev_check skip]. cbn [fst snd] in *.
  rewrite Hv, Hl. cbn [negb].
  set (rts := restore_tables_of cfg e rp) in *.
  assert (Hbody : exists ev_init,
     locked_pipeline cfg e rp skip =
       ((ev_init ++ fst (_poll_restore_completion (dry_run cfg) rts (poll_observations e))
         ++ [Status (FAILED "Restore operation timed out")])%list, false) /\
     (forall ev, In ev ev_init ->
        (exists l m, ev = Log l m) \/ (exists s t, ev = RestoreTableToPointInTime s t) \/
        (exists t, ev = DescribeTable t) \/ (exists t, ev = DescribeContinuousBackups t))).
  { unfold locked_pipeline. fold rts.
    pose proof (initiate_shape (dry_run cfg) (restore_accepted e) (restore_error e)
                  (tables_of cfg) rts) as Hsh.
    destruct skip.
    - exists []. split; [|intros ev []].
      destruct (_poll_restore_completion _ _ _) as [ev_poll ok_poll].
      cbn [snd] in Hpoll. subst ok_poll. reflexivity.
    - destruct (_initiate_pitr_restores _ _ _ _ _) as [ev_init ok_init].
      cbn [orb snd fst] in Hinit, Hsh. subst ok_init.
      exists ev_init. split; [|exact Hsh].
      destruct (_poll_restore_completion _ _ _) as [ev_poll ok_poll].
      cbn [snd] in Hpoll. subst ok_poll. reflexivity. }
  destruct Hbody as [ev_init [-> Hinit_sh]]. cbn [fst snd].
  split; [|split; [reflexivity|]].
  - final_status_simpl. reflexivity.
  - apply none_of_spec. intros ev H.
    repeat (apply in_app_iff in H as [H|H] || destruct H as [H|H]);
      try (subst ev; reflexivity); try contradiction.
    + destruct (dry_run cfg); [destruct H as [H|H]; [subst; reflexivity|contradiction]
                              |contradiction].
    + destruct (Hsh0 ev H) as [[[l [m ->]]|[t ->]]|[->|[n [-> _]]]]; try reflexivity.
      destruct (Hdel n H) as [_ [_ [Hc Hp]]]. cbn [touches_restore_or_production].
      destruct (mem_name n (map snd rts)) eqn:E1; [apply mem_name_spec in E1; tauto|].
      destruct (mem_name n production_table_names) eqn:E2;
        [apply mem_name_spec in E2; tauto|reflexivity].
    + destruct (Hinit_sh ev H) as [[l [m ->]]|[[s [t ->]]|[[t ->]|[t ->]]]]; reflexivity.
    + destruct (poll_shape _ _ _ ev H) as [[l [m ->]]|[t ->]]; reflexivity.
Qed.

(** A fresh run whose restore tables are still [CREATING] at the only poll
    round. *)
Lemma poll_timeout_keeps_restore_tables_witness :
  validated_and_locked (fresh_env [] true [creating]) (naive_dt 2026 1 8 12 0 0) = true /\
  initiation_ok dev_config (fresh_env [] true [creating]) (naive_dt 2026 1 8 12 0 0) = true /\
  final_status (run_trace dev_config (fresh_env [] true [creating]) (naive_dt 2026 1 8 12 0 0))
  = Some (FAILED "Restore operation timed out").
Proof.
  assert (H1 : validated_and_locked (fresh_env [] true [creating]) (naive_dt 2026 1 8 12 0 0)
               = true) by (vm_compute; reflexivity).
  assert (H2 : initiation_ok dev_config (fresh_env [] true [creating]) (naive_dt 2026 1 8 12 0 0)
               = true) by (vm_compute; reflexivity).
  assert (H3 : snd (_poll_restore_completion (dry_run dev_config)
                      (restore_tables_of dev_config (fresh_env [] true [creating])
                         (naive_dt 2026 1 8 12 0 0))
                      (poll_observations (fresh_env [] true [creating]))) = false)
    by (vm_compute; reflexivity).
  split; [exact H1|]. split; [exact H2|].
  exact (proj1 (poll_timeout_keeps_restore_tables dev_config _ _ H1 H2 H3)).
Defined.

(** ** Reusing existing restore tables: lemmas *)

Lemma check_restore_tables_skip (cfg : config) (e : env) (rp : datetime) :
  snd (_check_existing_restore_tables (describe e) (restore_tables_of cfg e rp)) <> [] ->
  snd (check_restore_tables cfg e rp) = true.
Proof.
  unfold check_restore_tables.
  destruct (_check_existing_restore_tables _ _) as [evs [|x ex]]; cbn [snd].
  - intros H; exfalso; now apply H.
  - reflexivity.
Qed.

(** With [skip_restore], the locked part starts with the polling and
    initiates nothing. *)
Lemma locked_pipeline_skip (cfg : config) (e : env) (rp : datetime) :
  exists rest,
    fst (locked_pipeline cfg e rp true) =
      (fst (_poll_restore_completion (dry_run cfg) (restore_tables_of cfg e rp)
              (poll_observations e)) ++ rest)%list /\
    none_of is_restore_initiation rest = true.
Proof.
  unfold locked_pipeline. cbv beta iota zeta delta [negb].
  pose proof (verify_shape (dry_run cfg) (item_count e) (tables_of cfg)
                (restore_tables_of cfg e rp)) as Hvs.
  pose proof (swap_shape (dry_run cfg) e (tables_of cfg) (restore_tables_of cfg e rp)
                (swap_budget e)) as Hss.
  pose proof (delete_shape (dry_run cfg) (restore_tables_of cfg e rp)) as Hds.
  destruct (_poll_restore_completion _ _ _) as [ev_poll ok_poll]. cbn [fst].
  destruct ok_poll.
  - destruct (_verify_item_counts _ _ _ _) as [ev_count ok_count]. cbn [fst] in Hvs.
    destruct ok_count; cbn [fst].
    + destruct (_swap_data _ _ _ _ _) as [[ev_swap b1] sw]. cbn [fst] in Hss.
      destruct (returned_true sw); cbn [fst]; swap 1 2.
      * exists (ev_count ++ ev_swap ++ [Status (FAILED "Data swap failed")])%list.
        split; [reflexivity|]. apply none_of_spec. intros ev H.
        apply in_app_iff in H as [H|H]; [|apply in_app_iff in H as [H|[H|H]]].
        -- destruct (Hvs ev H) as [[l [m ->]]|[t ->]]; reflexivity.
        -- destruct (Hss ev H) as [[l [m ->]]|[[t ->]|[[t ->]|[[t [ks ->]]|[t [ks ->]]]]]];
             reflexivity.
        -- subst; reflexivity.
        -- contradiction.
      * exists (ev_count ++ ev_swap
                ++ _delete_restore_tables (dry_run cfg) (restore_tables_of cfg e rp))%list.
        split; [reflexivity|]. apply none_of_spec. intros ev H.
        apply in_app_iff in H as [H|H]; [|apply in_app_iff in H as [H|H]].
        -- destruct (Hvs ev H) as [[l [m ->]]|[t ->]]; reflexivity.
        -- destruct (Hss ev H) as [[l [m ->]]|[[t ->]|[[t ->]|[[t [ks ->]]|[t [ks ->]]]]]];
             reflexivity.
        -- destruct (Hds ev H) as [[l [m ->]]|[t [-> _]]]; reflexivity.
    + exists (ev_count ++ [Status (FAILED "Item count mismatch")])%list.
      split; [reflexivity|]. apply none_of_spec. intros ev H.
      apply in_app_iff in H as [H|[H|H]]; [|subst; reflexivity|contradiction].
      destruct (Hvs ev H) as [[l [m ->]]|[t ->]]; reflexivity.
  - exists [Status (FAILED "Restore operation timed out")]. split; reflexivity.
Qed.

(** ** Claim C5 *)

(** C5: when at least one of this recovery point's restore tables already
    exists (whether all are [ACTIVE] or some are still being created), the
    run sets [skip_restore], never calls restore_table_to_point_in_time, and,
    once the point is validated and the lock acquired, goes straight from the
    lock to polling. *)
Theorem existing_restore_tables_skip_initiation (cfg : config) (e : env) (rp : datetime)
    (Hex : snd (_check_existing_restore_tables (describe e) (restore_tables_of cfg e rp)) <> []) :
  snd (check_restore_tables cfg e rp) = true /\
  none_of is_restore_initiation (run_trace cfg e rp) = true /\
  (validated_and_locked e rp = true ->
   exists pre rest,
     run_trace cfg e rp =
       (pre ++ LockAcquire
            :: fst (_poll_restore_completion (dry_run cfg) (restore_tables_of cfg e rp)
                      (poll_observations e)) ++ rest)%list).
Proof.
  pose proof (check_restore_tables_skip cfg e rp Hex) as Hskip.
  pose proof (check_restore_tables_no_initiation cfg e rp) as Hc.
  destruct (locked_pipeline_skip cfg e rp) as [rest [Hbody Hrest]].
  split; [exact Hskip|]. split.
  - apply none_of_spec. intros ev H. apply run_shape in H.
    rewrite Hskip, Hbody in H. rewrite none_of_spec in Hc, Hrest.
    destruct H as [[l [m ->]]|[->|[->|[->|[->|[->|[->|[->|[H|H]]]]]]]]];
      try reflexivity; [now apply Hc|].
    apply in_app_iff in H as [H|H]; [|now apply Hrest].
    destruct (poll_shape _ _ _ ev H) as [[l [m ->]]|[t ->]]; reflexivity.
  - intros Hok. unfold validated_and_locked in Hok. apply andb_prop in Hok as [Hv Hl].
    unfold run_trace, run.
    destruct (check_restore_tables cfg e rp) as [ev_check skip]. cbn [snd] in Hskip.
    subst skip. rewrite Hv, Hl. cbn [negb].
    destruct (locked_pipeline cfg e rp true) as [ev_body ok]. cbn [fst] in Hbody. subst ev_body.
    set (start := (Log INFO "Starting DynamoDB PITR restore"
                     :: (if dry_run cfg
                         then [Log INFO "DRY RUN MODE - No changes will be made"] else [])
                     ++ [Status INITIALIZING])%list).
    set (poll := fst (_poll_restore_completion (dry_run cfg) (restore_tables_of cfg e rp)
                        (poll_observations e))).
    exists (start ++ ev_check ++ [Validate])%list.
    destruct ok; cbn [fst].
    + exists (rest ++ [LockRelease; Log INFO "Restore completed successfully";
                       Status COMPLETED])%list.
      rewrite <- !app_assoc. reflexivity.
    + exists (rest ++ [LockRelease])%list. rewrite <- !app_assoc. reflexivity.
Qed.

Lemma existing_restore_tables_skip_initiation_witness :
  snd (_check_existing_restore_tables (describe reused_env)
         (restore_tables_of dev_config reused_env (naive_dt 2026 1 8 12 0 0))) <> [] /\
  none_of is_restore_initiation
    (run_trace dev_config reused_env (naive_dt 2026 1 8 12 0 0)) = true.
Proof.
  assert (H : snd (_check_existing_restore_tables (describe reused_env)
         (restore_tables_of dev_config reused_env (naive_dt 2026 1 8 12 0 0))) <> [])
    by (vm_compute; discriminate).
  split; [exact H|].
  exact (proj1 (proj2 (existing_restore_tables_skip_initiation dev_config _ _ H))).
Defined.

(** ** Batches and scans: lemmas *)

Lemma batches_in_app (l1 l2 : list event) :
  batches_in (l1 ++ l2) = (batches_in l1 ++ batches_in l2)%list.
Proof. unfold batches_in. apply flat_map_app. Qed.

Lemma batches_in_map (mk : list nat -> event)
    (Hmk : forall ks, batches_in [mk ks] = [ks]) (bs : list (list nat)) :
  batches_in (map mk bs) = bs.
Proof.
  induction bs as [|b bs IH]; [reflexivity|]. cbn [map].
  change (mk b :: map mk bs) with ([mk b] ++ map mk bs)%list.
  rewrite batches_in_app, Hmk, IH. reflexivity.
Qed.

(** The batches of a scan loop are the batches of its pages. *)
Lemma scan_calls_batches (mk : list nat -> event)
    (Hmk : forall ks, batches_in [mk ks] = [ks])
    (fuel : nat) (t : string) (table_rows : list nat) (pg start : nat) :
  batches_in (scan_calls fuel t table_rows pg start (fun items => map mk (batches items)))
  = flat_map batches (scan_pages fuel table_rows pg start).
Proof.
  revert start. induction fuel as [|fuel IH]; intros start; [reflexivity|].
  cbn [scan_calls scan_pages].
  destruct (scan_page table_rows pg start) as [items last].
  change (batches_in (Scan t :: ?r)) with (batches_in r).
  rewrite batches_in_app, batches_in_map by exact Hmk. cbn [flat_map].
  f_equal. destruct last; [apply IH|reflexivity].
Qed.

(** Following the [LastEvaluatedKey]s from row [start] reads every later
    row once, in order. *)
Lemma scan_pages_cover (fuel : nat) (table_rows : list nat) (pg start : nat) :
  (0 < pg)%nat -> (length table_rows - start < fuel)%nat ->
  concat (scan_pages fuel table_rows pg start) = skipn start table_rows.
Proof.
  intros Hpg. revert start. induction fuel as [|fuel IH]; intros start Hf; [lia|].
  cbn [scan_pages]. unfold scan_page.
  destruct (Nat.ltb_spec (start + pg) (length table_rows)).
  - cbn [concat]. rewrite IH by lia.
    rewrite <- (firstn_skipn pg (skipn start table_rows)) at 2.
    rewrite skipn_skipn. f_equal. f_equal. lia.
  - cbn [concat]. rewrite app_nil_r. apply firstn_all2.
    rewrite length_skipn. lia.
Qed.

Lemma flat_map_batches_concat (pages : list (list nat)) :
  concat (flat_map batches pages) = concat pages /\
  Forall (fun b => 1 <= length b <= 25)%nat (flat_map batches pages).
Proof.
  induction pages as [|p pages [IHc IHf]]; [split; constructor|].
  cbn [flat_map concat]. destruct (batches_spec p) as [Hf Hc].
  rewrite concat_app, Hc, IHc. split; [reflexivity|].
  apply Forall_app. split; assumption.
Qed.

Lemma clear_table_batches (t : string) (table_rows : list nat) (pg : nat) :
  batches_in (clear_table_calls t table_rows pg)
  = flat_map batches (scan_pages (scan_fuel table_rows) table_rows pg 0).
Proof.
  unfold clear_table_calls.
  change (batches_in (DescribeTable t :: ?r)) with (batches_in r).
  apply scan_calls_batches. reflexivity.
Qed.

Lemma copy_table_batches (src tgt : string) (table_rows : list nat) (pg : nat) :
  batches_in (copy_table_calls src tgt table_rows pg)
  = flat_map batches (scan_pages (scan_fuel table_rows) table_rows pg 0).
Proof. unfold copy_table_calls. apply scan_calls_batches. reflexivity. Qed.

Lemma scan_pages_full (table_rows : list nat) (pg : nat) :
  (0 < pg)%nat -> concat (scan_pages (scan_fuel table_rows) table_rows pg 0) = table_rows.
Proof. intros Hpg. rewrite scan_pages_cover by (unfold scan_fuel; lia). reflexivity. Qed.








(** C3 (code bug): the recovery point is not validated before the first
    provider call.  For a point 63 days old, [run] describes the three
    restore tables, lists the tables and deletes a stale restore table before
    [_validate_restore_point] rejects the point. *)
Theorem validation_after_provider_calls :
  filter is_provider_call
    (before_validate (run_trace dev_config (fresh_env [stale_restore_table] true [all_active])
                        (naive_dt 2025 11 8 12 0 0)))
  = [DescribeTable "quote-lambda-tf-quotes-dev-restore-20251108120000";
     DescribeTable "quote-lambda-tf-user-likes-dev-restore-20251108120000";
     DescribeTable "quote-lambda-tf-user-views-dev-restore-20251108120000";
     ListTables; DeleteTable stale_restore_table] /\
  final_status (run_trace dev_config (fresh_env [stale_restore_table] true [all_active])
                  (naive_dt 2025 11 8 12 0 0))
  = Some (FAILED "Invalid restore point").
Proof. split; vm_compute; reflexivity. Qed.

(** C4 (code bug): a run that cannot acquire the lock has already deleted
    the stale restore tables it found, although it then ends [FAILED] with
    "Could not acquire restore lock" and returns [False]. *)
Theorem lock_failure_after_stale_deletion :
  lock_acquired (fresh_env [stale_restore_table] false [all_active]) = false /\
  filter is_mutating (run_trace dev_config (fresh_env [stale_restore_table] false [all_active])
                        (naive_dt 2026 1 8 12 0 0))
  = [DeleteTable stale_restore_table] /\
  final_status (run_trace dev_config (fresh_env [stale_restore_table] false [all_active])
                  (naive_dt 2026 1 8 12 0 0))
  = Some (FAILED "Could not acquire restore lock") /\
  snd (run dev_config (fresh_env [stale_restore_table] false [all_active])
         (naive_dt 2026 1 8 12 0 0)) = false.
Proof. repeat split; vm_compute; reflexivity. Qed.

(** ** [RestoreLock]: lemmas and theorems *)

Lemma acquire_loop_fresh_fails (fuel : nat) (timeout start now m : Z) (u : bool) :
  start + timeout - m <= stale_after_ms ->
  acquire_loop fuel timeout start now u (Some m) = (false, Some m).
Proof.
  intros H. revert now. induction fuel as [|fuel IH]; intros now; [reflexivity|].
  cbn [acquire_loop]. destruct (Z.ltb_spec (now - start) timeout); [|reflexivity].
  unfold _is_stale. destruct (Z.ltb_spec stale_after_ms (now - m)); [lia|]. apply IH.
Qed.

Lemma acquire_loop_keeps (fuel : nat) (timeout start now : Z) (u : bool) (f : option Z) :
  (timeout - (now - start) <= 0 \/ timeout - (now - start) <= lock_sleep_ms * (Z.of_nat fuel - 1)) ->
  fst (acquire_loop fuel timeout start now u f) = false ->
  snd (acquire_loop fuel timeout start now u f) = f.
Proof.
  unfold lock_sleep_ms. revert now f. induction fuel as [|fuel IH]; intros now f Hinv; [reflexivity|].
  cbn [acquire_loop]. destruct (Z.ltb_spec (now - start) timeout); [|reflexivity].
  destruct f as [m|]; [|discriminate].
  destruct (_is_stale (Some m) now); [destruct u|].
  - destruct fuel as [|fuel]; [lia|]. cbn [acquire_loop].
    destruct (Z.ltb_spec (now - start) timeout); [discriminate|lia].
  - reflexivity.
  - apply IH. unfold lock_sleep_ms. lia.
Qed.

Lemma acquire_loop_success (fuel : nat) (timeout start now : Z) (u : bool) (f : option Z) :
  start <= now ->
  fst (acquire_loop fuel timeout start now u f) = true ->
  exists a, snd (acquire_loop fuel timeout start now u f) = Some a /\ start <= a < start + timeout.
Proof.
  revert now f. induction fuel as [|fuel IH]; intros now f Hs; [discriminate|].
  cbn [acquire_loop]. destruct (Z.ltb_spec (now - start) timeout); [|discriminate].
  destruct f as [m|]; [|intros _; exists now; split; [reflexivity|lia]].
  destruct (_is_stale (Some m) now); [destruct u; [apply IH; lia|discriminate]|].
  apply IH. unfold lock_sleep_ms. lia.
Qed.

Lemma acquire_fuel (timeout : Z) :
  timeout - 0 <= 0 \/
  timeout - 0 <= lock_sleep_ms * (Z.of_nat (S (S (Z.to_nat (timeout / lock_sleep_ms)))) - 1).
Proof.
  unfold lock_sleep_ms. destruct (Z.leb_spec timeout 0); [left; lia|right].
  rewrite !Nat2Z.inj_succ, Z2Nat.id by (apply Z.div_pos; lia).
  pose proof (Z.mul_div_le timeout 500). pose proof (Z.mod_pos_bound timeout 500).
  pose proof (Z.div_mod timeout 500). lia.
Qed.

(** [RestoreLock.acquire] with the lock file absent or older than an hour
    takes the lock at once, writing a lock file stamped with the current
    time (a stale file is unlinked first); only when unlinking the stale
    file fails does it give up, leaving that file in place. *)
Theorem acquire_free_or_stale (timeout now : Z) (u : bool) (f : option Z) :
  0 < timeout ->
  (f = None \/ _is_stale f now = true) ->
  acquire timeout now u f
  = if lock_file_exists f && negb u then (false, f) else (true, Some now).
Proof.
  intros Ht Hf. unfold acquire. cbn [acquire_loop].
  destruct (Z.ltb_spec (now - now) timeout); [|lia].
  destruct Hf as [->|Hst]; [reflexivity|].
  destruct f as [m|]; [|discriminate]. rewrite Hst.
  destruct u; cbn [lock_file_exists andb negb]; [|reflexivity].
  cbn [acquire_loop]. destruct (Z.ltb_spec (now - now) timeout); [reflexivity|lia].
Qed.

(** A failed [RestoreLock.acquire] leaves the lock file as it found it: it
    neither removes a lock that is not stale nor writes one of its own. *)
Theorem acquire_failure_keeps_lock_file (timeout now : Z) (u : bool) (f : option Z) :
  fst (acquire timeout now u f) = false -> snd (acquire timeout now u f) = f.
Proof.
  apply acquire_loop_keeps. rewrite Z.sub_diag. apply acquire_fuel.
Qed.

(** Mutual exclusion: a successful [acquire] leaves a lock file written
    during its timeout window, and while that file is less than an hour old
    at the end of another [acquire]'s default 5-second window, that
    [acquire] fails without touching it. *)
Theorem lock_mutual_exclusion (timeout now : Z) (u : bool) (f : option Z) :
  fst (acquire timeout now u f) = true ->
  exists a, snd (acquire timeout now u f) = Some a /\ now <= a < now + timeout /\
    forall now' u', now' + acquire_timeout_ms - a <= stale_after_ms ->
      acquire acquire_timeout_ms now' u' (Some a) = (false, Some a).
Proof.
  intros H. destruct (acquire_loop_success _ timeout now now u f (Z.le_refl now) H) as [a [Ha Hr]].
  exists a. split; [exact Ha|]. split; [exact Hr|].
  intros now' u' Hf. apply acquire_loop_fresh_fails. exact Hf.
Qed.


(** ** Status file *)

Lemma pad_sep_inj (k : nat) (x y : Z) (c : ascii) (r1 r2 : string) :
  0 <= x < Z.of_nat (10 ^ k) -> 0 <= y < Z.of_nat (10 ^ k) ->
  pad k (Z.to_nat x) ++ String c r1 = pad k (Z.to_nat y) ++ String c r2 -> x = y /\ r1 = r2.
Proof.
  intros Hx Hy H. apply string_append_inj in H as [H1 H2]; [|now rewrite !pad_length].
  split; [now apply pad_Z_inj in H1|]. now injection H2.
Qed.

(** Two [DynamoDBPITRRestore] objects built at [datetime.now()] readings
    [d1] and [d2] write the same status file ([restore_status_<restore_id>.json])
    exactly when the readings fall in the same wall-clock second: runs
    started within one second overwrite each other's status record. *)
Theorem status_file_wall_second (d1 d2 : datetime) :
  fields_in_range d1 -> fields_in_range d2 ->
  (status_file (restore_id d1) = status_file (restore_id d2) <-> wall_second d1 = wall_second d2).
Proof.
  unfold fields_in_range, wall_second, status_file, restore_id. intros R1 R2.
  assert (E4 : Z.of_nat (10 ^ 4) = 10000) by reflexivity.
  assert (E2 : Z.of_nat (10 ^ 2) = 100) by reflexivity.
  split.
  - intros H. rewrite !string_append_assoc in H.
    apply string_append_cancel_l in H. apply string_append_cancel_l in H.
    cbn [append] in H.
    apply pad_sep_inj in H as [Hy H]; [|lia|lia].
    apply pad_sep_inj in H as [Hmo H]; [|lia|lia].
    apply pad_sep_inj in H as [Hd H]; [|lia|lia].
    apply pad_sep_inj in H as [Hh H]; [|lia|lia].
    apply pad_sep_inj in H as [Hmi H]; [|lia|lia].
    apply pad_sep_inj in H as [Hs _]; [|lia|lia].
    now rewrite Hy, Hmo, Hd, Hh, Hmi, Hs.
  - intros H. injection H as -> -> -> -> -> ->. reflexivity.
Qed.


(** ** Tables named by a run: lemmas and theorem *)

Lemma prefix_app (p s : string) : String.prefix p (p ++ s) = true.
Proof.
  induction p as [|c p IH]; [destruct s; reflexivity|].
  cbn. destruct (ascii_dec c c); [exact IH|congruence].
Qed.

Lemma prefix_spec (p t : string) : String.prefix p t = true -> exists s, t = p ++ s.
Proof.
  revert t. induction p as [|c p IH]; intros t H; [now exists t|].
  destruct t as [|d t]; [discriminate|]. cbn in H.
  destruct (ascii_dec c d); [subst|discriminate].
  destruct (IH t H) as [s ->]. now exists s.
Qed.

Lemma prefix_app_cases (x o s : string) :
  String.prefix x (o ++ s) = true -> String.prefix x o = true \/ String.prefix o x = true.
Proof.
  revert o. induction x as [|c x IH]; intros o H; [left; destruct o; reflexivity|].
  destruct o as [|d o]; [right; reflexivity|]. cbn in H |- *.
  destruct (ascii_dec c d); [|discriminate]. subst d.
  destruct (ascii_dec c c); [|congruence]. now apply IH.
Qed.

Lemma scope_cons (k o : string) (tables : list (string * string)) (t : string) :
  in_table_scope tables t = true -> in_table_scope ((k, o) :: tables) t = true.
Proof. unfold in_table_scope. cbn [existsb]. intros ->. apply orb_true_r. Qed.

Lemma scope_original (tables : list (string * string)) (k o : string) :
  In (k, o) tables -> in_table_scope tables o = true.
Proof.
  unfold in_table_scope. intros H. apply existsb_exists. exists (k, o).
  split; [exact H|]. now rewrite String.eqb_refl.
Qed.

Lemma scope_restore (tables : list (string * string)) (k o ts : string) :
  In (k, o) tables -> in_table_scope tables (restore_table_name o ts) = true.
Proof.
  unfold in_table_scope, restore_table_name. intros H. apply existsb_exists. exists (k, o).
  split; [exact H|]. rewrite <- string_append_assoc, prefix_app. apply orb_true_r.
Qed.

Lemma restore_names_scope (tables : list (string * string)) (ts : option string) (now : datetime) (t : string) :
  In t (map snd (_get_restore_table_names tables ts now)) -> in_table_scope tables t = true.
Proof.
  unfold _get_restore_table_names. rewrite map_map. intros H.
  apply in_map_iff in H as [[k o] [<- Hin]]. eapply scope_restore. exact Hin.
Qed.

Lemma lookup_restore_scope (tables : list (string * string)) (ts : option string) (now : datetime) (k o : string) :
  In (k, o) tables ->
  in_table_scope tables (lookup_key k (_get_restore_table_names tables ts now)) = true.
Proof.
  unfold _get_restore_table_names.
  set (stamp := match ts with Some s => s | None => strftime_token now end).
  induction tables as [|[k' o'] tables IH]; [intros []|].
  intros Hin. cbn [map lookup_key].
  destruct (String.eqb_spec k' k).
  - eapply scope_restore. left. reflexivity.
  - apply scope_cons. apply IH. destruct Hin as [Heq|Hin]; [congruence|exact Hin].
Qed.

Lemma matches_scope (tables : list (string * string)) (n : string) :
  matches_restore_pattern tables n = true -> in_table_scope tables n = true.
Proof.
  intros H. apply matches_restore_pattern_spec in H as [k [o [Hin Hp]]].
  unfold in_table_scope. apply existsb_exists. exists (k, o). split; [exact Hin|].
  rewrite Hp. apply orb_true_r.
Qed.

Lemma scopes_apart_spec (A B : list (string * string)) (t : string) :
  scopes_apart A B = true -> in_table_scope A t = true -> in_table_scope B t = false.
Proof.
  unfold scopes_apart, in_table_scope. intros Hab HA.
  apply existsb_exists in HA as [[ka a] [Ha Hta]].
  rewrite forallb_forall in Hab. specialize (Hab _ Ha). cbn beta iota in Hab.
  rewrite forallb_forall in Hab.
  destruct (existsb _ B) eqn:HB; [|reflexivity]. exfalso.
  apply existsb_exists in HB as [[kb b] [Hb Htb]].
  specialize (Hab _ Hb). cbn beta iota in Hab.
  repeat rewrite andb_true_iff in Hab. rewrite !negb_true_iff in Hab.
  destruct Hab as [[[[Hab1 Hab2] Hab3] Hab4] Hab5].
  apply orb_true_iff in Hta as [Hta|Hta]; apply orb_true_iff in Htb as [Htb|Htb];
    try apply String.eqb_eq in Hta; try apply String.eqb_eq in Htb; subst.
  - rewrite String.eqb_refl in Hab1. discriminate.
  - congruence.
  - congruence.
  - apply prefix_spec in Hta as [s ->].
    apply prefix_app_cases in Htb as [H|H]; congruence.
Qed.

Lemma names_in_app (sc : string -> bool) (l1 l2 : list event) :
  names_in sc l1 -> names_in sc l2 -> names_in sc (l1 ++ l2).
Proof. intros H1 H2 ev t H. apply in_app_iff in H as [H|H]; eauto. Qed.

Lemma names_in_cons (sc : string -> bool) (ev : event) (l : list event) :
  (forall t, In t (event_tables ev) -> sc t = true) -> names_in sc l -> names_in sc (ev :: l).
Proof. intros H1 H2 ev' t [<-|H]; eauto. Qed.

Lemma names_in_nil (sc : string -> bool) : names_in sc [].
Proof. intros ev t []. Qed.

Ltac names_step :=
  repeat first
    [ assumption
    | apply names_in_app
    | apply names_in_nil
    | apply names_in_cons; [cbn [event_tables]; let tn := fresh "tn" in let Hn := fresh "Hnm" in intros tn Hn;
        repeat (destruct Hn as [Hn|Hn]; [subst tn|]); try contradiction; try assumption|] ].

Section Steps.
Variable sc : string -> bool.

Lemma names_check_existing (d : string -> describe_result) (rts : list (string * string)) :
  (forall t, In t (map snd rts) -> sc t = true) ->
  names_in sc (fst (_check_existing_restore_tables d rts)).
Proof.
  induction rts as [|[k n] rts IH]; intros Hr; [apply names_in_nil|].
  cbn [_check_existing_restore_tables].
  assert (Hn : sc n = true) by (apply Hr; left; reflexivity).
  assert (IH' : names_in sc (fst (_check_existing_restore_tables d rts)))
    by (apply IH; intros t Ht; apply Hr; right; exact Ht).
  destruct (_check_existing_restore_tables d rts) as [evs ex]. cbn [fst] in IH'.
  destruct (d n); cbn [fst]; names_step.
Qed.

Lemma names_initiate (dry : bool) (acc : string -> bool) (fail : string -> restore_failure)
    (tables rts : list (string * string)) :
  (forall k o, In (k, o) tables -> sc o = true /\ sc (lookup_key k rts) = true) ->
  names_in sc (fst (_initiate_pitr_restores dry acc fail tables rts)).
Proof.
  induction tables as [|[k o] tables IH]; intros Ht; [apply names_in_nil|].
  cbn [_initiate_pitr_restores].
  destruct (Ht k o (or_introl eq_refl)) as [Ho Hr].
  assert (IH' : names_in sc (fst (_initiate_pitr_restores dry acc fail tables rts)))
    by (apply IH; intros k' o' H; apply Ht; right; exact H).
  destruct (_initiate_pitr_restores dry acc fail tables rts) as [evs ok]. cbn [fst] in IH'.
  destruct dry; [|destruct (acc o)]; cbn [fst]; [names_step|names_step|].
  apply names_in_cons; [intros t [<-|[<-|[]]]; assumption|].
  apply names_in_app; [|names_step].
  intros ev t H Hin.
  destruct (window_diagnostics_shape o (fail o) ev H) as [[l [m ->]]|[-> | ->]];
    [contradiction|destruct Hin as [<-|[]]; exact Ho|destruct Hin as [<-|[]]; exact Ho].
Qed.

Lemma names_poll_round (obs : string -> describe_result) (rts : list (string * string)) :
  (forall t, In t (map snd rts) -> sc t = true) -> names_in sc (fst (poll_round obs rts)).
Proof.
  induction rts as [|[k n] rts IH]; intros Hr; [apply names_in_nil|].
  cbn [poll_round].
  assert (Hn : sc n = true) by (apply Hr; left; reflexivity).
  assert (IH' : names_in sc (fst (poll_round obs rts)))
    by (apply IH; intros t Ht; apply Hr; right; exact Ht).
  destruct (poll_round obs rts) as [evs res]. cbn [fst] in IH'.
  destruct (obs n); cbn [fst]; names_step.
Qed.

Lemma names_poll (dry : bool) (rts : list (string * string)) (rounds : list (string -> describe_result)) :
  (forall t, In t (map snd rts) -> sc t = true) ->
  names_in sc (fst (_poll_restore_completion dry rts rounds)).
Proof.
  intros Hr. induction rounds as [|obs rounds IH]; cbn [_poll_restore_completion];
    [names_step|].
  destruct dry; [names_step|].
  pose proof (names_poll_round obs rts Hr) as Hp.
  destruct (poll_round obs rts) as [evs res]. cbn [fst] in Hp.
  destruct (_poll_restore_completion false rts rounds) as [evs' ok]. cbn [fst] in IH.
  destruct res; cbn [fst]; names_step.
Qed.

Lemma names_verify (dry : bool) (count : string -> option nat) (tables rts : list (string * string)) :
  (forall k o, In (k, o) tables -> sc o = true /\ sc (lookup_key k rts) = true) ->
  names_in sc (fst (_verify_item_counts dry count tables rts)).
Proof.
  induction tables as [|[k o] tables IH]; intros Ht; [apply names_in_nil|].
  cbn [_verify_item_counts].
  destruct (Ht k o (or_introl eq_refl)) as [Ho Hr].
  assert (IH' : names_in sc (fst (_verify_item_counts dry count tables rts)))
    by (apply IH; intros k' o' H; apply Ht; right; exact H).
  destruct dry.
  - destruct (_verify_item_counts true count tables rts) as [evs ok]. cbn [fst] in *. names_step.
  - destruct (count o); [|cbn [fst]; names_step].
    destruct (count (lookup_key k rts)); [|cbn [fst]; names_step].
    destruct (classify_counts _ _) as [lvl msg].
    destruct (_verify_item_counts false count tables rts) as [evs ok]. cbn [fst] in *. names_step.
Qed.

Lemma names_batches (mk : list nat -> event) (t : string) (bs : list (list nat)) :
  sc t = true -> (forall ks, event_tables (mk ks) = [t]) -> names_in sc (map mk bs).
Proof.
  intros Ht Hmk ev t' H Ht'. apply in_map_iff in H as [ks [<- _]].
  rewrite Hmk in Ht'. destruct Ht' as [<-|[]]. exact Ht.
Qed.

Lemma names_swap (dry : bool) (e : env) (tables rts : list (string * string)) (b : option nat) :
  (forall k o, In (k, o) tables -> sc o = true /\ sc (lookup_key k rts) = true) ->
  names_in sc (fst (fst (_swap_data dry e tables rts b))).
Proof.
  intros Ht ev t H.
  revert t. refine (proj1 (Forall_forall _ _)
    (all_swap_data (fun ev => forall t, In t (event_tables ev) -> sc t = true)
       dry e tables rts _ _ b) ev H).
  - intros l m t [].
  - intros k o Hin. destruct (Ht k o Hin) as [Ho Hr].
    split; [intros t [<-|[]]; exact Ho|]. split; [intros t [<-|[]]; exact Ho|].
    split; [intros t [<-|[]]; exact Hr|].
    intros ks _. split; intros t [<-|[]]; exact Ho.
Qed.

Lemma names_delete (dry : bool) (rts : list (string * string)) :
  (forall t, In t (map snd rts) -> sc t = true) -> names_in sc (_delete_restore_tables dry rts).
Proof.
  induction rts as [|[k n] rts IH]; intros Hr; [apply names_in_nil|].
  cbn [_delete_restore_tables].
  assert (Hn : sc n = true) by (apply Hr; left; reflexivity).
  assert (IH' : names_in sc (_delete_restore_tables dry rts))
    by (apply IH; intros t Ht; apply Hr; right; exact Ht).
  destruct dry; names_step.
Qed.

End Steps.

Lemma run_names_scope (cfg : config) (e : env) (rp : datetime) :
  names_in (in_table_scope (tables_of cfg)) (run_trace cfg e rp).
Proof.
  set (sc := in_table_scope (tables_of cfg)).
  assert (Hr : forall t, In t (map snd (restore_tables_of cfg e rp)) -> sc t = true)
    by (intros t; apply restore_names_scope).
  assert (Ht : forall k o, In (k, o) (tables_of cfg) ->
             sc o = true /\ sc (lookup_key k (restore_tables_of cfg e rp)) = true).
  { intros k o H. split; [eapply scope_original; exact H|].
    unfold restore_tables_of. eapply lookup_restore_scope. exact H. }
  assert (Hcheck : names_in sc (fst (check_restore_tables cfg e rp))).
  { unfold check_restore_tables.
    pose proof (names_check_existing sc (describe e) _ Hr) as Hc.
    destruct (_check_existing_restore_tables _ _) as [evs ex]. cbn [fst] in Hc.
    destruct ex; cbn [fst]; [|exact Hc].
    apply names_in_app; [exact Hc|]. apply names_in_cons; [intros t []|].
    destruct (dry_run cfg); [apply names_in_nil|].
    intros ev t H Hin.
    assert (Hc' : In ev (_cleanup_existing_restore_tables
                          (_find_old_restore_tables (tables_of cfg)
                             (map snd (restore_tables_of cfg e rp)) (list_tables e))))
      by (destruct (_find_old_restore_tables _ _ _); [contradiction|exact H]).
    apply in_map_iff in Hc' as [n [<- Hn]]. destruct Hin as [<-|[]].
    apply find_old_spec in Hn as [_ [Hm _]]. now apply matches_scope. }
  intros ev t H Hin. apply run_shape in H.
  destruct H as [[l [m ->]]|[->|[->|[->|[->|[->|[->|[->|[H|H]]]]]]]]]; try contradiction.
  - exact (Hcheck ev t H Hin).
  - apply locked_pipeline_shape in H.
    destruct H as [[s [-> _]]|[H|[H|[H|[H|H]]]]]; [contradiction| | | | |].
    + exact (names_initiate sc _ _ _ _ _ Ht ev t H Hin).
    + exact (names_poll sc _ _ _ Hr ev t H Hin).
    + exact (names_verify sc _ _ _ _ Ht ev t H Hin).
    + exact (names_swap sc _ _ _ _ _ Ht ev t H Hin).
    + exact (names_delete sc _ _ Hr ev t H Hin).
Qed.

(** Every table a run names in a provider call (describe, delete, restore,
    scan, batch write) is one of the three tables of its environment or
    starts with one of them followed by "-restore-"; no such name belongs
    to the other environment (dev against prod). *)
Theorem run_stays_in_environment (cfg : config) (e : env) (rp : datetime) (ev : event) (t : string) :
  In ev (run_trace cfg e rp) -> In t (event_tables ev) ->
  in_environment (environment cfg) t = true /\
  (forall other, String.eqb other "dev" <> String.eqb (environment cfg) "dev" ->
     in_environment other t = false).
Proof.
  intros H Hin. pose proof (run_names_scope cfg e rp ev t H Hin) as Hs.
  unfold tables_of in Hs. split; [exact Hs|].
  intros other Hne. unfold in_environment.
  unfold _configure_table_names in *.
  destruct (String.eqb other "dev"), (String.eqb (environment cfg) "dev"); try congruence;
    (eapply scopes_apart_spec; [|exact Hs]; vm_compute; reflexivity).
Qed.


(** ** Polling, initiation, counts, reuse, result and swap *)

Lemma poll_round_outcome (obs : string -> describe_result) (rts : list (string * string)) :
  snd (poll_round obs rts) = round_outcome obs rts.
Proof.
  unfold round_outcome.
  induction rts as [|[k t] rest IH]; [reflexivity|].
  cbn [poll_round existsb forallb].
  destruct (obs t) as [s| |] eqn:Eo; cbn [describe_raises table_active orb andb];
    [| |reflexivity];
    destruct (poll_round obs rest) as [evs res]; cbn [snd] in *; subst res;
    destruct (existsb (fun '(_, t) => describe_raises (obs t)) rest),
      (forallb (fun '(_, t) => table_active (obs t)) rest);
    repeat match goal with
           | |- context [match ?s with EmptyString => _ | String _ _ => _ end] => destruct s
           | |- context [match ?a with Ascii _ _ _ _ _ _ _ _ => _ end] => destruct a
           | |- context [if ?b then _ else _] => is_var b; destruct b
           end; reflexivity.
Qed.

(** [_poll_restore_completion] (not dry run) returns [True] exactly when
    some poll round sees every restore table [ACTIVE] and every earlier
    round saw no describe error other than "not found" and at least one
    table not yet [ACTIVE]; a missing table keeps the loop waiting, any
    other describe error ends it with [False]. *)
Theorem poll_succeeds_iff (rts : list (string * string))
    (rounds : list (string -> describe_result)) :
  snd (_poll_restore_completion false rts rounds) = true <->
  exists pre obs post, rounds = (pre ++ obs :: post)%list /\
    Forall (fun o => round_outcome o rts = NotAllActive) pre /\
    round_outcome obs rts = AllActive.
Proof.
  induction rounds as [|o rest IH].
  - split; [discriminate|]. intros [pre [obs [post [H _]]]].
    destruct pre; discriminate.
  - cbn [_poll_restore_completion].
    pose proof (poll_round_outcome o rts) as Ho.
    destruct (poll_round o rts) as [evs res]. cbn [snd] in Ho. subst res.
    destruct (round_outcome o rts) eqn:E.
    + split; [intros _|reflexivity]. exists [], o, rest. auto.
    + destruct (_poll_restore_completion false rts rest) as [evs' ok].
      cbn [snd] in *. rewrite IH. split.
      * intros [pre [obs [post [-> [Hf Ha]]]]].
        exists (o :: pre), obs, post. auto.
      * intros [[|o' pre] [obs [post [Hr [Hf Ha]]]]]; injection Hr as <- Hr.
        { congruence. }
        inversion Hf; subst. exists pre, obs, post. auto.
    + split; [discriminate|].
      intros [[|o' pre] [obs [post [Hr [Hf Ha]]]]]; injection Hr as <- Hr.
      * congruence.
      * inversion Hf. congruence.
Qed.

(** When every restore request is accepted, [_initiate_pitr_restores]
    (not dry run) issues one [restore_table_to_point_in_time] per
    configured table, in order, from the original table to its restore
    table, and returns [True]. *)
Theorem initiate_all_accepted (acc : string -> bool) (fail : string -> restore_failure)
    (tables rts : list (string * string)) :
  Forall (fun '(_, o) => acc o = true) tables ->
  _initiate_pitr_restores false acc fail tables rts = (map (restore_request rts) tables, true).
Proof.
  induction tables as [|[k o] rest IH]; intros H; [reflexivity|].
  inversion H as [|x l Ho Hr]; subst. cbn [_initiate_pitr_restores].
  rewrite Ho, (IH Hr). reflexivity.
Qed.

(** When a restore request is rejected, [_initiate_pitr_restores] stops
    there and returns [False]: the tables before it have had their
    restores requested; for the rejected one, after the request, an
    invalid restore time is logged and the valid window looked up
    (describe_table on the original table, then describe_continuous_backups
    when the description has no earliest restorable time), and the failure
    is logged; no later table is restored. *)
Theorem initiate_stops_at_rejection (acc : string -> bool) (fail : string -> restore_failure)
    (pre post rts : list (string * string)) (k o : string) :
  Forall (fun '(_, o') => acc o' = true) pre -> acc o = false ->
  _initiate_pitr_restores false acc fail (pre ++ (k, o) :: post) rts =
  ((map (restore_request rts) pre
    ++ RestoreTableToPointInTime o (lookup_key k rts)
       :: window_diagnostics o (fail o)
       ++ [Log ERROR "Failed to initiate PITR restore"])%list, false).
Proof.
  intros Hpre Ho. induction pre as [|[k' o'] pre IH].
  - cbn [app _initiate_pitr_restores]. rewrite Ho. reflexivity.
  - inversion Hpre as [|x l Ho' Hr]; subst. cbn [app _initiate_pitr_restores].
    rewrite Ho', (IH Hr). reflexivity.
Qed.

(** [_verify_item_counts] (not dry run) returns [False] exactly when one of
    the count queries raises: whatever the counts, it succeeds when all of
    them can be read. *)
Theorem verify_fails_only_on_count_errors (count : string -> option nat)
    (tables rts : list (string * string)) :
  snd (_verify_item_counts false count tables rts) = forallb (counts_readable count rts) tables.
Proof.
  induction tables as [|[k o] rest IH]; [reflexivity|].
  cbn [_verify_item_counts forallb counts_readable].
  destruct (count o); [|reflexivity].
  destruct (count (lookup_key k rts)); [|reflexivity].
  destruct (classify_counts _ _).
  destruct (_verify_item_counts false count rest rts). exact IH.
Qed.

Lemma check_existing_found (d : string -> describe_result) (rts : list (string * string)) :
  (snd (_check_existing_restore_tables d rts) = []) <->
  existsb (fun '(_, t) => described (d t)) rts = false.
Proof.
  induction rts as [|[k t] rest IH]; [split; reflexivity|].
  cbn [_check_existing_restore_tables existsb].
  destruct (_check_existing_restore_tables d rest) as [evs ex]. cbn [snd] in *.
  destruct (d t); cbn [described orb]; [split; discriminate|exact IH|exact IH].
Qed.

(** [run] reuses the restore tables ([skip_restore]) exactly when the
    describe call finds at least one of this recovery point's restore
    tables, whatever its status; a describe error other than "not found"
    counts as absent. *)
Theorem skip_restore_iff_described (cfg : config) (e : env) (rp : datetime) :
  snd (check_restore_tables cfg e rp) =
  existsb (fun '(_, t) => described (describe e t)) (restore_tables_of cfg e rp).
Proof.
  unfold check_restore_tables.
  pose proof (check_existing_found (describe e) (restore_tables_of cfg e rp)) as H.
  destruct (_check_existing_restore_tables _ _) as [evs [|x ex]]; cbn [snd] in *.
  - symmetry. apply H. reflexivity.
  - destruct (existsb _ _); [reflexivity|]. destruct H as [_ H]. discriminate (H eq_refl).
Qed.

(** [_find_old_restore_tables] returns exactly the listed tables that start
    with a configured table name followed by "-restore-" and are not among
    the current restore table names. *)
Theorem find_old_iff (tables : list (string * string)) (current listed : list string) (n : string) :
  In n (_find_old_restore_tables tables current listed) <->
  In n listed /\ matches_restore_pattern tables n = true /\ mem_name n current = false.
Proof.
  split; [apply find_old_spec|].
  induction listed as [|x listed IH]; cbn [In _find_old_restore_tables]; [tauto|].
  intros [[<-|Hin] [Hm Hc]].
  - rewrite Hm, Hc. left. reflexivity.
  - destruct (matches_restore_pattern tables x), (mem_name x current);
      try right; apply IH; auto.
Qed.

Lemma locked_pipeline_result (cfg : config) (e : env) (rp : datetime) (skip : bool) :
  snd (locked_pipeline cfg e rp skip) =
  (skip || snd (_initiate_pitr_restores (dry_run cfg) (restore_accepted e) (restore_error e)
                  (tables_of cfg) (restore_tables_of cfg e rp)))
  && snd (_poll_restore_completion (dry_run cfg) (restore_tables_of cfg e rp) (poll_observations e))
  && snd (_verify_item_counts (dry_run cfg) (item_count e) (tables_of cfg)
            (restore_tables_of cfg e rp))
  && returned_true (snd (_swap_data (dry_run cfg) e (tables_of cfg) (restore_tables_of cfg e rp)
                           (swap_budget e))).
Proof.
  unfold locked_pipeline.
  destruct skip; cbn [orb];
    [|destruct (_initiate_pitr_restores _ _ _ _ _) as [ev_init [|]]; cbn [snd negb andb];
      [|reflexivity]];
    (destruct (_poll_restore_completion _ _ _) as [ev_poll [|]]; cbn [snd negb andb];
      [|reflexivity]);
    (destruct (_verify_item_counts _ _ _ _) as [ev_count [|]]; cbn [snd negb andb];
      [|reflexivity]);
    destruct (_swap_data _ _ _ _ _) as [[ev_swap b1] sw]; cbn [snd];
    destruct (returned_true sw); reflexivity.
Qed.

Lemma locked_pipeline_failed (cfg : config) (e : env) (rp : datetime) (skip : bool) :
  snd (locked_pipeline cfg e rp skip) = false ->
  exists pre reason, fst (locked_pipeline cfg e rp skip) = (pre ++ [Status (FAILED reason)])%list.
Proof.
  unfold locked_pipeline.
  destruct (if skip then _ else _) as [ev_init [|]]; cbn [negb];
    [|intros _; do 2 eexists; reflexivity].
  destruct (_poll_restore_completion _ _ _) as [ev_poll [|]]; cbn [negb];
    [|intros _; exists (ev_init ++ ev_poll)%list; eexists; cbn [fst];
      rewrite <- app_assoc; reflexivity].
  destruct (_verify_item_counts _ _ _ _) as [ev_count [|]]; cbn [negb snd];
    [|intros _; exists (ev_init ++ ev_poll ++ ev_count)%list; eexists; cbn [fst];
      rewrite <- !app_assoc; reflexivity].
  destruct (_swap_data _ _ _ _ _) as [[ev_swap b1] sw].
  destruct (returned_true sw); cbn [negb snd];
    [discriminate|intros _; exists (ev_init ++ ev_poll ++ ev_count ++ ev_swap)%list; eexists;
      cbn [fst]; rewrite <- !app_assoc; reflexivity].
Qed.

(** [run] returns [True] exactly when the recovery point is valid, the lock
    is acquired, the restores are reused or all accepted, polling sees all
    restore tables [ACTIVE] in time, every item count can be read and
    [_swap_data] returns [True]; the deletion of the restore tables never
    makes it fail. *)
Theorem run_succeeds_iff (cfg : config) (e : env) (rp : datetime) :
  snd (run cfg e rp) = true <->
  validated_and_locked e rp = true /\ initiation_ok cfg e rp = true /\
  snd (_poll_restore_completion (dry_run cfg) (restore_tables_of cfg e rp)
         (poll_observations e)) = true /\
  snd (_verify_item_counts (dry_run cfg) (item_count e) (tables_of cfg)
         (restore_tables_of cfg e rp)) = true /\
  returned_true (snd (_swap_data (dry_run cfg) e (tables_of cfg) (restore_tables_of cfg e rp)
                        (swap_budget e))) = true.
Proof.
  unfold validated_and_locked, initiation_ok, run.
  pose proof (locked_pipeline_result cfg e rp (snd (check_restore_tables cfg e rp))) as Hl.
  destruct (check_restore_tables cfg e rp) as [ev_check skip]. cbn [snd] in *.
  destruct (validation_ok _); cbn [negb andb];
    [|split; [discriminate|intros [H _]; discriminate]].
  destruct (lock_acquired e); cbn [negb];
    [|split; [discriminate|intros [H _]; discriminate]].
  destruct (locked_pipeline cfg e rp skip) as [ev_body ok]. cbn [snd] in Hl. subst ok.
  rewrite <- !andb_true_iff.
  destruct ((skip || _) && _ && _ && _) eqn:E; rewrite ?andb_true_l;
    [split; [intros _; rewrite !andb_assoc; exact E|reflexivity]|].
  split; [discriminate|]. rewrite !andb_assoc. congruence.
Qed.

(** The status file always ends with a terminal record that agrees with the
    returned value: [COMPLETED] when [run] returns [True], [FAILED] (with
    some reason) when it returns [False]. *)
Theorem run_status_agrees (cfg : config) (e : env) (rp : datetime) :
  (snd (run cfg e rp) = true /\ final_status (run_trace cfg e rp) = Some COMPLETED) \/
  (snd (run cfg e rp) = false /\
   exists reason, final_status (run_trace cfg e rp) = Some (FAILED reason)).
Proof.
  unfold run_trace, run.
  pose proof (locked_pipeline_failed cfg e rp (snd (check_restore_tables cfg e rp))) as Hf.
  destruct (check_restore_tables cfg e rp) as [ev_check skip]. cbn [snd] in *.
  destruct (negb _); cbn [fst snd];
    [right; split; [reflexivity|eexists; final_status_simpl; reflexivity]|].
  destruct (negb _); cbn [fst snd];
    [right; split; [reflexivity|eexists; final_status_simpl; reflexivity]|].
  destruct (locked_pipeline cfg e rp skip) as [ev_body [|]]; cbn [fst snd] in *.
  - left. split; [reflexivity|]. final_status_simpl. reflexivity.
  - right. split; [reflexivity|].
    destruct (Hf eq_refl) as [pre [reason ->]]. exists reason.
    final_status_simpl. reflexivity.
Qed.

(** When [run] gets to the swap (valid recovery point, lock held, restores
    initiated or reused, every restore table [ACTIVE] in time, item counts
    read) and [_swap_data] does not return [True] (a call of the swap
    raised), the run records [FAILED "Data swap failed"] and returns
    [False], and none of this recovery point's restore tables is deleted:
    there is no rollback. *)
Theorem run_swap_failure (cfg : config) (e : env) (rp : datetime)
    (Hok : validated_and_locked e rp = true)
    (Hinit : initiation_ok cfg e rp = true)
    (Hpoll : snd (_poll_restore_completion (dry_run cfg) (restore_tables_of cfg e rp)
                    (poll_observations e)) = true)
    (Hcount : snd (_verify_item_counts (dry_run cfg) (item_count e) (tables_of cfg)
                     (restore_tables_of cfg e rp)) = true)
    (Hswap : returned_true (snd (_swap_data (dry_run cfg) e (tables_of cfg)
                                   (restore_tables_of cfg e rp) (swap_budget e))) = false) :
  snd (run cfg e rp) = false /\
  final_status (run_trace cfg e rp) = Some (FAILED "Data swap failed") /\
  (forall t, In t (map snd (restore_tables_of cfg e rp)) ->
     ~ In (DeleteTable t) (run_trace cfg e rp)).
Proof.
  unfold validated_and_locked in Hok. apply andb_prop in Hok as [Hv Hl].
  unfold initiation_ok in Hinit.
  pose proof (check_restore_tables_deletions cfg e rp) as Hdel.
  unfold run_trace, run.
  destruct (check_restore_tables cfg e rp) as [ev_check skip]. cbn [fst snd] in *.
  rewrite Hv, Hl. cbn [negb].
  set (rts := restore_tables_of cfg e rp) in *.
  assert (Hbody : exists ev_init,
     locked_pipeline cfg e rp skip =
       ((ev_init ++ fst (_poll_restore_completion (dry_run cfg) rts (poll_observations e))
         ++ fst (_verify_item_counts (dry_run cfg) (item_count e) (tables_of cfg) rts)
         ++ fst (fst (_swap_data (dry_run cfg) e (tables_of cfg) rts (swap_budget e)))
         ++ [Status (FAILED "Data swap failed")])%list, false) /\
     (forall ev, In ev ev_init ->
        (exists l m, ev = Log l m) \/ (exists s t, ev = RestoreTableToPointInTime s t) \/
        (exists t, ev = DescribeTable t) \/ (exists t, ev = DescribeContinuousBackups t))).
  { unfold locked_pipeline. fold rts.
    pose proof (initiate_shape (dry_run cfg) (restore_accepted e) (restore_error e)
                  (tables_of cfg) rts) as Hsh.
    assert (Hrest : forall ev_init,
      (let '(ev_poll, poll_ok) := _poll_restore_completion (dry_run cfg) rts (poll_observations e) in
       if negb poll_ok then
         ((ev_init ++ ev_poll ++ [Status (FAILED "Restore operation timed out")])%list, false)
       else
       let '(ev_count, count_ok) := _verify_item_counts (dry_run cfg) (item_count e) (tables_of cfg) rts in
       if negb count_ok then
         ((ev_init ++ ev_poll ++ ev_count ++ [Status (FAILED "Item count mismatch")])%list, false)
       else
       let '(ev_swap, _, swapped) := _swap_data (dry_run cfg) e (tables_of cfg) rts (swap_budget e) in
       if negb (returned_true swapped) then
         ((ev_init ++ ev_poll ++ ev_count ++ ev_swap ++ [Status (FAILED "Data swap failed")])%list,
          false)
       else
       let ev_delete := _delete_restore_tables (dry_run cfg) rts in
       ((ev_init ++ ev_poll ++ ev_count ++ ev_swap ++ ev_delete)%list, true))
      = ((ev_init ++ fst (_poll_restore_completion (dry_run cfg) rts (poll_observations e))
          ++ fst (_verify_item_counts (dry_run cfg) (item_count e) (tables_of cfg) rts)
          ++ fst (fst (_swap_data (dry_run cfg) e (tables_of cfg) rts (swap_budget e)))
          ++ [Status (FAILED "Data swap failed")])%list, false)).
    { intros ev_init.
      destruct (_poll_restore_completion _ _ _) as [ev_poll ok_poll].
      cbn [snd] in Hpoll. subst ok_poll.
      destruct (_verify_item_counts _ _ _ _) as [ev_count ok_count].
      cbn [snd] in Hcount. subst ok_count.
      destruct (_swap_data _ _ _ _ _) as [[ev_swap b1] sw]. cbn [snd] in Hswap.
      cbv beta iota zeta. rewrite Hswap. reflexivity. }
    destruct skip.
    - exists []. split; [apply Hrest|intros ev []].
    - destruct (_initiate_pitr_restores _ _ _ _ _) as [ev_init ok_init].
      cbn [orb snd fst] in Hinit, Hsh. subst ok_init.
      exists ev_init. split; [apply Hrest|exact Hsh]. }
  destruct Hbody as [ev_init [-> Hinit_sh]]. cbn [fst snd].
  split; [reflexivity|split].
  - final_status_simpl. reflexivity.
  - intros t Ht H.
    repeat (apply in_app_iff in H as [H|H] || destruct H as [H|H]);
      try discriminate H; try contradiction.
    all: first
      [ destruct (dry_run cfg); cbn in H; intuition discriminate
      | destruct (Hdel t H) as [_ [_ [Hc _]]]; exact (Hc Ht)
      | destruct (Hinit_sh _ H) as [[l [m Hx]]|[[s [u Hx]]|[[u Hx]|[u Hx]]]]; discriminate Hx
      | destruct (poll_shape _ _ _ _ H) as [[l [m Hx]]|[u Hx]]; discriminate Hx
      | destruct (verify_shape _ _ _ _ _ H) as [[l [m Hx]]|[u Hx]]; discriminate Hx
      | destruct (swap_shape _ _ _ _ _ _ H)
          as [[l [m Hx]]|[[u Hx]|[[u Hx]|[[u [ks Hx]]|[u [ks Hx]]]]]]; discriminate Hx ].
Qed.

Lemma apply_trace_app (unprocessed : event -> list nat) (st : store) (l1 l2 : list event) :
  apply_trace unprocessed st (l1 ++ l2)
  = apply_trace unprocessed (apply_trace unprocessed st l1) l2.
Proof. apply fold_left_app. Qed.

Lemma mem_nat_spec (x : nat) (l : list nat) : mem_nat x l = true <-> In x l.
Proof.
  unfold mem_nat. rewrite existsb_exists. split.
  - intros [y [Hy E]]. apply Nat.eqb_eq in E. now subst.
  - intros H. exists x. split; [exact H|apply Nat.eqb_refl].
Qed.

Lemma processed_nil (ks : list nat) : processed [] ks = ks.
Proof. induction ks as [|x ks IH]; [reflexivity|]. cbn. f_equal. exact IH. Qed.

(** When no batch of the trace comes back with unprocessed items, every
    request of it is carried out. *)
Lemma apply_trace_processed (unprocessed : event -> list nat) (st : store) (tr : list event) :
  (forall ev, In ev tr -> unprocessed ev = []) ->
  apply_trace unprocessed st tr = apply_trace (fun _ => []) st tr.
Proof.
  revert st. induction tr as [|ev tr IH]; intros st H; [reflexivity|].
  unfold apply_trace. cbn [fold_left].
  assert (Hev : apply_event unprocessed st ev = apply_event (fun _ => []) st ev).
  { destruct ev; cbn [apply_event]; try reflexivity;
      rewrite (H _ (or_introl eq_refl)); reflexivity. }
  rewrite Hev. apply IH. intros ev' Hin. apply H. right. exact Hin.
Qed.

Lemma scan_calls_forall (P : event -> Prop) (fuel : nat) (t : string) (table_rows : list nat)
    (pg start : nat) (on_page : list nat -> list event) :
  P (Scan t) -> (forall items, Forall P (on_page items)) ->
  Forall P (scan_calls fuel t table_rows pg start on_page).
Proof.
  intros Hs Hp. revert start. induction fuel as [|fuel IH]; intros start; [constructor|].
  cbn [scan_calls]. destruct (scan_page table_rows pg start) as [items [k|]].
  - constructor; [exact Hs|]. apply Forall_app. split; [apply Hp|apply IH].
  - constructor; [exact Hs|]. rewrite app_nil_r. apply Hp.
Qed.

Lemma Forall_map_batches (P : event -> Prop) (mk : list nat -> event) (items : list nat) :
  (forall ks, P (mk ks)) -> Forall P (map mk (batches items)).
Proof. intros H. apply Forall_forall. intros ev Hin. apply in_map_iff in Hin as [ks [<- _]]. apply H. Qed.

Lemma apply_deletes (t : string) (tr : list event) (st : store) (u : string) :
  Forall (deletes_only t) tr ->
  apply_trace (fun _ => []) st tr u =
  if String.eqb u t
  then filter (fun x => negb (mem_nat x (concat (batches_in tr)))) (st u) else st u.
Proof.
  revert st. induction tr as [|ev tr IH]; intros st H.
  - cbn. destruct (String.eqb u t); [|reflexivity].
    induction (st u) as [|x l IHl]; [reflexivity|]. cbn. f_equal. exact IHl.
  - inversion H as [|? ? Hev Htr]; subst. cbn [apply_trace fold_left].
    change (fold_left (apply_event (fun _ => [])) tr (apply_event (fun _ => []) st ev)) with
      (apply_trace (fun _ => []) (apply_event (fun _ => []) st ev) tr).
    rewrite (IH _ Htr).
    destruct ev; cbn in Hev; try contradiction; cbn [apply_event];
      try (change (batches_in (_ :: tr)) with (batches_in tr); reflexivity).
    subst table. rewrite processed_nil.
    change (batches_in (BatchDelete t keys :: tr)) with (keys :: batches_in tr).
    cbn [concat]. destruct (String.eqb u t); [|reflexivity].
    induction (st u) as [|x l IHl]; [reflexivity|].
    unfold mem_nat in *. cbn [filter]. rewrite existsb_app.
    destruct (existsb (Nat.eqb x) keys); cbn [negb orb].
    + exact IHl.
    + cbn [filter]. destruct (existsb (Nat.eqb x) (concat (batches_in tr))); cbn [negb];
        [exact IHl|f_equal; exact IHl].
Qed.

Lemma NoDup_app_disjoint (l1 l2 : list nat) (x : nat) :
  NoDup (l1 ++ l2) -> In x l1 -> ~ In x l2.
Proof.
  induction l1 as [|a l1 IH]; [intros _ []|].
  intros H [<-|Hin] Hx; inversion H as [|? ? Hna Hnd]; subst.
  - apply Hna. apply in_or_app. right. exact Hx.
  - exact (IH Hnd Hin Hx).
Qed.

Lemma filter_keep (l items : list nat) :
  (forall x, In x items -> ~ In x l) ->
  filter (fun x => negb (mem_nat x items)) l = l.
Proof.
  intros H. induction l as [|x l IH]; [reflexivity|]. cbn [filter].
  destruct (mem_nat x items) eqn:E.
  - apply mem_nat_spec in E. exfalso. apply (H x E). left. reflexivity.
  - cbn [negb]. f_equal. apply IH. intros y Hy Hl. apply (H y Hy). right. exact Hl.
Qed.

Lemma apply_puts (t : string) (tr : list event) (st : store) (u : string) :
  Forall (puts_only t) tr -> NoDup (concat (batches_in tr)) ->
  (forall x, In x (concat (batches_in tr)) -> ~ In x (st t)) ->
  apply_trace (fun _ => []) st tr u =
  if String.eqb u t then (st u ++ concat (batches_in tr))%list else st u.
Proof.
  revert st. induction tr as [|ev tr IH]; intros st H Hnd Hdis.
  - cbn. destruct (String.eqb u t); [symmetry; apply app_nil_r|reflexivity].
  - inversion H as [|? ? Hev Htr]; subst. cbn [apply_trace fold_left].
    change (fold_left (apply_event (fun _ => [])) tr (apply_event (fun _ => []) st ev)) with
      (apply_trace (fun _ => []) (apply_event (fun _ => []) st ev) tr).
    destruct ev; cbn in Hev; try contradiction; cbn [apply_event];
      try (change (batches_in (_ :: tr)) with (batches_in tr) in *; apply IH; assumption).
    subst table. rewrite processed_nil.
    change (batches_in (BatchPut t items :: tr)) with (items :: batches_in tr) in *.
    cbn [concat] in *.
    assert (Hkeep : forall v, String.eqb v t = true ->
              filter (fun x => negb (mem_nat x items)) (st v) = st v).
    { intros v Ev. apply String.eqb_eq in Ev. subst v. apply filter_keep.
      intros x Hx. apply Hdis. apply in_or_app. left. exact Hx. }
    rewrite (IH _ Htr).
    + destruct (String.eqb u t) eqn:E; [|reflexivity].
      rewrite (Hkeep u E), <- app_assoc. reflexivity.
    + apply NoDup_app_remove_l in Hnd. exact Hnd.
    + intros x Hx. rewrite String.eqb_refl, (Hkeep t (String.eqb_refl t)).
      intros Hin. apply in_app_iff in Hin as [Hin|Hin].
      * apply (Hdis x); [apply in_or_app; right; exact Hx|exact Hin].
      * exact (NoDup_app_disjoint _ _ x Hnd Hin Hx).
Qed.

Lemma filter_self_empty (l : list nat) : filter (fun x => negb (mem_nat x l)) l = [].
Proof.
  destruct (filter _ l) as [|y r] eqn:E; [reflexivity|].
  assert (Hy : In y (filter (fun x => negb (mem_nat x l)) l)) by (rewrite E; left; reflexivity).
  apply filter_In in Hy as [Hy Hn]. apply mem_nat_spec in Hy. rewrite Hy in Hn. discriminate.
Qed.

Lemma swap_table_store (e : env) (o r : string) (st : store) (u : string) :
  (0 < page_size e)%nat -> st o = rows e o -> NoDup (rows e r) ->
  apply_trace (fun _ => []) st (swap_table_calls e o r) u
  = if String.eqb u o then rows e r else st u.
Proof.
  intros Hpg Ho Hnd. unfold swap_table_calls. rewrite apply_trace_app.
  assert (Hcl : forall v, apply_trace (fun _ => []) st (clear_table_calls o (rows e o) (page_size e)) v =
                          if String.eqb v o then [] else st v).
  { intros v. rewrite apply_deletes with (t := o).
    - rewrite clear_table_batches.
      destruct (flat_map_batches_concat
                  (scan_pages (scan_fuel (rows e o)) (rows e o) (page_size e) 0)) as [Hc _].
      rewrite Hc, scan_pages_full by exact Hpg.
      destruct (String.eqb v o) eqn:E; [|reflexivity].
      apply String.eqb_eq in E. subst v. rewrite Ho. apply filter_self_empty.
    - unfold clear_table_calls. constructor; [exact I|].
      apply scan_calls_forall; [exact I|]. intros items. apply Forall_map_batches.
      intros ks. reflexivity. }
  assert (Hcb : concat (batches_in (copy_table_calls r o (rows e r) (page_size e))) = rows e r).
  { rewrite copy_table_batches.
    destruct (flat_map_batches_concat
                (scan_pages (scan_fuel (rows e r)) (rows e r) (page_size e) 0)) as [Hc _].
    rewrite Hc. apply scan_pages_full. exact Hpg. }
  rewrite apply_puts with (t := o).
  - rewrite Hcb, Hcl. destruct (String.eqb u o); reflexivity.
  - unfold copy_table_calls. apply scan_calls_forall; [exact I|]. intros items.
    apply Forall_map_batches. intros ks. reflexivity.
  - rewrite Hcb. exact Hnd.
  - rewrite Hcl, String.eqb_refl. intros x _ [].
Qed.

Lemma swap_calls_store (e : env) (tables rts : list (string * string)) (st : store) (u : string) :
  (0 < page_size e)%nat -> NoDup (map snd tables) ->
  Forall (fun '(k, o) => st o = rows e o /\ NoDup (rows e (lookup_key k rts))) tables ->
  apply_trace (fun _ => []) st (swap_calls e tables rts) u =
  match find (fun '(_, o) => String.eqb u o) tables with
  | Some (k, _) => rows e (lookup_key k rts)
  | None => st u
  end.
Proof.
  intros Hpg. revert st. induction tables as [|[k o] rest IH]; intros st Hnd Hf; [reflexivity|].
  inversion Hf as [|? ? Hko Hf']; subst. destruct Hko as [Ho Hr]. inversion Hnd as [|? ? Hno Hnd']; subst.
  cbn [swap_calls find]. rewrite apply_trace_app.
  set (st' := apply_trace (fun _ => []) st (swap_table_calls e o (lookup_key k rts))).
  assert (Hst' : forall v, st' v = if String.eqb v o then rows e (lookup_key k rts) else st v)
    by (intros v; apply swap_table_store; assumption).
  rewrite IH; [|exact Hnd'|].
  - rewrite Hst'. destruct (String.eqb u o) eqn:E; [|reflexivity].
    apply String.eqb_eq in E. subst u.
    destruct (find (fun '(_, o0) => String.eqb o o0) rest) as [[k' o']|] eqn:Hfind; [|reflexivity].
    apply find_some in Hfind as [Hin Heq]. apply String.eqb_eq in Heq. subst o'.
    exfalso. apply Hno. apply in_map_iff. exists (k', o). auto.
  - apply Forall_forall. intros [k' o'] Hin.
    rewrite Forall_forall in Hf'. destruct (Hf' _ Hin) as [Ho' Hr'].
    split; [|exact Hr']. rewrite Hst'.
    destruct (String.eqb o' o) eqn:E; [|exact Ho'].
    apply String.eqb_eq in E. subst o'. exfalso. apply Hno. apply in_map_iff. exists (k', o). auto.
Qed.

(** When [_swap_data] (not dry run) returns [True] and no batch_write_item
    comes back with [UnprocessedItems], applying its batch writes to the
    tables' items leaves each configured table holding exactly the items of
    its restore table and every other table unchanged, given pages of at
    least one row, distinct configured tables, scans that read each
    production table's current items, and restore tables without duplicate
    keys. *)
Theorem swap_data_replaces (e : env) (tables rts : list (string * string)) (b : option nat)
    (unprocessed : event -> list nat) (st : store) (u : string) :
  (0 < page_size e)%nat -> NoDup (map snd tables) ->
  Forall (fun '(k, o) => st o = rows e o /\ NoDup (rows e (lookup_key k rts))) tables ->
  snd (_swap_data false e tables rts b) = Some true ->
  (forall ev, In ev (fst (fst (_swap_data false e tables rts b))) -> unprocessed ev = []) ->
  apply_trace unprocessed st (fst (fst (_swap_data false e tables rts b))) u =
  match find (fun '(_, o) => String.eqb u o) tables with
  | Some (k, _) => rows e (lookup_key k rts)
  | None => st u
  end.
Proof.
  intros Hpg Hnd Hf Hok Hun.
  rewrite (apply_trace_processed unprocessed st _ Hun), (swap_data_result e tables rts b Hok).
  apply swap_calls_store; assumption.
Qed.


(** ** The older script: lemmas and theorems *)

(** The older script validates the recovery point before any provider call:
    nothing before the validation step calls DynamoDB. *)
Theorem old_run_validates_first (cfg : config) (e : env) (rp : datetime) (c1 c2 : datetime) :
  none_of is_provider_call (before_validate (old_run_trace cfg e rp c1 c2)) = true.
Proof.
  unfold old_run_trace, old_run.
  destruct (negb _); [|destruct (negb _); [|destruct (old_locked_pipeline _ _ _ _) as [ev [|]]]];
    cbn [fst]; destruct (dry_run cfg); reflexivity.
Qed.

(** In the older script an invalid recovery point ends the run [FAILED]
    ("Invalid restore point") without any provider call. *)
Theorem old_run_invalid_no_calls (cfg : config) (e : env) (rp : datetime) (c1 c2 : datetime) :
  validation_ok (old_validate_restore_point e rp) = false ->
  none_of is_provider_call (old_run_trace cfg e rp c1 c2) = true /\
  final_status (old_run_trace cfg e rp c1 c2) = Some (FAILED "Invalid restore point") /\
  snd (old_run cfg e rp c1 c2) = false.
Proof.
  intros H. unfold old_run_trace, old_run. rewrite H. cbn [negb fst snd].
  split; [|split; [final_status_simpl; reflexivity|reflexivity]].
  destruct (dry_run cfg); reflexivity.
Qed.

(** The older [_verify_item_counts] (not dry run) returns [True] exactly when
    every original table and its restore table have readable and equal item
    counts. *)
Theorem old_verify_strict (count : string -> option nat) (tables rts : list (string * string)) :
  snd (old_verify_item_counts false count tables rts) = forallb (counts_equal count rts) tables.
Proof.
  induction tables as [|[k o] rest IH]; [reflexivity|].
  cbn [old_verify_item_counts forallb counts_equal].
  destruct (count o); [|reflexivity].
  destruct (count (lookup_key k rts)); [|reflexivity].
  destruct (Nat.eqb n n0); [|reflexivity].
  destruct (old_verify_item_counts false count rest rts). exact IH.
Qed.

Lemma old_verify_no_write (dry : bool) (count : string -> option nat) (tables rts : list (string * string)) :
  none_of is_item_write (fst (old_verify_item_counts dry count tables rts)) = true.
Proof.
  induction tables as [|[k o] rest IH]; [reflexivity|]. cbn [old_verify_item_counts].
  destruct dry.
  - destruct (old_verify_item_counts true count rest rts). exact IH.
  - destruct (count o); [|reflexivity]. destruct (count (lookup_key k rts)); [|reflexivity].
    destruct (Nat.eqb _ _); [|reflexivity].
    destruct (old_verify_item_counts false count rest rts). exact IH.
Qed.

Lemma old_swap_no_write (dry : bool) (tables rts : list (string * string)) :
  none_of is_item_write (fst (old_swap_data dry tables rts)) = true.
Proof.
  induction tables as [|[k o] rest IH]; [reflexivity|]. cbn [old_swap_data].
  destruct dry; [|reflexivity]. destruct (old_swap_data true rest rts). exact IH.
Qed.

Lemma old_swap_fails (tables rts : list (string * string)) :
  tables <> [] -> snd (old_swap_data false tables rts) = false.
Proof. destruct tables as [|[k o] rest]; [congruence|reflexivity]. Qed.

Lemma none_of_item_write_shape (l : list event) :
  (forall ev, In ev l -> is_log_or_describe ev \/ exists t, ev = DeleteTable t) ->
  none_of is_item_write l = true.
Proof.
  intros H. apply none_of_spec. intros ev Hin.
  destruct (H ev Hin) as [[[lv [m ->]]|[t ->]]|[t ->]]; reflexivity.
Qed.

Lemma old_initiate_shape (dry : bool) (acc : string -> bool) (tables rts : list (string * string)) ev :
  In ev (fst (old_initiate_pitr_restores dry acc tables rts)) ->
  (exists l m, ev = Log l m) \/ (exists s t, ev = RestoreTableToPointInTime s t).
Proof.
  induction tables as [|[k o] tables IH]; simpl; [tauto|].
  destruct (old_initiate_pitr_restores dry acc tables rts) as [evs ok]. simpl in IH.
  destruct dry; [|destruct (acc o)]; simpl; intros H;
    repeat (destruct H as [H|H]; [subst; eauto|]); eauto; contradiction.
Qed.

Lemma old_initiate_no_write (dry : bool) (acc : string -> bool) (tables rts : list (string * string)) :
  none_of is_item_write (fst (old_initiate_pitr_restores dry acc tables rts)) = true.
Proof.
  apply none_of_spec. intros ev Hin.
  destruct (old_initiate_shape _ _ _ _ ev Hin) as [[l [m ->]]|[s [t ->]]]; reflexivity.
Qed.

Lemma poll_no_write (dry : bool) (rts : list (string * string)) (rounds : list (string -> describe_result)) :
  none_of is_item_write (fst (_poll_restore_completion dry rts rounds)) = true.
Proof.
  apply none_of_item_write_shape. intros ev Hin. left. exact (poll_shape _ _ _ ev Hin).
Qed.

Lemma delete_no_write (dry : bool) (rts : list (string * string)) :
  none_of is_item_write (_delete_restore_tables dry rts) = true.
Proof.
  apply none_of_item_write_shape. intros ev Hin.
  destruct (delete_shape _ _ ev Hin) as [H|[t [-> _]]]; [left; left; exact H|right; eauto].
Qed.

Lemma tables_of_nonempty (cfg : config) : tables_of cfg <> [].
Proof. unfold tables_of, _configure_table_names. destruct (String.eqb _ _); discriminate. Qed.

(** The older script can never finish a real (not dry) restore: its
    [_clear_table] raises on the first [batch_write_item()] call, so a run
    never returns [True], never records [COMPLETED] and never writes or
    deletes an item. *)
Theorem old_run_never_swaps (cfg : config) (e : env) (rp : datetime) (c1 c2 : datetime) :
  dry_run cfg = false ->
  snd (old_run cfg e rp c1 c2) = false /\
  final_status (old_run_trace cfg e rp c1 c2) <> Some COMPLETED /\
  none_of is_item_write (old_run_trace cfg e rp c1 c2) = true.
Proof.
  intros Hdry. unfold old_run_trace, old_run. rewrite Hdry.
  destruct (negb (validation_ok _));
    [cbn [fst snd]; split; [reflexivity|split; [final_status_simpl; discriminate|reflexivity]]|].
  destruct (negb (lock_acquired e));
    [cbn [fst snd]; split; [reflexivity|split; [final_status_simpl; discriminate|reflexivity]]|].
  assert (Hbody : forall ni np,
    snd (old_locked_pipeline cfg e ni np) = false /\
    (exists pre s, fst (old_locked_pipeline cfg e ni np) = (pre ++ [Status s])%list /\
                   s <> COMPLETED) /\
    none_of is_item_write (fst (old_locked_pipeline cfg e ni np)) = true).
  { intros ni np. unfold old_locked_pipeline. rewrite Hdry.
    pose proof (old_initiate_no_write false (restore_accepted e) (tables_of cfg) ni) as H1.
    pose proof (poll_no_write false np (poll_observations e)) as H2.
    pose proof (old_verify_no_write false (item_count e) (tables_of cfg) np) as H3.
    pose proof (old_swap_no_write false (tables_of cfg) np) as H4.
    pose proof (old_swap_fails (tables_of cfg) np (tables_of_nonempty cfg)) as H5.
    destruct (old_initiate_pitr_restores _ _ _ _) as [ev_init [|]]; cbn [fst snd negb] in *;
      [|split; [reflexivity|split; [do 2 eexists; split; [reflexivity|discriminate]|
                                    split_none_of; rewrite H1; reflexivity]]].
    destruct (_poll_restore_completion _ _ _) as [ev_poll [|]]; cbn [fst snd negb] in *;
      [|split; [reflexivity|split; [exists (ev_init ++ ev_poll)%list; eexists;
          split; [rewrite <- app_assoc; reflexivity|discriminate]|
          split_none_of; rewrite H1, H2; reflexivity]]].
    destruct (old_verify_item_counts _ _ _ _) as [ev_count [|]]; cbn [fst snd negb] in *;
      [|split; [reflexivity|split; [exists (ev_init ++ ev_poll ++ ev_count)%list; eexists;
          split; [rewrite <- !app_assoc; reflexivity|discriminate]|
          split_none_of; rewrite H1, H2, H3; reflexivity]]].
    destruct (old_swap_data _ _ _) as [ev_swap ok]; cbn [fst snd negb] in *. subst ok.
    cbn [negb fst snd].
    split; [reflexivity|split; [exists (ev_init ++ ev_poll ++ ev_count ++ ev_swap)%list; eexists;
          split; [rewrite <- !app_assoc; reflexivity|discriminate]|
          split_none_of; rewrite H1, H2, H3, H4; reflexivity]]. }
  destruct (Hbody (old_get_restore_table_names (tables_of cfg) c1)
                  (old_get_restore_table_names (tables_of cfg) c2)) as [Hok [[pre [s [Hev Hs]]] Hw]].
  destruct (old_locked_pipeline _ _ _ _) as [ev_body ok]. cbn [fst snd] in *. subst ok.
  cbn [fst snd]. split; [reflexivity|split].
  - subst ev_body. final_status_simpl. congruence.
  - split_none_of. rewrite Hw. reflexivity.
Qed.

Lemma strftime_token_length (d : datetime) : String.length (strftime_token d) = 14%nat.
Proof. unfold strftime_token. rewrite !string_length_append, !pad_length. reflexivity. Qed.

(** Restore table names built from two clock readings in different
    seconds never coincide, whatever the original tables. *)
Lemma restore_names_apart (o1 o2 : string) (c1 c2 : datetime) :
  fields_in_range c1 -> fields_in_range c2 -> wall_second c1 <> wall_second c2 ->
  restore_table_name o1 (strftime_token c1) <> restore_table_name o2 (strftime_token c2).
Proof.
  intros R1 R2 Hne H. unfold restore_table_name in H.
  rewrite <- !string_append_assoc in H.
  assert (Hl : String.length (o1 ++ "-restore-") = String.length (o2 ++ "-restore-")).
  { apply (f_equal String.length) in H.
    rewrite !string_length_append, !strftime_token_length in H.
    rewrite !string_length_append. lia. }
  apply string_append_inj in H as [_ Ht]; [|exact Hl].
  exact (Hne (strftime_token_inj _ _ R1 R2 Ht)).
Qed.

Lemma old_initiate_targets (dry : bool) (acc : string -> bool) (tables rts : list (string * string))
    (s t : string) :
  In (RestoreTableToPointInTime s t) (fst (old_initiate_pitr_restores dry acc tables rts)) ->
  exists k, In (k, s) tables /\ t = lookup_key k rts.
Proof.
  induction tables as [|[k o] rest IH]; cbn [old_initiate_pitr_restores]; [intros []|].
  destruct (old_initiate_pitr_restores dry acc rest rts) as [evs ok]. cbn [fst] in IH.
  destruct dry; [|destruct (acc o)]; cbn [fst In]; intros H.
  - destruct H as [H|H]; [discriminate|]. destruct (IH H) as [k' [Hin ->]].
    exists k'. split; [right; exact Hin|reflexivity].
  - destruct H as [H|H]; [injection H as <- <-; exists k; split; [left|]; reflexivity|].
    destruct (IH H) as [k' [Hin ->]]. exists k'. split; [right; exact Hin|reflexivity].
  - destruct H as [H|[H|[]]]; [|discriminate].
    injection H as <- <-. exists k. split; [left|]; reflexivity.
Qed.

Lemma lookup_key_cases (k : string) (m : list (string * string)) :
  lookup_key k m = "" \/ In (lookup_key k m) (map snd m).
Proof.
  induction m as [|[k' v] rest IH]; cbn [lookup_key map]; [left; reflexivity|].
  destruct (String.eqb k' k); [right; left; reflexivity|].
  destruct IH as [H|H]; [left; exact H|right; right; exact H].
Qed.

Lemma old_names_form (tables : list (string * string)) (c : datetime) (n : string) :
  In n (map snd (old_get_restore_table_names tables c)) ->
  exists o, n = restore_table_name o (strftime_token c).
Proof.
  unfold old_get_restore_table_names. rewrite map_map.
  intros H. apply in_map_iff in H as [[k o] [<- _]]. exists o. reflexivity.
Qed.

Lemma old_verify_shape (dry : bool) (count : string -> option nat) (tables rts : list (string * string)) ev :
  In ev (fst (old_verify_item_counts dry count tables rts)) ->
  (exists l m, ev = Log l m) \/ (exists t, ev = ScanCount t).
Proof.
  induction tables as [|[k o] rest IH]; cbn [old_verify_item_counts]; [intros []|].
  destruct dry.
  - destruct (old_verify_item_counts true count rest rts) as [evs ok].
    intros [<-|H]; [eauto|exact (IH H)].
  - destruct (count o); [destruct (count (lookup_key k rts))|];
      [destruct (Nat.eqb _ _);
       [destruct (old_verify_item_counts false count rest rts) as [evs ok]|]| |];
      cbn [fst]; intros H; repeat (destruct H as [<-|H]; [eauto|]); try exact (IH H);
      contradiction.
Qed.

Lemma old_swap_shape (dry : bool) (tables rts : list (string * string)) ev :
  In ev (fst (old_swap_data dry tables rts)) ->
  (exists l m, ev = Log l m) \/ (exists t, ev = DescribeTable t \/ ev = Scan t).
Proof.
  induction tables as [|[k o] rest IH]; cbn [old_swap_data]; [intros []|].
  destruct dry.
  - destruct (old_swap_data true rest rts) as [evs ok].
    intros [<-|H]; [eauto|exact (IH H)].
  - cbn [fst]. intros H. repeat (destruct H as [<-|H]; [eauto|]). contradiction.
Qed.

Lemma old_locked_restores (cfg : config) (e : env) (ni np : list (string * string)) (s t : string) :
  In (RestoreTableToPointInTime s t) (fst (old_locked_pipeline cfg e ni np)) ->
  In (RestoreTableToPointInTime s t)
     (fst (old_initiate_pitr_restores (dry_run cfg) (restore_accepted e) (tables_of cfg) ni)).
Proof.
  unfold old_locked_pipeline.
  pose proof (poll_shape (dry_run cfg) np (poll_observations e) (RestoreTableToPointInTime s t)) as H2.
  pose proof (old_verify_shape (dry_run cfg) (item_count e) (tables_of cfg) np
                (RestoreTableToPointInTime s t)) as H3.
  pose proof (old_swap_shape (dry_run cfg) (tables_of cfg) np (RestoreTableToPointInTime s t)) as H4.
  pose proof (delete_shape (dry_run cfg) np (RestoreTableToPointInTime s t)) as H5.
  destruct (old_initiate_pitr_restores _ _ _ _) as [ev_init ok1].
  destruct (_poll_restore_completion _ _ _) as [ev_poll ok2].
  destruct (old_verify_item_counts _ _ _ _) as [ev_count ok3].
  destruct (old_swap_data _ _ _) as [ev_swap ok4]. cbn [fst] in *.
  unfold is_log_or_describe in H2.
  destruct ok1, ok2, ok3, ok4; cbn [negb fst]; intros H;
    repeat (apply in_app_iff in H as [H|H]; [first [exact H
      | destruct (H2 H) as [[? [? ?]]|[? ?]]; discriminate
      | destruct (H3 H) as [[? [? ?]]|[? ?]]; discriminate
      | destruct (H4 H) as [[? [? ?]]|[? [?|?]]]; discriminate]|]);
    first [exact H
      | destruct (H5 H) as [[? [? ?]]|[? [? ?]]]; discriminate
      | destruct H as [H|[]]; discriminate].
Qed.

(** In the older script [_initiate_pitr_restores] and the later steps name
    the restore tables with two separate [datetime.now()] readings; when
    these fall in different seconds, no table the run restored into is
    among the tables it then polls, counts, swaps from and deletes. *)
Theorem old_run_polls_other_tables (cfg : config) (e : env) (rp : datetime) (c1 c2 : datetime)
    (s t : string) :
  fields_in_range c1 -> fields_in_range c2 -> wall_second c1 <> wall_second c2 ->
  In (RestoreTableToPointInTime s t) (old_run_trace cfg e rp c1 c2) ->
  ~ In t (map snd (old_get_restore_table_names (tables_of cfg) c2)).
Proof.
  intros R1 R2 Hne H Hin.
  assert (Hr : In (RestoreTableToPointInTime s t)
                 (fst (old_locked_pipeline cfg e (old_get_restore_table_names (tables_of cfg) c1)
                         (old_get_restore_table_names (tables_of cfg) c2)))).
  { unfold old_run_trace, old_run in H.
    destruct (negb _);
      [cbn [fst] in H; destruct (dry_run cfg); cbn in H; intuition discriminate|].
    destruct (negb _);
      [cbn [fst] in H; destruct (dry_run cfg); cbn in H; intuition discriminate|].
    destruct (old_locked_pipeline _ _ _ _) as [ev_body ok]. cbn [fst].
    destruct ok; cbn [fst] in H; apply in_app_iff in H as [H|[H|H]];
      try (destruct (dry_run cfg); cbn in H; intuition discriminate); try discriminate;
      apply in_app_iff in H as [H|H]; try exact H; cbn in H; intuition discriminate. }
  apply old_locked_restores, old_initiate_targets in Hr as [k [_ ->]].
  destruct (lookup_key_cases k (old_get_restore_table_names (tables_of cfg) c1)) as [E|E].
  - rewrite E in Hin. apply old_names_form in Hin as [o Ho].
    apply (f_equal String.length) in Ho. unfold restore_table_name in Ho.
    rewrite !string_length_append in Ho. cbn in Ho. lia.
  - apply old_names_form in E as [o1 E1]. apply old_names_form in Hin as [o2 E2].
    rewrite E1 in E2. exact (restore_names_apart o1 o2 c1 c2 R1 R2 Hne E2).
Qed.

(** The older [_validate_restore_point] measures the same age as the current
    one for a recovery point with an offset; for a naive one it compares
    with the machine's local clock, so its age differs by the gap between
    the machine's UTC offset and Berlin's offset at the recovery point. *)
Theorem old_restore_age_vs_new (e : env) (rp : datetime) :
  old_restore_age e rp =
  restore_age (berlin e) (now_utc e) rp +
  match tzinfo rp with
  | Some _ => 0
  | None => (wall_micros (now_local e) - now_utc e) - berlin e rp * 1000000
  end.
Proof.
  unfold old_restore_age, restore_age, localize, wall_micros, utc_micros.
  destruct rp as [y mo d h mi s us [off|]]; cbn; lia.
Qed.


(** ** Witnesses *)

Lemma acquire_free_or_stale_witness :
  0 < acquire_timeout_ms /\ _is_stale (Some 0) 4000000 = true /\
  acquire acquire_timeout_ms 4000000 true (Some 0) = (true, Some 4000000).
Proof.
  assert (H1 : 0 < acquire_timeout_ms) by reflexivity.
  assert (H2 : _is_stale (Some 0) 4000000 = true) by reflexivity.
  split; [exact H1|]. split; [exact H2|].
  exact (acquire_free_or_stale acquire_timeout_ms 4000000 true (Some 0) H1 (or_intror H2)).
Defined.

Lemma acquire_failure_keeps_lock_file_witness :
  fst (acquire acquire_timeout_ms 1000 true (Some 0)) = false /\
  snd (acquire acquire_timeout_ms 1000 true (Some 0)) = Some 0.
Proof.
  assert (H : fst (acquire acquire_timeout_ms 1000 true (Some 0)) = false) by (vm_compute; reflexivity).
  split; [exact H|]. exact (acquire_failure_keeps_lock_file _ _ _ _ H).
Defined.

Lemma lock_mutual_exclusion_witness :
  fst (acquire acquire_timeout_ms 0 true None) = true /\
  exists a, snd (acquire acquire_timeout_ms 0 true None) = Some a /\
    0 <= a < 0 + acquire_timeout_ms /\
    forall now' u', now' + acquire_timeout_ms - a <= stale_after_ms ->
      acquire acquire_timeout_ms now' u' (Some a) = (false, Some a).
Proof.
  assert (H : fst (acquire acquire_timeout_ms 0 true None) = true) by (vm_compute; reflexivity).
  split; [exact H|]. exact (lock_mutual_exclusion _ _ _ _ H).
Defined.

Lemma status_file_wall_second_witness :
  fields_in_range (mkdt 2026 1 10 13 0 0 0 None) /\
  fields_in_range (mkdt 2026 1 10 13 0 0 999999 None) /\
  status_file (restore_id (mkdt 2026 1 10 13 0 0 0 None))
  = status_file (restore_id (mkdt 2026 1 10 13 0 0 999999 None)).
Proof.
  assert (H1 : fields_in_range (mkdt 2026 1 10 13 0 0 0 None)) by (unfold fields_in_range; cbn; lia).
  assert (H2 : fields_in_range (mkdt 2026 1 10 13 0 0 999999 None)) by (unfold fields_in_range; cbn; lia).
  split; [exact H1|]. split; [exact H2|].
  exact (proj2 (status_file_wall_second _ _ H1 H2) eq_refl).
Defined.

Lemma run_stays_in_environment_witness :
  In (DescribeTable "quote-lambda-tf-quotes-dev-restore-20260108120000")
     (run_trace dev_config (fresh_env [] true [all_active]) (naive_dt 2026 1 8 12 0 0)) /\
  in_environment "dev" "quote-lambda-tf-quotes-dev-restore-20260108120000" = true /\
  in_environment "prod" "quote-lambda-tf-quotes-dev-restore-20260108120000" = false.
Proof.
  assert (H1 : In (DescribeTable "quote-lambda-tf-quotes-dev-restore-20260108120000")
     (run_trace dev_config (fresh_env [] true [all_active]) (naive_dt 2026 1 8 12 0 0)))
    by (vm_compute; repeat (first [left; reflexivity|right])).
  assert (H2 : In "quote-lambda-tf-quotes-dev-restore-20260108120000"
                 (event_tables (DescribeTable "quote-lambda-tf-quotes-dev-restore-20260108120000")))
    by (left; reflexivity).
  destruct (run_stays_in_environment _ _ _ _ _ H1 H2) as [Hin Hout].
  split; [exact H1|]. split; [exact Hin|].
  apply Hout. vm_compute. discriminate.
Defined.

Lemma initiate_all_accepted_witness :
  Forall (fun '(_, o) => (fun _ : string => true) o = true) (tables_of dev_config) /\
  fst (_initiate_pitr_restores false (fun _ => true) (fun _ => OtherRestoreError)
         (tables_of dev_config)
         (restore_tables_of dev_config (fresh_env [] true [all_active]) (naive_dt 2026 1 8 12 0 0)))
  = map (restore_request (restore_tables_of dev_config (fresh_env [] true [all_active])
                            (naive_dt 2026 1 8 12 0 0))) (tables_of dev_config).
Proof.
  assert (H : Forall (fun '(_, o) => (fun _ : string => true) o = true) (tables_of dev_config))
    by (vm_compute; repeat constructor).
  split; [exact H|].
  rewrite (initiate_all_accepted _ _ _ _ H). reflexivity.
Defined.

(** The user-likes restore is rejected for an invalid restore time and its
    description has no earliest restorable time: the window is looked up
    with describe_continuous_backups. *)
Lemma initiate_stops_at_rejection_witness :
  Forall (fun '(_, o') => String.eqb o' "quote-lambda-tf-quotes-dev" = true)
    [("quotes", "quote-lambda-tf-quotes-dev")] /\
  String.eqb "quote-lambda-tf-user-likes-dev" "quote-lambda-tf-quotes-dev" = false /\
  snd (_initiate_pitr_restores false (fun o => String.eqb o "quote-lambda-tf-quotes-dev")
         (fun _ => InvalidRestoreTime NoEarliestInDescription)
         (tables_of dev_config)
         (restore_tables_of dev_config (fresh_env [] true [all_active]) (naive_dt 2026 1 8 12 0 0)))
  = false /\
  In (DescribeContinuousBackups "quote-lambda-tf-user-likes-dev")
    (fst (_initiate_pitr_restores false (fun o => String.eqb o "quote-lambda-tf-quotes-dev")
            (fun _ => InvalidRestoreTime NoEarliestInDescription)
            (tables_of dev_config)
            (restore_tables_of dev_config (fresh_env [] true [all_active])
               (naive_dt 2026 1 8 12 0 0)))).
Proof.
  assert (H1 : Forall (fun '(_, o') => String.eqb o' "quote-lambda-tf-quotes-dev" = true)
                 [("quotes", "quote-lambda-tf-quotes-dev")]) by (repeat constructor).
  assert (H2 : String.eqb "quote-lambda-tf-user-likes-dev" "quote-lambda-tf-quotes-dev" = false)
    by reflexivity.
  split; [exact H1|]. split; [exact H2|].
  change (tables_of dev_config) with
    ([("quotes", "quote-lambda-tf-quotes-dev")]
     ++ ("user_likes", "quote-lambda-tf-user-likes-dev")
        :: [("user_views", "quote-lambda-tf-user-views-dev")])%list.
  rewrite (initiate_stops_at_rejection (fun o => String.eqb o "quote-lambda-tf-quotes-dev")
             (fun _ => InvalidRestoreTime NoEarliestInDescription)
             [("quotes", "quote-lambda-tf-quotes-dev")]
             [("user_views", "quote-lambda-tf-user-views-dev")]
             _ "user_likes" "quote-lambda-tf-user-likes-dev" H1 H2).
  split; [reflexivity|]. cbn [fst].
  apply in_or_app. right. right. apply in_or_app. left. cbn. right. right. left. reflexivity.
Defined.

Lemma swap_data_replaces_witness :
  (0 < page_size swap_env)%nat /\ NoDup (map snd (tables_of dev_config)) /\
  snd (_swap_data false swap_env (tables_of dev_config)
         (restore_tables_of dev_config swap_env (naive_dt 2026 1 8 12 0 0)) None) = Some true /\
  apply_trace (fun _ => []) (rows swap_env)
    (fst (fst (_swap_data false swap_env (tables_of dev_config)
                 (restore_tables_of dev_config swap_env (naive_dt 2026 1 8 12 0 0)) None)))
    "quote-lambda-tf-quotes-dev" = [7; 8; 9]%nat.
Proof.
  assert (H1 : (0 < page_size swap_env)%nat) by (cbn; lia).
  assert (H2 : NoDup (map snd (tables_of dev_config)))
    by (vm_compute; repeat constructor; cbn; intuition discriminate).
  assert (H3 : Forall (fun '(k, o) => rows swap_env o = rows swap_env o /\
                 NoDup (rows swap_env (lookup_key k (restore_tables_of dev_config swap_env
                                                       (naive_dt 2026 1 8 12 0 0)))))
                 (tables_of dev_config)).
  { vm_compute. repeat constructor; cbn; intuition discriminate. }
  assert (H4 : snd (_swap_data false swap_env (tables_of dev_config)
                      (restore_tables_of dev_config swap_env (naive_dt 2026 1 8 12 0 0)) None)
               = Some true) by (vm_compute; reflexivity).
  split; [exact H1|]. split; [exact H2|]. split; [exact H4|].
  exact (swap_data_replaces swap_env _ _ None (fun _ => []) (rows swap_env)
           "quote-lambda-tf-quotes-dev" H1 H2 H3 H4 (fun _ _ => eq_refl)).
Defined.

(** The quotes table's swap raises at the second scan of its restore
    table. *)
Lemma run_swap_failure_witness :
  validated_and_locked swap_fail_env (naive_dt 2026 1 8 12 0 0) = true /\
  initiation_ok dev_config swap_fail_env (naive_dt 2026 1 8 12 0 0) = true /\
  final_status (run_trace dev_config swap_fail_env (naive_dt 2026 1 8 12 0 0))
  = Some (FAILED "Data swap failed").
Proof.
  assert (H1 : validated_and_locked swap_fail_env (naive_dt 2026 1 8 12 0 0) = true)
    by (vm_compute; reflexivity).
  assert (H2 : initiation_ok dev_config swap_fail_env (naive_dt 2026 1 8 12 0 0) = true)
    by (vm_compute; reflexivity).
  assert (H3 : snd (_poll_restore_completion (dry_run dev_config)
                      (restore_tables_of dev_config swap_fail_env (naive_dt 2026 1 8 12 0 0))
                      (poll_observations swap_fail_env)) = true) by (vm_compute; reflexivity).
  assert (H4 : snd (_verify_item_counts (dry_run dev_config) (item_count swap_fail_env)
                      (tables_of dev_config)
                      (restore_tables_of dev_config swap_fail_env (naive_dt 2026 1 8 12 0 0)))
               = true) by (vm_compute; reflexivity).
  assert (H5 : returned_true (snd (_swap_data (dry_run dev_config) swap_fail_env
                                     (tables_of dev_config)
                                     (restore_tables_of dev_config swap_fail_env
                                        (naive_dt 2026 1 8 12 0 0))
                                     (swap_budget swap_fail_env))) = false)
    by (vm_compute; reflexivity).
  split; [exact H1|]. split; [exact H2|].
  exact (proj1 (proj2 (run_swap_failure dev_config swap_fail_env _ H1 H2 H3 H4 H5))).
Defined.

Lemma old_run_invalid_no_calls_witness :
  validation_ok (old_validate_restore_point (fresh_env [] true [all_active])
                   (naive_dt 2025 11 8 12 0 0)) = false /\
  final_status (old_run_trace dev_config (fresh_env [] true [all_active])
                  (naive_dt 2025 11 8 12 0 0) (naive_dt 2026 1 10 13 0 0)
                  (naive_dt 2026 1 10 13 0 0))
  = Some (FAILED "Invalid restore point").
Proof.
  assert (H : validation_ok (old_validate_restore_point (fresh_env [] true [all_active])
                               (naive_dt 2025 11 8 12 0 0)) = false) by (vm_compute; reflexivity).
  split; [exact H|].
  exact (proj1 (proj2 (old_run_invalid_no_calls dev_config _ _ (naive_dt 2026 1 10 13 0 0)
                         (naive_dt 2026 1 10 13 0 0) H))).
Defined.

Lemma old_run_never_swaps_witness :
  dry_run dev_config = false /\
  final_status (old_run_trace dev_config (fresh_env [] true [all_active])
                  (naive_dt 2026 1 8 12 0 0) (naive_dt 2026 1 10 13 0 0)
                  (naive_dt 2026 1 10 13 0 0))
  = Some (FAILED "Data swap failed") /\
  snd (old_run dev_config (fresh_env [] true [all_active]) (naive_dt 2026 1 8 12 0 0)
         (naive_dt 2026 1 10 13 0 0) (naive_dt 2026 1 10 13 0 0)) = false.
Proof.
  assert (H : dry_run dev_config = false) by reflexivity.
  split; [exact H|]. split; [vm_compute; reflexivity|].
  exact (proj1 (old_run_never_swaps dev_config (fresh_env [] true [all_active])
                  (naive_dt 2026 1 8 12 0 0) (naive_dt 2026 1 10 13 0 0)
                  (naive_dt 2026 1 10 13 0 0) H)).
Defined.

Lemma old_run_polls_other_tables_witness :
  In (RestoreTableToPointInTime "quote-lambda-tf-quotes-dev"
        "quote-lambda-tf-quotes-dev-restore-20260110130000")
     (old_run_trace dev_config (fresh_env [] true [all_active]) (naive_dt 2026 1 8 12 0 0)
        (naive_dt 2026 1 10 13 0 0) (naive_dt 2026 1 10 13 0 1)) /\
  ~ In "quote-lambda-tf-quotes-dev-restore-20260110130000"
      (map snd (old_get_restore_table_names (tables_of dev_config) (naive_dt 2026 1 10 13 0 1))).
Proof.
  assert (R1 : fields_in_range (naive_dt 2026 1 10 13 0 0)) by (unfold fields_in_range; cbn; lia).
  assert (R2 : fields_in_range (naive_dt 2026 1 10 13 0 1)) by (unfold fields_in_range; cbn; lia).
  assert (Hne : wall_second (naive_dt 2026 1 10 13 0 0) <> wall_second (naive_dt 2026 1 10 13 0 1))
    by (vm_compute; intros H; inversion H).
  assert (H : In (RestoreTableToPointInTime "quote-lambda-tf-quotes-dev"
                    "quote-lambda-tf-quotes-dev-restore-20260110130000")
                 (old_run_trace dev_config (fresh_env [] true [all_active]) (naive_dt 2026 1 8 12 0 0)
                    (naive_dt 2026 1 10 13 0 0) (naive_dt 2026 1 10 13 0 1)))
    by (vm_compute; repeat (first [left; reflexivity|right])).
  split; [exact H|].
  exact (old_run_polls_other_tables _ _ _ _ _ _ _ R1 R2 Hne H).
Defined.

